(** * clockify-cli: report rendering ([internal/output/timeEntry.go]),
    report flag validation and the command [client list].

    A shallow embedding of the time-entry renderers, of the numeric and
    formatting primitives of Go they rest on and of the command that lists
    clients, followed by their properties. *)

From Stdlib Require Import ZArith QArith Qround Qabs Qpower Qreduction.
From Stdlib Require Import String Ascii List Permutation Bool Lia Lqa.
From Stdlib Require Import DecimalString DecimalPos DecimalZ SpecFloat.
From Stdlib Require Qcanon.
Import ListNotations.

Local Open Scope Z_scope.

(** ** Go's [int64]: two's complement, wrap-around addition, truncated
    division. *)
Module Int64.

Definition min_int : Z := -9223372036854775808.
Definition max_int : Z := 9223372036854775807.

(** The representative of [z] modulo 2^64 in the signed range. *)
Definition wrap (z : Z) : Z :=
  (z + 9223372036854775808) mod 18446744073709551616 - 9223372036854775808.

Definition add (a b : Z) : Z := wrap (a + b).

(** [/] and [%] on integers truncate toward zero. *)
Definition div (a b : Z) : Z := Z.quot a b.
Definition rem (a b : Z) : Z := Z.rem a b.

End Int64.

(** ** Go's [float64]: IEEE 754 binary64, round to nearest, ties to even.

    A finite float is denoted by the rational it represents.  Every
    arithmetic operation returns the exact result rounded to 53
    significant bits.  The values this program computes are zero or have a
    magnitude between 2^-42 and 2^34, so neither the subnormal range nor
    overflow of binary64 is reached, and a sum of a converted integer and a
    quotient is never a negative zero. *)
Module Float64.

Definition float64 := Q.

Definition pow2 (e : Z) : Q := (2 ^ e)%Q.

(** [ilog2 x], for [0 < x]: the [e] with [2^e <= x < 2^(e+1)]. *)
Definition ilog2 (x : Q) : Z :=
  let k := Z.log2 (Qnum x) - Z.log2 (Zpos (Qden x)) in
  if Qle_bool (pow2 k) x then k else k - 1.

(** Round to the nearest integer, ties to the even one. *)
Definition rne (x : Q) : Z :=
  let f := Qfloor x in
  match (x - inject_Z f ?= 1 # 2)%Q with
  | Lt => f
  | Gt => f + 1
  | Eq => if Z.even f then f else f + 1
  end.

(** Round a positive rational to 53 significant bits: with
    [2^52 <= x / 2^e < 2^53], the nearest multiple of [2^e]. *)
Definition round_pos (x : Q) : Q :=
  let e := ilog2 x - 52 in
  inject_Z (rne (x / pow2 e)) * pow2 e.

(** Rounding is symmetric about zero (sign and magnitude). *)
Definition round (x : Q) : float64 :=
  match Qnum x with
  | Z0 => 0%Q
  | Zpos _ => Qred (round_pos x)
  | Zneg _ => Qred (- round_pos (- x))
  end.

(** [float64(z)] for an integer [z]. *)
Definition of_int (z : Z) : float64 := round (inject_Z z).

Definition add (x y : float64) : float64 := round (x + y).
Definition div (x y : float64) : float64 := round (x / y).

(** [int64(x)]: the fraction is discarded (truncation toward zero). *)
Definition to_int64 (x : float64) : Z := Z.quot (Qnum x) (Zpos (Qden x)).

End Float64.

(** ** Package [time]: instants, durations, the clock. *)
Module GoTime.

(** An instant: nanoseconds on the wall clock since the epoch. *)
Definition Time := Z.

(** A [time.Duration] is an [int64] count of nanoseconds. *)
Definition Duration := Z.

Definition Second : Duration := 1000000000.
Definition Minute : Duration := 60000000000.
Definition Hour : Duration := 3600000000000.

Definition minDuration : Duration := Int64.min_int.
Definition maxDuration : Duration := Int64.max_int.

(** [t.Sub(u)]: the difference, or the minimum (maximum) duration when it
    does not fit. *)
Definition Sub (t u : Time) : Duration :=
  let d := t - u in
  if d <? minDuration then minDuration
  else if maxDuration <? d then maxDuration
  else d.

(** [d.Hours()]: [float64(d / Hour) + float64(d % Hour) / (60*60*1e9)]. *)
Definition Hours (d : Duration) : Float64.float64 :=
  Float64.add (Float64.of_int (Int64.div d Hour))
              (Float64.div (Float64.of_int (Int64.rem d Hour))
                           (inject_Z 3600000000000)).

(** [d.Minutes()]: [float64(d / Minute) + float64(d % Minute) / (60*1e9)]. *)
Definition Minutes (d : Duration) : Float64.float64 :=
  Float64.add (Float64.of_int (Int64.div d Minute))
              (Float64.div (Float64.of_int (Int64.rem d Minute))
                           (inject_Z 60000000000)).

(** [d.Seconds()]: [float64(d / Second) + float64(d % Second) / 1e9]. *)
Definition Seconds (d : Duration) : Float64.float64 :=
  Float64.add (Float64.of_int (Int64.div d Second))
              (Float64.div (Float64.of_int (Int64.rem d Second))
                           (inject_Z 1000000000)).

(** The shape shared by [Hours], [Minutes] and [Seconds]: the whole units,
    plus the remainder as a fraction of the unit. *)
Definition in_units (d unit : Z) : Float64.float64 :=
  Float64.add (Float64.of_int (Int64.div d unit))
              (Float64.div (Float64.of_int (Int64.rem d unit)) (inject_Z unit)).

(** The clock: the readings that successive calls of [time.Now()] return. *)
Definition Clock := nat -> Time.

Definition Now (c : Clock) : Time * Clock := (c O, fun n => c (S n)).

End GoTime.

(** ** Package [fmt]: the verbs the renderers use. *)
Module Fmt.

Local Open Scope string_scope.

Definition itoa (z : Z) : string := NilZero.string_of_int (Z.to_int z).

(** [%d] *)
Definition fmt_d (z : Z) : string := itoa z.

(** [%02d]: digits padded with zeros to width 2; a sign takes one of the two
    places. *)
Definition fmt_02d (z : Z) : string :=
  if (z <? 0)%Z then "-" ++ itoa (- z)
  else if (z <? 10)%Z then "0" ++ itoa z
  else itoa z.

End Fmt.

(** ** Package [io]: the output sink. *)

Definition error := string.

(** An [io.Writer]: [Write] hands a chunk to the sink and reports whether
    the sink took it. *)
Class Writer (W : Type) := Write : W -> string -> W * option error.

(** A sink that keeps everything ([bytes.Buffer]). *)
Definition Buffer := string.
#[export] Instance Buffer_Writer : Writer Buffer :=
  fun b p => ((b ++ p)%string, None).

(** A sink that rejects every write (a closed pipe). *)
Inductive Broken := broken.
#[export] Instance Broken_Writer : Writer Broken :=
  fun b _ => (b, Some "broken pipe"%string).

Definition LF : string := String (ascii_of_nat 10) EmptyString.

Import GoTime.

(** ** Package [dto]: the fields of a time entry that the renderers read. *)
Module Dto.

Record Project := { Project_ID : string; Project_Name : string; Color : string }.
Record Task := { Task_ID : string; Task_Name : string }.
Record User := { User_ID : string; Email : string; User_Name : string }.
Record Tag := { Tag_ID : string; Tag_Name : string }.

(** [End] is a pointer: [None] is the nil of an entry still running. *)
Record TimeInterval := { Start : Time; End : option Time }.

(** [Project], [Task] and [User] are pointers, nil when the entry has none. *)
Record TimeEntry := {
  ID : string;
  Description : string;
  Interval : TimeInterval;
  Project_of : option Project;
  Task_of : option Task;
  User_of : option User;
  Tags : list Tag
}.

End Dto.
Import Dto.

(** A Go slice: the nil slice and an allocated one (possibly of length 0)
    range alike and differ when encoded as JSON. *)
Inductive slice (A : Type) : Type :=
| nil_slice
| make_slice (elems : list A).
Arguments nil_slice {A}.
Arguments make_slice {A} elems.

Definition elements {A : Type} (s : slice A) : list A :=
  match s with
  | nil_slice => []
  | make_slice l => l
  end.

Definition len {A : Type} (s : slice A) : Z := Z.of_nat (length (elements s)).

(** [strings.Join] *)
Fixpoint Join (elems : list string) (sep : string) : string :=
  match elems with
  | [] => ""
  | [a] => a
  | a :: rest => a ++ sep ++ Join rest sep
  end%string.

(** [durationToString]:
    [fmt.Sprintf("%d:%02d:%02d", int64(d.Hours()), int64(d.Minutes())%60,
    int64(d.Seconds())%60)]. *)
Definition durationToString (d : Duration) : string :=
  (Fmt.fmt_d (Float64.to_int64 (Hours d)) ++ ":" ++
   Fmt.fmt_02d (Int64.rem (Float64.to_int64 (Minutes d)) 60) ++ ":" ++
   Fmt.fmt_02d (Int64.rem (Float64.to_int64 (Seconds d)) 60))%string.


(** The shape [H:MM:SS]: one or more digits, a colon, two digits, a colon,
    two digits. *)
Definition is_digit (c : ascii) : bool :=
  ((48 <=? nat_of_ascii c) && (nat_of_ascii c <=? 57))%nat.

Fixpoint skip_digits (s : string) : string :=
  match s with
  | EmptyString => EmptyString
  | String c rest => if is_digit c then skip_digits rest else s
  end.

(** What follows the hours: [:MM:SS]. *)
Definition is_MMSS (t : string) : bool :=
  match t with
  | String c0 (String m1 (String m2 (String c1 (String s1 (String s2 EmptyString))))) =>
      Ascii.eqb c0 ":" && is_digit m1 && is_digit m2 &&
      Ascii.eqb c1 ":" && is_digit s1 && is_digit s2
  | _ => false
  end%bool.

Definition is_HMMSS (s : string) : bool :=
  match s with
  | EmptyString => false
  | String c _ => (is_digit c && is_MMSS (skip_digits s))%bool
  end.

(** The two decimal digits of a number below 100. *)
Definition digit_char (z : Z) : ascii := ascii_of_nat (48 + Z.to_nat z).

Definition two_digits (z : Z) : string :=
  String (digit_char (z / 10)) (String (digit_char (z mod 10)) EmptyString).

(** [H:MM:SS] for a count of whole seconds: the hours are not wrapped. *)
Definition HMMSS (seconds : Z) : string :=
  (Fmt.itoa (seconds / 3600) ++ ":" ++ two_digits (seconds / 60 mod 60) ++ ":" ++
   two_digits (seconds mod 60))%string.

Fixpoint all_digits (s : string) : bool :=
  match s with
  | EmptyString => true
  | String c rest => is_digit c && all_digits rest
  end.

Fixpoint has_minus (s : string) : bool :=
  match s with
  | EmptyString => false
  | String c rest => Ascii.eqb c "-" || has_minus rest
  end.

(** [%f] of a [float64]: six decimals, the exact value rounded to the
    nearest, ties to even. *)
Definition fmt_f (x : Float64.float64) : string :=
  let n := Float64.rne (Qabs x * inject_Z 1000000) in
  let frac := Fmt.itoa (n mod 1000000) in
  let zeros := String.concat "" (repeat "0"%string (6 - String.length frac)) in
  ((if Qle_bool 0 x then "" else "-") ++
   Fmt.itoa (n / 1000000) ++ "." ++ zeros ++ frac)%string.

(** [fmt.Sprintf("%s (%s)", name, id)] *)
Definition name_and_id (name id : string) : string :=
  (name ++ " (" ++ id ++ ")")%string.

(** [tagsToStringSlice] *)
Definition tagsToStringSlice (tags : list Tag) : list string :=
  map (fun t => name_and_id (Tag_Name t) (Tag_ID t)) tags.

(** [TimeEntryOutputOptions] sets how the table prints the time entries. *)
Record TimeEntryOutputOptions := {
  ShowTasks : bool;
  ShowTotalDuration : bool;
  TimeFormat : string
}.

(** [TimeEntryOutputOpt]: a function that updates the options in place and
    may fail. *)
Definition TimeEntryOutputOpt : Type :=
  TimeEntryOutputOptions -> TimeEntryOutputOptions * option error.

Definition TIME_FORMAT_FULL : string := "2006-01-02 15:04:05".
Definition TIME_FORMAT_SIMPLE : string := "15:04:05".

Definition WithTimeFormat (format : string) : TimeEntryOutputOpt :=
  fun teo =>
    ({| ShowTasks := ShowTasks teo;
        ShowTotalDuration := ShowTotalDuration teo;
        TimeFormat := format |}, None).

Definition WithShowTasks : TimeEntryOutputOpt :=
  fun teoo =>
    ({| ShowTasks := true;
        ShowTotalDuration := ShowTotalDuration teoo;
        TimeFormat := TimeFormat teoo |}, None).

Definition WithTotalDuration : TimeEntryOutputOpt :=
  fun teoo =>
    ({| ShowTasks := ShowTasks teoo;
        ShowTotalDuration := true;
        TimeFormat := TimeFormat teoo |}, None).

(** ** Package [tablewriter]: what the table renderer hands to the table. *)
Module Tablewriter.

Definition Colors := list Z.

Record Table := {
  header : list string;
  rowLine : bool;
  colWidth : option Z;
  lines : list (list string * list Colors)
}.

Definition NewWriter : Table :=
  {| header := []; rowLine := false; colWidth := None; lines := [] |}.

Definition SetHeader (keys : list string) (t : Table) : Table :=
  {| header := keys; rowLine := rowLine t; colWidth := colWidth t; lines := lines t |}.

Definition SetRowLine (line : bool) (t : Table) : Table :=
  {| header := header t; rowLine := line; colWidth := colWidth t; lines := lines t |}.

Definition SetColWidth (width : Z) (t : Table) : Table :=
  {| header := header t; rowLine := rowLine t; colWidth := Some width; lines := lines t |}.

Definition Rich (row : list string) (colors : list Colors) (t : Table) : Table :=
  {| header := header t; rowLine := rowLine t; colWidth := colWidth t;
     lines := lines t ++ [(row, colors)] |}.

Definition Append (row : list string) (t : Table) : Table :=
  {| header := header t; rowLine := rowLine t; colWidth := colWidth t;
     lines := lines t ++ [(row, [])] |}.

End Tablewriter.

(** [s[i] = v] on a slice of strings or colors. *)
Fixpoint set_nth {A : Type} (i : nat) (v : A) (l : list A) : list A :=
  match l, i with
  | [], _ => []
  | _ :: rest, O => v :: rest
  | a :: rest, S j => a :: set_nth j v rest
  end.

(** The view a template is evaluated against: the entry and its position. *)
Record View := { Entry : TimeEntry; First : bool; Last : bool }.

(** ** Package [encoding/csv]: the encoding of a record. *)
Module Csv.

Definition dquote : ascii := ascii_of_nat 34.

Definition is_special (c : ascii) : bool :=
  (Ascii.eqb c (ascii_of_nat 10) || Ascii.eqb c (ascii_of_nat 13) ||
   Ascii.eqb c dquote || Ascii.eqb c ","%char)%bool.

Fixpoint has_special (s : string) : bool :=
  match s with
  | EmptyString => false
  | String c rest => (is_special c || has_special rest)%bool
  end.

(** [unicode.IsSpace] of the first rune of [s], read off its UTF-8 bytes. *)
Definition first_rune_is_space (s : string) : bool :=
  existsb (fun p => String.prefix p s)
    (map (fun bytes => string_of_list_ascii (map ascii_of_nat bytes))
       [[9]; [10]; [11]; [12]; [13]; [32]; [194; 133]; [194; 160];
        [225; 154; 128];
        [226; 128; 128]; [226; 128; 129]; [226; 128; 130]; [226; 128; 131];
        [226; 128; 132]; [226; 128; 133]; [226; 128; 134]; [226; 128; 135];
        [226; 128; 136]; [226; 128; 137]; [226; 128; 138];
        [226; 128; 168]; [226; 128; 169]; [226; 128; 175];
        [226; 129; 159]; [227; 128; 128]])%nat.

Definition fieldNeedsQuotes (field : string) : bool :=
  if String.eqb field "" then false
  else if String.eqb field "\." then true
  else if has_special field then true
  else first_rune_is_space field.

(** Inside quotes a quote is doubled; the other bytes are copied. *)
Fixpoint escape (field : string) : string :=
  match field with
  | EmptyString => EmptyString
  | String c rest =>
      if Ascii.eqb c dquote then String c (String c (escape rest))
      else String c (escape rest)
  end.

Definition quote : string := String dquote EmptyString.

Definition encode_field (field : string) : string :=
  if fieldNeedsQuotes field then (quote ++ escape field ++ quote)%string
  else field.

(** The bytes [Writer.Write] produces for a record. *)
Definition encode_record (record : list string) : string :=
  (Join (map encode_field record) "," ++ LF)%string.

End Csv.

(** ** The caller's memory

    The slice a renderer receives shares its backing array with the caller,
    and the [Project], [Task] and [User] fields of an entry are addresses of
    objects the caller holds. *)
Module Memory.

Definition ptr := nat.

(** A time entry as it lies in the backing array. *)
Record Cell := {
  c_ID : string;
  c_Description : string;
  c_Interval : TimeInterval;
  c_Project : option ptr;
  c_Task : option ptr;
  c_User : option ptr;
  c_Tags : list Tag
}.

(** The backing array and the objects, each kind at its addresses. *)
Record Memory := {
  backing : slice Cell;
  projects : list Project;
  tasks : list Task;
  users : list User
}.

Definition load {A : Type} (objects : list A) (p : option ptr) : option A :=
  match p with
  | Some a => nth_error objects a
  | None => None
  end.

(** The entry a cell stands for. *)
Definition resolve (m : Memory) (c : Cell) : TimeEntry :=
  {| ID := c_ID c;
     Description := c_Description c;
     Interval := c_Interval c;
     Project_of := load (projects m) (c_Project c);
     Task_of := load (tasks m) (c_Task c);
     User_of := load (users m) (c_User c);
     Tags := c_Tags c |}.

(** The collection the memory holds. *)
Definition collection (m : Memory) : slice TimeEntry :=
  match backing m with
  | nil_slice => nil_slice
  | make_slice cells => make_slice (map (resolve m) cells)
  end.

Definition valid {A : Type} (objects : list A) (p : option ptr) : Prop :=
  match p with
  | Some a => (a < length objects)%nat
  | None => True
  end.

(** Go has no dangling pointers: every address in the array is allocated. *)
Definition well_formed (m : Memory) : Prop :=
  forall c, In c (elements (backing m)) ->
    valid (projects m) (c_Project c) /\
    valid (tasks m) (c_Task c) /\
    valid (users m) (c_User c).

(** [u := dto.User{}; &u]: a fresh object, at a fresh address. *)
Definition new_User (m : Memory) (u : User) : ptr * Memory :=
  (length (users m),
   {| backing := backing m; projects := projects m; tasks := tasks m;
      users := users m ++ [u] |}).

Definition new_Task (m : Memory) (t : Task) : ptr * Memory :=
  (length (tasks m),
   {| backing := backing m; projects := projects m; tasks := tasks m ++ [t];
      users := users m |}).

Definition cell_with_User (c : Cell) (u : option ptr) : Cell :=
  {| c_ID := c_ID c; c_Description := c_Description c; c_Interval := c_Interval c;
     c_Project := c_Project c; c_Task := c_Task c; c_User := u; c_Tags := c_Tags c |}.

Definition cell_with_Task (c : Cell) (t : option ptr) : Cell :=
  {| c_ID := c_ID c; c_Description := c_Description c; c_Interval := c_Interval c;
     c_Project := c_Project c; c_Task := t; c_User := c_User c; c_Tags := c_Tags c |}.

(** What a call leaves of the memory it was given: the array as it was, and
    every object at its address as it was. *)
Definition preserved (before after : Memory) : Prop :=
  backing after = backing before /\
  (forall a p, nth_error (projects before) a = Some p ->
               nth_error (projects after) a = Some p) /\
  (forall a t, nth_error (tasks before) a = Some t ->
               nth_error (tasks after) a = Some t) /\
  (forall a u, nth_error (users before) a = Some u ->
               nth_error (users after) a = Some u).

(** [m] holds what [m0] holds, and objects allocated since. *)
Definition extends (m0 m : Memory) : Prop :=
  backing m = backing m0 /\
  projects m = projects m0 /\
  (exists ts, tasks m = tasks m0 ++ ts)%list /\
  (exists us, users m = users m0 ++ us)%list.

End Memory.

(** ** The Standard Library's binary64, to compare [Float64] with

    [SpecFloat] specifies the operations of IEEE 754 on sign, mantissa and
    exponent; at precision 53 and maximal exponent 1024 they are those of
    binary64. *)
Module Binary64.

Definition of_int (z : Z) : spec_float := binary_normalize 53 1024 z 0 false.

Definition add : spec_float -> spec_float -> spec_float := SFadd 53 1024.
Definition div : spec_float -> spec_float -> spec_float := SFdiv 53 1024.

(** The rational a finite float stands for. *)
Definition to_Q (f : spec_float) : Q :=
  match f with
  | S754_finite s m e =>
      let v := if 0 <=? e then inject_Z (Zpos m * 2 ^ e)
               else Zpos m # Pos.pow 2 (Z.to_pos (- e)) in
      if s then (- v)%Q else v
  | _ => 0%Q
  end.

(** [float64(d / unit) + float64(d % unit) / unit] *)
Definition in_units (d unit : Z) : spec_float :=
  add (of_int (Z.quot d unit)) (div (of_int (Z.rem d unit)) (of_int unit)).

(** Durations to compare on: pseudo-random ones of every magnitude, and
    the ones next to a whole number of units, where rounding decides. *)
Fixpoint random (n : nat) (x : Z) : list Z :=
  match n with
  | O => []
  | S k =>
      let y := (x * 6364136223846793005 + 1442695040888963407) mod 2 ^ 64 in
      (y - 2 ^ 63) :: random k y
  end.

Definition samples : list Duration :=
  (random 60 42 ++ map (fun z => z / 1000) (random 60 7) ++
   map (fun z => z / 1000000) (random 60 9) ++
   map (fun z => z / 1000000000) (random 60 11) ++
   map (fun k => (4090 + Z.of_nat k) * Hour - 1) (seq 0 12) ++
   map (fun k => - ((4090 + Z.of_nat k) * Hour - 1)) (seq 0 12) ++
   map (fun k => Z.of_nat k * 65536 * Minute - 1) (seq 0 12) ++
   map (fun k => (16820 + Z.of_nat k) * 997 * Second - 1) (seq 0 12) ++
   [0; 1; -1; Int64.max_int; Int64.min_int])%list.

Definition agree (d : Duration) : bool :=
  (Qeq_bool (to_Q (in_units d Hour)) (Hours d) &&
   Qeq_bool (to_Q (in_units d Minute)) (Minutes d) &&
   Qeq_bool (to_Q (in_units d Second)) (Seconds d))%bool.

End Binary64.

(** ** The vocabulary of the properties *)
Section Vocabulary.

Local Open Scope string_scope.

(** The clock after [k] readings. *)
Definition later (k : nat) (c : Clock) : Clock := fun n => c (k + n)%nat.

(** [f] over a list, each element with the reading taken for it. *)
Fixpoint timed_map {A B : Type} (f : Time -> A -> B) (l : list A) (c : Clock) : list B :=
  match l with
  | [] => []
  | a :: rest => f (c O) a :: timed_map f rest (later 1 c)
  end.

(** The end of an entry: its own, or the reading of the clock. *)
Definition finish (now : Time) (t : TimeEntry) : Time :=
  match End (Interval t) with
  | Some e => e
  | None => now
  end.

(** The elapsed time of an entry as the loops compute it. *)
Definition elapsed (now : Time) (t : TimeEntry) : Duration :=
  Sub (finish now t) (Start (Interval t)).

(** The sum of durations as the loop accumulates it. *)
Definition int64_sum (ds : list Duration) : Duration := fold_left Int64.add ds 0.

Definition Z_sum (ds : list Z) : Z := fold_right Z.add 0 ds.

(** The difference of the instants, as a number. *)
Definition span (now : Time) (t : TimeEntry) : Z := finish now t - Start (Interval t).

(** The views of the entries from index [i] on, in a collection of [n]. *)
Fixpoint views_from (n i : Z) (l : list TimeEntry) : list View :=
  match l with
  | [] => []
  | te :: rest =>
      {| Entry := te; First := (i =? 0)%Z; Last := (i =? n - 1)%Z |}
        :: views_from n (i + 1) rest
  end.

(** The views of a collection, in order. *)
Definition views (entries : slice TimeEntry) : list View :=
  views_from (len entries) 0 (elements entries).

(** The scenario of the specification: an entry from 10:00:00 to 10:30:00
    and an open one started at 11:00:00, at 11:15:00. *)
Definition entry_a : TimeEntry :=
  {| ID := "a"; Description := "";
     Interval := {| Start := 10 * Hour; End := Some (10 * Hour + 30 * Minute) |};
     Project_of := None; Task_of := None; User_of := None; Tags := [] |}.

Definition entry_b : TimeEntry :=
  {| ID := "b"; Description := "";
     Interval := {| Start := 11 * Hour; End := None |};
     Project_of := None; Task_of := None; User_of := None; Tags := [] |}.

Definition quarter_past_eleven : Clock := fun _ => 11 * Hour + 15 * Minute.

(** A template for the examples: it writes the ID of the entry, and fails
    at the entry [b] after writing a part of its row. *)
Definition example_Execute (t : unit) (v : View) : list string * option error :=
  if String.eqb (ID (Entry v)) "b" then (["b, unfinished"], Some "no such field")
  else ([ID (Entry v)], None).

(** The header row as the CSV renderer writes it. *)
Definition csv_header_row : string :=
  "id,description,project.id,project.name,task.id,task.name,start,end,duration,user.id,user.email,user.name,tags..."
  ++ LF.

End Vocabulary.

(** ** State passing

    A function that reads the clock threads the clock, one that writes
    threads the sink, and one that does both threads the two. *)
Definition State (S A : Type) : Type := S -> A * S.

Definition ret {S A : Type} (a : A) : State S A := fun s => (a, s).

Definition bind {S A B : Type} (m : State S A) (k : A -> State S B) : State S B :=
  fun s => let (a, s') := m s in k a s'.

Notation "x <- m ;; k" := (bind m (fun x => k))
  (at level 61, m at next level, right associativity).

(** ** The renderers of [internal/output/timeEntry.go] *)
Section Renderers.

(** The sink. *)
Context {W : Type} {writer : Writer W}.

(** What the renderers take from outside the package. *)

(** [t.In(time.Local).Format(layout)] *)
Variable time_Format : Time -> string -> string.
(** [encoding/json]'s encoding of one entry, for entries the encoder
    accepts. *)
Variable json_Marshal : TimeEntry -> string.
(** Whether standard output is a character device, where
    [os.Stdout.Stat()] succeeds: the code drops its error and reads the
    mode of the [FileInfo] it returns. *)
Variable stdout_is_char_device : bool.
(** [ui.HEX(s)] followed by [Values()], when the color parses. *)
Variable ui_HEX : string -> option (list Z).
(** The terminal's width, when [term.GetSize] succeeds. *)
Variable term_GetSize : option Z.
(** The chunks [Table.Render] writes for a table. *)
Variable tw_Render : Tablewriter.Table -> list string.
(** [text/template]: parsing, and the evaluation of a template against a
    view: the chunks it writes, and the error that stops it, if any. *)
Variable Template : Type.
Variable template_Parse : string -> Template + error.
Variable template_Execute : Template -> View -> list string * option error.
(** The embedded resources. *)
Variable res_ReadFile : string -> string + error.

(** The state a renderer runs in: the sink and the clock. *)
Record World := { out : W; clock : Clock }.

Definition IO : Type -> Type := State W.
Definition Timed : Type -> Type := State Clock.
Definition M : Type -> Type := State World.

Definition on_sink {A : Type} (m : IO A) : M A :=
  fun s => let (a, w) := m (out s) in (a, {| out := w; clock := clock s |}).

Definition on_clock {A : Type} (m : Timed A) : M A :=
  fun s => let (a, c) := m (clock s) in (a, {| out := out s; clock := c |}).

(** [time.Now()] *)
Definition time_Now : Timed Time := Now.

(** [w.Write(p)] *)
Definition w_Write (p : string) : IO (option error) :=
  fun w => let (w', e) := Write w p in (e, w').

(** [fmt.Fprintln(w, a)]: one write of [a] and a line feed. *)
Definition Fprintln (a : string) : IO (option error) := w_Write (a ++ LF).

Definition Renderer : Type := slice TimeEntry -> M (option error).

(** [TimeEntriesJSONPrint]: [json.NewEncoder(w).Encode(t)].  A nil slice is
    encoded as [null], any other as an array; the encoder ends the value
    with a line feed and writes once. *)
Definition json_Encode (t : slice TimeEntry) : string :=
  match t with
  | nil_slice => "null"
  | make_slice l => "[" ++ Join (map json_Marshal l) "," ++ "]"
  end%string.

Definition TimeEntriesJSONPrint : Renderer :=
  fun t => on_sink (w_Write (json_Encode t ++ LF)).

(** The loop of [sumTimeEntriesDuration]; [s] is the running sum. *)
Fixpoint sum_loop (timeEntries : list TimeEntry) (s : Duration) : Timed Duration :=
  match timeEntries with
  | [] => ret s
  | t :: rest =>
      now <- time_Now ;;
      let end_ := match End (Interval t) with
                  | Some e => e
                  | None => now
                  end in
      let d := Sub end_ (Start (Interval t)) in
      sum_loop rest (Int64.add s d)
  end.

Definition sumTimeEntriesDuration (timeEntries : slice TimeEntry) : Timed Duration :=
  sum_loop (elements timeEntries) 0.

Definition timeEntriesTotalDurationOnly
    (f : Duration -> string) (timeEntries : slice TimeEntry) : M (option error) :=
  d <- on_clock (sumTimeEntriesDuration timeEntries) ;;
  on_sink (Fprintln (f d)).

Definition TimeEntriesTotalDurationOnlyAsFloat : Renderer :=
  timeEntriesTotalDurationOnly (fun d => fmt_f (Hours d)).

Definition TimeEntriesTotalDurationOnlyFormatted : Renderer :=
  timeEntriesTotalDurationOnly durationToString.

(** [TimeEntriesPrintQuietly]: the result of each [Fprintln] is dropped. *)
Fixpoint quiet_loop (timeEntries : list TimeEntry) : IO unit :=
  match timeEntries with
  | [] => ret tt
  | u :: rest => _ <- Fprintln (ID u) ;; quiet_loop rest
  end.

Definition TimeEntriesPrintQuietly : Renderer :=
  fun timeEntries =>
    on_sink (_ <- quiet_loop (elements timeEntries) ;; ret None).

(** [colorToTermColor] *)
Definition colorToTermColor (hex : string) : Tablewriter.Colors :=
  if (String.length hex =? 0)%nat then []
  else if negb stdout_is_char_device then []
  else match ui_HEX (substring 1 (String.length hex - 1) hex) with
       | Some values => [38; 2] ++ values
       | None => []
       end.

Definition table_header (options : TimeEntryOutputOptions) : list string :=
  let header := ["ID"; "Start"; "End"; "Dur"; "Project"; "Description"; "Tags"]%string in
  if ShowTasks options then set_nth 5 "Task"%string header else header.

(** The line and colors of one entry, given the reading of the clock. *)
Definition table_line (options : TimeEntryOutputOptions) (t : TimeEntry) (now : Time)
  : list string * list Tablewriter.Colors :=
  let end_ := match End (Interval t) with
              | Some e => e
              | None => now
              end in
  let colors := repeat ([] : Tablewriter.Colors) (length (table_header options)) in
  let '(projectName, colors) :=
    match Project_of t with
    | Some p => (Project_Name p, set_nth 4 (colorToTermColor (Color p)) colors)
    | None => (EmptyString, set_nth 4 [] colors)
    end in
  let line := [ID t;
               time_Format (Start (Interval t)) (TimeFormat options);
               time_Format end_ (TimeFormat options);
               durationToString (Sub end_ (Start (Interval t)));
               projectName;
               Description t;
               Join (tagsToStringSlice (Tags t)) ", "] in
  let line :=
    if ShowTasks options then
      match Task_of t with
      | Some task => set_nth 5 (name_and_id (Task_Name task) (Task_ID task)) line
      | None => set_nth 5 EmptyString line
      end
    else line in
  (line, colors).

Fixpoint table_loop (options : TimeEntryOutputOptions) (timeEntries : list TimeEntry)
    (tw : Tablewriter.Table) : Timed Tablewriter.Table :=
  match timeEntries with
  | [] => ret tw
  | t :: rest =>
      now <- time_Now ;;
      let (line, colors) := table_line options t now in
      table_loop options rest (Tablewriter.Rich line colors tw)
  end.

(** The footer: [TOTAL] and the sum in the [Dur] column. *)
Definition total_line (options : TimeEntryOutputOptions) (total : Duration) : list string :=
  let line := repeat EmptyString (length (table_header options)) in
  let line := set_nth 0 "TOTAL"%string line in
  set_nth 3 (durationToString total) line.

(** The table as it stands when [Render] is called. *)
Definition build_table (options : TimeEntryOutputOptions) (timeEntries : slice TimeEntry)
  : Timed Tablewriter.Table :=
  let header := table_header options in
  let tw := Tablewriter.SetRowLine true (Tablewriter.SetHeader header Tablewriter.NewWriter) in
  let tw := match term_GetSize with
            | Some width => Tablewriter.SetColWidth (Z.quot width 3) tw
            | None => tw
            end in
  tw <- table_loop options (elements timeEntries) tw ;;
  if ShowTotalDuration options then
    total <- sumTimeEntriesDuration timeEntries ;;
    ret (Tablewriter.Append (total_line options total) tw)
  else ret tw.

(** [Render] writes to the sink and reports nothing. *)
Fixpoint write_ignoring (chunks : list string) : IO unit :=
  match chunks with
  | [] => ret tt
  | p :: rest => _ <- w_Write p ;; write_ignoring rest
  end.

Fixpoint apply_opts (opts : list TimeEntryOutputOpt) (options : TimeEntryOutputOptions)
  : TimeEntryOutputOptions + error :=
  match opts with
  | [] => inl options
  | o :: rest =>
      match o options with
      | (_, Some e) => inr e
      | (options', None) => apply_opts rest options'
      end
  end.

(** The options [TimeEntriesPrint] starts from. *)
Definition default_options : TimeEntryOutputOptions :=
  {| TimeFormat := TIME_FORMAT_SIMPLE;
     ShowTasks := false;
     ShowTotalDuration := false |}.

(** [TimeEntriesPrint] *)
Definition TimeEntriesPrint (opts : list TimeEntryOutputOpt) : Renderer :=
  match apply_opts opts default_options with
  | inr e => fun _ => ret (Some e)
  | inl options =>
      fun timeEntries =>
        tw <- on_clock (build_table options timeEntries) ;;
        on_sink (_ <- write_ignoring (tw_Render tw) ;; ret None)
  end.

(** *** The CSV renderer *)

(** [bufio.Writer], which [csv.Writer] writes through: the pending bytes and
    the first error met, which sticks. *)
Record bufio := { buf : string; err : option error }.

Definition defaultBufSize : nat := 4096.

Definition bufio_Flush (b : bufio) : IO bufio :=
  match err b with
  | Some _ => ret b
  | None =>
      if (String.length (buf b) =? 0)%nat then ret b
      else
        e <- w_Write (buf b) ;;
        match e with
        | Some x => ret {| buf := buf b; err := Some x |}
        | None => ret {| buf := EmptyString; err := None |}
        end
  end.

Definition bufio_WriteByte (c : ascii) (b : bufio) : IO bufio :=
  match err b with
  | Some _ => ret b
  | None =>
      b <- (if (defaultBufSize <=? String.length (buf b))%nat
            then bufio_Flush b else ret b) ;;
      match err b with
      | Some _ => ret b
      | None => ret {| buf := (buf b ++ String c EmptyString)%string; err := None |}
      end
  end.

(** [WriteString] fills the buffer and flushes it whenever more bytes wait:
    byte by byte; after an error nothing more is taken. *)
Fixpoint bufio_WriteString (s : string) (b : bufio) : IO bufio :=
  match s with
  | EmptyString => ret b
  | String c rest => b <- bufio_WriteByte c b ;; bufio_WriteString rest b
  end.

(** [csv.Writer.Write]: the encoded record goes to the buffer; the error it
    returns is the buffer's. *)
Definition csv_Write (record : list string) (w : bufio) : IO bufio :=
  bufio_WriteString (Csv.encode_record record) w.

Definition csv_header : list string :=
  ["id"; "description"; "project.id"; "project.name"; "task.id"; "task.name";
   "start"; "end"; "duration"; "user.id"; "user.email"; "user.name";
   "tags..."]%string.

Definition zero_Project : Project :=
  {| Project_ID := ""; Project_Name := ""; Color := "" |}.
Definition zero_User : User := {| User_ID := ""; Email := ""; User_Name := "" |}.
Definition zero_Task : Task := {| Task_ID := ""; Task_Name := "" |}.

Definition with_User (te : TimeEntry) (u : option User) : TimeEntry :=
  {| ID := ID te; Description := Description te; Interval := Interval te;
     Project_of := Project_of te; Task_of := Task_of te; User_of := u;
     Tags := Tags te |}.

Definition with_Task (te : TimeEntry) (t : option Task) : TimeEntry :=
  {| ID := ID te; Description := Description te; Interval := Interval te;
     Project_of := Project_of te; Task_of := t; User_of := User_of te;
     Tags := Tags te |}.

(** [*p] for a pointer that is not nil. *)
Definition deref {A : Type} (zero : A) (p : option A) : A :=
  match p with
  | Some a => a
  | None => zero
  end.

(** The [format] closure of the CSV renderer. *)
Definition csv_format (t : option Time) : string :=
  match t with
  | None => EmptyString
  | Some t => time_Format t "2006-01-02 15:04:05"
  end.

(** The body of the loop: the record of one entry.  [te] is the loop's own
    copy of the entry. *)
Definition csv_record (te : TimeEntry) (now : Time) : list string :=
  let p := match Project_of te with
           | Some p => p
           | None => zero_Project
           end in
  let end_ := match End (Interval te) with
              | Some e => e
              | None => now
              end in
  let te := match User_of te with
            | None => with_User te (Some zero_User)
            | Some _ => te
            end in
  let te := match Task_of te with
            | None => with_Task te (Some zero_Task)
            | Some _ => te
            end in
  let arr := [ID te;
              Description te;
              Project_ID p;
              Project_Name p;
              Task_ID (deref zero_Task (Task_of te));
              Task_Name (deref zero_Task (Task_of te));
              csv_format (Some (Start (Interval te)));
              csv_format (End (Interval te));
              durationToString (Sub end_ (Start (Interval te)));
              User_ID (deref zero_User (User_of te));
              Email (deref zero_User (User_of te));
              User_Name (deref zero_User (User_of te))] in
  arr ++ tagsToStringSlice (Tags te).

Fixpoint csv_loop (timeEntries : list TimeEntry) (w : bufio) : M bufio :=
  match timeEntries with
  | [] => ret w
  | te :: rest =>
      now <- on_clock time_Now ;;
      w <- on_sink (csv_Write (csv_record te now) w) ;;
      match err w with
      | Some _ => ret w
      | None => csv_loop rest w
      end
  end.

(** [TimeEntriesCSVPrint] *)
Definition TimeEntriesCSVPrint : Renderer :=
  fun timeEntries =>
    let w := {| buf := EmptyString; err := None |} in
    w <- on_sink (csv_Write csv_header w) ;;
    match err w with
    | Some e => ret (Some e)
    | None =>
        w <- csv_loop (elements timeEntries) w ;;
        match err w with
        | Some e => ret (Some e)
        | None => w <- on_sink (bufio_Flush w) ;; ret (err w)
        end
    end.

(** *** The template renderers *)

(** Writes until the sink rejects one. *)
Fixpoint write_all (chunks : list string) : IO (option error) :=
  match chunks with
  | [] => ret None
  | p :: rest =>
      e <- w_Write p ;;
      match e with
      | Some x => ret (Some x)
      | None => write_all rest
      end
  end.

(** [t.Execute(w, view)]: stops at the first write the sink rejects, or
    where the evaluation fails. *)
Definition Execute (t : Template) (view : View) : IO (option error) :=
  let (chunks, failure) := template_Execute t view in
  e <- write_all chunks ;;
  match e with
  | Some x => ret (Some x)
  | None => ret failure
  end.

(** The loop of [TimeEntriesPrintWithTemplate]: [n] is [len(timeEntries)],
    [i] the index of the head of [rest]. *)
Fixpoint template_loop (t : Template) (n i : Z) (rest : list TimeEntry)
  : IO (option error) :=
  match rest with
  | [] => ret None
  | te :: rest' =>
      e <- Execute t {| Entry := te; First := (i =? 0); Last := (i =? n - 1) |} ;;
      match e with
      | Some x => ret (Some x)
      | None => _ <- Fprintln EmptyString ;; template_loop t n (i + 1) rest'
      end
  end.

(** [TimeEntriesPrintWithTemplate] *)
Definition TimeEntriesPrintWithTemplate (format : string) : Renderer :=
  fun timeEntries =>
    match template_Parse format with
    | inr e => ret (Some e)
    | inl t => on_sink (template_loop t (len timeEntries) 0 (elements timeEntries))
    end.

(** [TimeEntriesMarkdownPrint] *)
Definition TimeEntriesMarkdownPrint : Renderer :=
  fun tes =>
    match res_ReadFile "resources/timeEntry.gotmpl.md" with
    | inr e => ret (Some e)
    | inl b => TimeEntriesPrintWithTemplate b tes
    end.

(** *** The CSV renderer, run on the caller's memory

    [for _, te := range timeEntries] copies each element of the array into
    the variable [te]; the assignments [te.User = &u] and [te.Task = &t]
    update that variable. *)

Definition csv_record_at (te : Memory.Cell) (now : Time) (m : Memory.Memory)
  : list string * Memory.Memory :=
  let p := match Memory.c_Project te with
           | Some _ => deref zero_Project (Memory.load (Memory.projects m) (Memory.c_Project te))
           | None => zero_Project
           end in
  let end_ := match End (Memory.c_Interval te) with
              | Some e => e
              | None => now
              end in
  let '(te, m) := match Memory.c_User te with
                  | None => let (a, m) := Memory.new_User m zero_User in
                            (Memory.cell_with_User te (Some a), m)
                  | Some _ => (te, m)
                  end in
  let '(te, m) := match Memory.c_Task te with
                  | None => let (a, m) := Memory.new_Task m zero_Task in
                            (Memory.cell_with_Task te (Some a), m)
                  | Some _ => (te, m)
                  end in
  let task := deref zero_Task (Memory.load (Memory.tasks m) (Memory.c_Task te)) in
  let user := deref zero_User (Memory.load (Memory.users m) (Memory.c_User te)) in
  let arr := [Memory.c_ID te;
              Memory.c_Description te;
              Project_ID p;
              Project_Name p;
              Task_ID task;
              Task_Name task;
              csv_format (Some (Start (Memory.c_Interval te)));
              csv_format (End (Memory.c_Interval te));
              durationToString (Sub end_ (Start (Memory.c_Interval te)));
              User_ID user;
              Email user;
              User_Name user] in
  (arr ++ tagsToStringSlice (Memory.c_Tags te), m).

(** The loop, by index: [n] elements remain, from index [i]. *)
Fixpoint csv_loop_at (n i : nat) (m : Memory.Memory) (w : bufio)
  : M (Memory.Memory * bufio) :=
  match n with
  | O => ret (m, w)
  | S n' =>
      match nth_error (elements (Memory.backing m)) i with
      | None => ret (m, w)
      | Some te =>
          now <- on_clock time_Now ;;
          let (record, m) := csv_record_at te now m in
          w <- on_sink (csv_Write record w) ;;
          match err w with
          | Some _ => ret (m, w)
          | None => csv_loop_at n' (S i) m w
          end
      end
  end.

Definition TimeEntriesCSVPrint_at (m : Memory.Memory) : M (Memory.Memory * option error) :=
  let w := {| buf := EmptyString; err := None |} in
  w <- on_sink (csv_Write csv_header w) ;;
  match err w with
  | Some e => ret (m, Some e)
  | None =>
      r <- csv_loop_at (length (elements (Memory.backing m))) 0 m w ;;
      let (m, w) := r in
      match err w with
      | Some e => ret (m, Some e)
      | None => w <- on_sink (bufio_Flush w) ;; ret (m, err w)
      end
  end.

(** The renderers of the package. *)
Inductive Format : Type :=
| JSON
| DurationFloat
| DurationFormatted
| Quiet
| Table (opts : list TimeEntryOutputOpt)
| CSV
| WithTemplate (format : string)
| Markdown.

(** A renderer that only reads its argument. *)
Definition reading (r : Renderer) (m : Memory.Memory) : M (Memory.Memory * option error) :=
  e <- r (Memory.collection m) ;; ret (m, e).

(** A renderer called on the collection the memory holds. *)
Definition render (f : Format) (m : Memory.Memory) : M (Memory.Memory * option error) :=
  match f with
  | JSON => reading TimeEntriesJSONPrint m
  | DurationFloat => reading TimeEntriesTotalDurationOnlyAsFloat m
  | DurationFormatted => reading TimeEntriesTotalDurationOnlyFormatted m
  | Quiet => reading TimeEntriesPrintQuietly m
  | Table opts => reading (TimeEntriesPrint opts) m
  | CSV => TimeEntriesCSVPrint_at m
  | WithTemplate format => reading (TimeEntriesPrintWithTemplate format) m
  | Markdown => reading TimeEntriesMarkdownPrint m
  end.

(** *** What a renderer does, told apart from the readings of the clock *)

(** The records written one after the other, until the buffer reports an
    error. *)
Fixpoint csv_WriteAll (records : list (list string)) (w : bufio) : IO bufio :=
  match records with
  | [] => ret w
  | r :: rest =>
      w <- csv_Write r w ;;
      match err w with
      | Some _ => ret w
      | None => csv_WriteAll rest w
      end
  end.

(** The header, the records, and the flush. *)
Definition csv_print (records : list (list string)) : IO (option error) :=
  w <- csv_Write csv_header {| buf := EmptyString; err := None |} ;;
  match err w with
  | Some e => ret (Some e)
  | None =>
      w <- csv_WriteAll records w ;;
      match err w with
      | Some e => ret (Some e)
      | None => w <- bufio_Flush w ;; ret (err w)
      end
  end.

(** The views evaluated one after the other, a line feed after each, until
    one fails. *)
Fixpoint render_views (t : Template) (vs : list View) : IO (option error) :=
  match vs with
  | [] => ret None
  | v :: rest =>
      e <- Execute t v ;;
      match e with
      | Some x => ret (Some x)
      | None => _ <- Fprintln EmptyString ;; render_views t rest
      end
  end.

(** The table of an empty collection: the header, and no line but the
    footer when the total is asked for. *)
Definition empty_table (options : TimeEntryOutputOptions) : Tablewriter.Table :=
  {| Tablewriter.header := table_header options;
     Tablewriter.rowLine := true;
     Tablewriter.colWidth := option_map (fun width => Z.quot width 3) term_GetSize;
     Tablewriter.lines :=
       if ShowTotalDuration options then [(total_line options 0, [])] else [] |}.

(** The twelve fixed columns of the record of an entry. *)
Definition fixed_columns (te : TimeEntry) (now : Time) : list string :=
  firstn 12 (csv_record te now).

End Renderers.

(** The buffer holds bytes still to be written, or the pipe's error. *)
Definition pending (b : bufio) : Prop :=
  (err b = None /\ buf b <> EmptyString) \/ err b = Some "broken pipe"%string.

(** One write of [p]: the result of the sink and the state after it. *)
Definition one_write {W : Type} {writer : Writer W} (p : string) (world : @World W)
  : option error * @World W :=
  (snd (Write (out world) p),
   {| out := fst (Write (out world) p); clock := clock world |}).

(** ** Report flags *)
Module ReportFlags.

(** Modelled from the spec: the output formats (its section 1), declared in
    the missing package. *)
Inductive OutputFormat :=
| FormatTable | FormatCSV | FormatJSON | FormatMarkdown | FormatTemplate
| FormatQuiet | FormatDurationFloat | FormatDurationFormatted.

(** Modelled from the spec: the options of a report (its section 3); the
    package that declares them, [pkg/cmd/time-entry/report/util], is
    missing from the sources, which hold its test only. *)
Record ReportOptions := {
  Billable : bool;
  NotBillable : bool;
  Client : string;
  Project : string;
  Output : OutputFormat;
  ShowTasks : bool;
  ShowTotalDuration : bool;
  TimeFormat : string
}.

(** Modelled from the spec: the two kinds of error of the validator (its
    section 7), declared in the missing package. *)
Inductive ErrorKind := ConflictingFlags | DependentFlagMissing.

Record CheckError := { kind : ErrorKind; message : string }.

(** Modelled from the spec: [Check] (section 4.1), missing from the sources:
    the two rules in their order, the first violation wins.  The messages
    are the ones the test accepts. *)
Definition Check (options : ReportOptions) : option CheckError :=
  if (Billable options && NotBillable options)%bool then
    Some {| kind := ConflictingFlags;
            message := "the following flags can't be used together: billable and not-billable" |}
  else if (negb (String.eqb (Client options) "") && String.eqb (Project options) "")%bool then
    Some {| kind := DependentFlagMissing;
            message := "flag 'client' can't be used without flag 'project'" |}
  else None.

(** [needle] occurs in [s]. *)
Fixpoint find (needle s : string) : option string :=
  if String.prefix needle s
  then Some (substring (String.length needle) (String.length s - String.length needle) s)
  else match s with
       | EmptyString => None
       | String _ rest => find needle rest
       end.

(** The parts occur in [s] one after the other: the regular expression
    [p1.*p2.*p3] on a single line. *)
Fixpoint in_order (parts : list string) (s : string) : bool :=
  match parts with
  | [] => true
  | p :: rest =>
      match find p s with
      | Some after => in_order rest after
      | None => false
      end
  end.

(** Modelled from the spec: the flags as [NewReportFlags], missing from the
    sources, returns them, with the fields the tests set. *)
Definition flags (billable notBillable : bool) (client project : string) : ReportOptions :=
  {| Billable := billable; NotBillable := notBillable; Client := client;
     Project := project; Output := FormatTable; ShowTasks := false;
     ShowTotalDuration := false; TimeFormat := "" |}.

End ReportFlags.

(** ** CSV text, read back *)
Module CsvText.

Local Open Scope string_scope.

(** Where the reader stands: at the start of a record, at the start of a
    field after a comma, inside a field without quotes, inside a quoted
    field, or after a quote met inside a quoted field. *)
Inductive Mode : Type := RecordStart | FieldStart | Unquoted | Quoted | AfterQuote.

(** The end of a field: a comma goes on with the record, a line feed ends
    it. *)
Definition is_comma (ch : ascii) : bool := Ascii.eqb ch ",".
Definition is_line_feed (ch : ascii) : bool := Ascii.eqb ch (ascii_of_nat 10).

(** The records of a CSV text, each the list of its fields: fields are
    separated by commas and records ended by line feeds; a field that
    starts with a quote runs to the closing quote, commas and line feeds
    inside it are data and a doubled quote is a quote; a quote anywhere
    else, or a text that ends inside a record, is an error. *)
Fixpoint read_from (s : string) (mode : Mode) (field : string) (fields : list string)
    (records : list (list string)) : option (list (list string)) :=
  match s with
  | EmptyString =>
      match mode with
      | RecordStart => Some records
      | _ => None
      end
  | String ch rest =>
      match mode with
      | RecordStart | FieldStart =>
          if Ascii.eqb ch Csv.dquote then read_from rest Quoted "" fields records
          else if is_comma ch then read_from rest FieldStart "" (fields ++ [""]) records
          else if is_line_feed ch
               then read_from rest RecordStart "" [] (records ++ [fields ++ [""]])
          else read_from rest Unquoted (String ch "") fields records
      | Unquoted =>
          if Ascii.eqb ch Csv.dquote then None
          else if is_comma ch then read_from rest FieldStart "" (fields ++ [field]) records
          else if is_line_feed ch
               then read_from rest RecordStart "" [] (records ++ [fields ++ [field]])
          else read_from rest Unquoted (field ++ String ch "") fields records
      | Quoted =>
          if Ascii.eqb ch Csv.dquote then read_from rest AfterQuote field fields records
          else read_from rest Quoted (field ++ String ch "") fields records
      | AfterQuote =>
          if Ascii.eqb ch Csv.dquote
          then read_from rest Quoted (field ++ String ch "") fields records
          else if is_comma ch then read_from rest FieldStart "" (fields ++ [field]) records
          else if is_line_feed ch
               then read_from rest RecordStart "" [] (records ++ [fields ++ [field]])
          else None
      end
  end%list.

Definition read (s : string) : option (list (list string)) :=
  read_from s RecordStart "" [] [].

(** What the reader does at the end of a field. *)
Definition after_field (sep : ascii) (rest : string) (field : string)
    (fields : list string) (records : list (list string)) :=
  if is_comma sep then read_from rest FieldStart "" (fields ++ [field])%list records
  else read_from rest RecordStart "" [] (records ++ [fields ++ [field]])%list.

(** The bytes that end a field. *)
Definition separator (sep : ascii) : Prop := sep = ","%char \/ sep = ascii_of_nat 10.

End CsvText.

(** ** The vocabulary of the further properties *)
Section TableVocabulary.

Local Open Scope string_scope.

(** The options the package exports, as a caller lists them. *)
Inductive Opt : Type :=
| OptTimeFormat (format : string)
| OptShowTasks
| OptTotalDuration.

Definition opt (o : Opt) : TimeEntryOutputOpt :=
  match o with
  | OptTimeFormat format => WithTimeFormat format
  | OptShowTasks => WithShowTasks
  | OptTotalDuration => WithTotalDuration
  end.

Definition is_OptShowTasks (o : Opt) : bool :=
  match o with
  | OptShowTasks => true
  | _ => false
  end.

Definition is_OptTotalDuration (o : Opt) : bool :=
  match o with
  | OptTotalDuration => true
  | _ => false
  end.

(** The format of the last [WithTimeFormat] of the list, or [start]. *)
Definition last_format (os : list Opt) (start : string) : string :=
  fold_left (fun f o => match o with
                        | OptTimeFormat format => format
                        | _ => f
                        end) os start.

(** The entry with another description. *)
Definition with_Description (te : TimeEntry) (d : string) : TimeEntry :=
  {| ID := ID te; Description := d; Interval := Interval te;
     Project_of := Project_of te; Task_of := Task_of te; User_of := User_of te;
     Tags := Tags te |}.

End TableVocabulary.

(** ** The command [client list] ([pkg/cmd/client/list/list.go]) *)
Module ClientList.

Local Open Scope string_scope.

(** [pflag]: the flags of a command by name; the ones this command reads
    hold a string or a boolean. *)
Inductive FlagValue : Type :=
| StringValue (s : string)
| BoolValue (b : bool).

Definition FlagSet : Type := list (string * FlagValue).

Fixpoint Lookup (fs : FlagSet) (name : string) : option FlagValue :=
  match fs with
  | [] => None
  | (n, v) :: rest => if String.eqb n name then Some v else Lookup rest name
  end.

(** [GetString]: the value of the flag, or the empty string and an error
    when no such flag is defined or it is not a string. *)
Definition GetString (fs : FlagSet) (name : string) : string * option error :=
  match Lookup fs name with
  | Some (StringValue s) => (s, None)
  | Some (BoolValue _) => ("", Some "trying to get string value of flag of type bool")
  | None => ("", Some ("flag accessed but not defined: " ++ name))
  end.

(** [GetBool]: the value of the flag, or false and an error. *)
Definition GetBool (fs : FlagSet) (name : string) : bool * option error :=
  match Lookup fs name with
  | Some (BoolValue b) => (b, None)
  | Some (StringValue _) => (false, Some "trying to get bool value of flag of type string")
  | None => (false, Some ("flag accessed but not defined: " ++ name))
  end.

Section Command.

(** [api.PaginationParam] and [api.AllPages()]. *)
Variable PaginationParam : Type.
Variable api_AllPages : PaginationParam.

(** [api.GetClientsParam]; [Archived] is a pointer, nil for no filter. *)
Record GetClientsParam := {
  Workspace : string;
  Name : string;
  Archived : option bool;
  Pagination : PaginationParam
}.

Definition with_Workspace (p : GetClientsParam) (w : string) : GetClientsParam :=
  {| Workspace := w; Name := Name p; Archived := Archived p; Pagination := Pagination p |}.

Definition with_Name (p : GetClientsParam) (n : string) : GetClientsParam :=
  {| Workspace := Workspace p; Name := n; Archived := Archived p;
     Pagination := Pagination p |}.

Definition with_Archived (p : GetClientsParam) (b : option bool) : GetClientsParam :=
  {| Workspace := Workspace p; Name := Name p; Archived := b; Pagination := Pagination p |}.

(** The output flags and their [Check]. *)
Variable OutputFlags : Type.
Variable of_Check : OutputFlags -> option error.

(** [api.Client], the handle of the service, and [dto.Client], a client. *)
Variable ApiClient : Type.
Variable DtoClient : Type.

(** What the command calls: the factory, the service and the report, each
    acting on the world outside the command. *)
Variable World : Type.
Variable f_GetWorkspaceID : State World (string + error).
Variable f_Client : State World (ApiClient + error).
Variable c_GetClients : ApiClient -> GetClientsParam -> State World (list DtoClient + error).
Variable util_Report : list DtoClient -> OutputFlags -> State World (option error).

(** The [RunE] of the command [NewCmdList] returns; [outputs] and [flags] are
    the output flags and the flag set as the command line left them. *)
Definition RunE (outputs : OutputFlags) (flags : FlagSet) : State World (option error) :=
  match of_Check outputs with
  | Some e => ret (Some e)
  | None =>
      let p := {| Workspace := ""; Name := ""; Archived := None;
                  Pagination := api_AllPages |} in
      r <- f_GetWorkspaceID ;;
      match r with
      | inr e => ret (Some e)
      | inl workspace =>
          let p := with_Workspace p workspace in
          r <- f_Client ;;
          match r with
          | inr e => ret (Some e)
          | inl c =>
              let p := with_Name p (fst (GetString flags "name")) in
              let p := if fst (GetBool flags "not-archived")
                       then with_Archived p (Some false) else p in
              let p := if fst (GetBool flags "archived")
                       then with_Archived p (Some true) else p in
              r <- c_GetClients c p ;;
              match r with
              | inr e => ret (Some e)
              | inl clients => util_Report clients outputs
              end
          end
      end
  end.

End Command.

Arguments Workspace {PaginationParam} _.
Arguments Name {PaginationParam} _.
Arguments Archived {PaginationParam} _.
Arguments Pagination {PaginationParam} _.

(** *** The calls of a run, written down *)
Section Recorded.

Variable PaginationParam : Type.
Variable api_AllPages : PaginationParam.
Variable OutputFlags : Type.
Variable of_Check : OutputFlags -> option error.
Variable ApiClient : Type.
Variable DtoClient : Type.

(** A call the command makes. *)
Inductive Call : Type :=
| GetWorkspaceID
| NewClient
| GetClients (c : ApiClient) (p : GetClientsParam PaginationParam)
| Report (clients : list DtoClient) (outputs : OutputFlags).

(** What the calls answer. *)
Variable workspace : string + error.
Variable client : ApiClient + error.
Variable clients : ApiClient -> GetClientsParam PaginationParam -> list DtoClient + error.
Variable report : list DtoClient -> OutputFlags -> option error.

(** A call that is added to the record and answers [a]. *)
Definition recorded {A : Type} (call : Call) (a : A) : State (list Call) A :=
  fun calls => (a, (calls ++ [call])%list).

(** The run of the command with every call recorded. *)
Definition run (outputs : OutputFlags) (flags : FlagSet) : option error * list Call :=
  RunE PaginationParam api_AllPages OutputFlags of_Check ApiClient DtoClient (list Call)
    (recorded GetWorkspaceID workspace)
    (recorded NewClient client)
    (fun c p => recorded (GetClients c p) (clients c p))
    (fun cs o => recorded (Report cs o) (report cs o))
    outputs flags [].

End Recorded.

Arguments GetWorkspaceID {PaginationParam OutputFlags ApiClient DtoClient}.
Arguments NewClient {PaginationParam OutputFlags ApiClient DtoClient}.
Arguments GetClients {PaginationParam OutputFlags ApiClient DtoClient} c p.
Arguments Report {PaginationParam OutputFlags ApiClient DtoClient} clients outputs.

End ClientList.

(** * Properties *)

(** ** Rounding to binary64 *)
Module Float64Facts.
Import Float64.
Local Open Scope Q_scope.

Lemma pow2_pos e : 0 < pow2 e.
Proof. apply Qpower_0_lt. reflexivity. Qed.

Lemma pow2_add a b : pow2 (a + b) == pow2 a * pow2 b.
Proof. apply Qpower_plus. discriminate. Qed.

Lemma pow2_le a b : (a <= b)%Z -> pow2 a <= pow2 b.
Proof. intros H. apply Qpower_le_compat_l; [exact H | discriminate]. Qed.

Lemma pow2_Z e : (0 <= e)%Z -> pow2 e == inject_Z (2 ^ e).
Proof. intros H. unfold pow2. rewrite Zpower_Qpower by exact H. reflexivity. Qed.

Lemma Q_num_den (x : Q) : x * inject_Z (Zpos (Qden x)) == inject_Z (Qnum x).
Proof.
  destruct x as [n d]. simpl. unfold Qeq, Qmult, inject_Z. simpl. lia.
Qed.

Lemma Qnum_pos x : 0 < x -> (0 < Qnum x)%Z.
Proof. destruct x as [n d]. unfold Qlt. simpl. lia. Qed.

(** [ilog2] brackets its argument between consecutive powers of two. *)
Lemma ilog2_spec x : 0 < x -> pow2 (ilog2 x) <= x /\ x < pow2 (ilog2 x + 1).
Proof.
  intros Hx. pose proof (Qnum_pos x Hx) as Hn.
  pose proof (Q_num_den x) as Hnd.
  set (n := Qnum x) in *. set (d := Zpos (Qden x)) in *.
  assert (Hd : (0 < d)%Z) by (unfold d; lia).
  destruct (Z.log2_spec n Hn) as [Ha1 Ha2].
  destruct (Z.log2_spec d Hd) as [Hb1 Hb2].
  pose proof (Z.log2_nonneg n) as Ha0. pose proof (Z.log2_nonneg d) as Hb0.
  set (a := Z.log2 n) in *. set (b := Z.log2 d) in *.
  assert (Hpa : pow2 a <= inject_Z n) by (rewrite pow2_Z by lia; rewrite <- Zle_Qle; exact Ha1).
  assert (Hpa' : inject_Z n < pow2 (a + 1)).
  { rewrite pow2_Z by lia. rewrite <- Zlt_Qlt. replace (a + 1)%Z with (Z.succ a) by lia. exact Ha2. }
  assert (Hpb : pow2 b <= inject_Z d) by (rewrite pow2_Z by lia; rewrite <- Zle_Qle; exact Hb1).
  assert (Hpb' : inject_Z d < pow2 (b + 1)).
  { rewrite pow2_Z by lia. rewrite <- Zlt_Qlt. replace (b + 1)%Z with (Z.succ b) by lia. exact Hb2. }
  unfold ilog2. fold n d a b.
  destruct (Qle_bool (pow2 (a - b)) x) eqn:E.
  - split; [apply Qle_bool_iff; exact E|].
    apply (Qmult_lt_r _ _ (pow2 b) (pow2_pos b)).
    rewrite <- pow2_add. replace (a - b + 1 + b)%Z with (a + 1)%Z by lia.
    apply Qle_lt_trans with (x * inject_Z d).
    + apply Qmult_le_l; [exact Hx | exact Hpb].
    + rewrite Hnd. exact Hpa'.
  - assert (Hlt : x < pow2 (a - b)).
    { apply Qnot_le_lt. intros H. apply Qle_bool_iff in H. congruence. }
    split.
    + apply Qlt_le_weak.
      apply (Qmult_lt_r _ _ (pow2 (b + 1)) (pow2_pos (b + 1))).
      rewrite <- pow2_add. replace (a - b - 1 + (b + 1))%Z with a by lia.
      apply Qle_lt_trans with (inject_Z n); [exact Hpa|].
      rewrite <- Hnd. apply Qmult_lt_l; [exact Hx | exact Hpb'].
    + replace (a - b - 1 + 1)%Z with (a - b)%Z by lia. exact Hlt.
Qed.

Lemma ilog2_unique x e : pow2 e <= x -> x < pow2 (e + 1) -> ilog2 x = e.
Proof.
  intros H1 H2.
  assert (Hx : 0 < x) by (apply Qlt_le_trans with (pow2 e); [apply pow2_pos | exact H1]).
  destruct (ilog2_spec x Hx) as [H3 H4].
  destruct (Z.lt_trichotomy (ilog2 x) e) as [L | [L | L]]; [exfalso | exact L | exfalso].
  - assert (pow2 (ilog2 x + 1) <= pow2 e) by (apply pow2_le; lia). lra.
  - assert (pow2 (e + 1) <= pow2 (ilog2 x)) by (apply pow2_le; lia). lra.
Qed.

Lemma ilog2_mono x y : 0 < x -> x <= y -> (ilog2 x <= ilog2 y)%Z.
Proof.
  intros Hx Hxy.
  assert (Hy : 0 < y) by lra.
  destruct (ilog2_spec x Hx) as [H1 H2]. destruct (ilog2_spec y Hy) as [H3 H4].
  destruct (Z.le_gt_cases (ilog2 x) (ilog2 y)) as [L | L]; [exact L | exfalso].
  assert (pow2 (ilog2 y + 1) <= pow2 (ilog2 x)) by (apply pow2_le; lia). lra.
Qed.

(** ** Rounding to the nearest integer *)

Lemma rne_cases x :
  inject_Z (Qfloor x) <= x /\ x < inject_Z (Qfloor x) + 1 /\
  ((x - inject_Z (Qfloor x) < 1 # 2 /\ rne x = Qfloor x) \/
   (1 # 2 < x - inject_Z (Qfloor x) /\ rne x = (Qfloor x + 1)%Z) \/
   (x - inject_Z (Qfloor x) == 1 # 2 /\ (rne x = Qfloor x \/ rne x = (Qfloor x + 1)%Z))).
Proof.
  set (f := Qfloor x). pose proof (Qfloor_le x) as H1. pose proof (Qlt_floor x) as H2.
  fold f in H1, H2. rewrite inject_Z_plus in H2. change (inject_Z 1) with 1 in H2.
  split; [exact H1 | split; [exact H2|]].
  unfold rne. fold f.
  destruct (x - inject_Z f ?= 1 # 2) eqn:E.
  - right; right. split; [apply (proj2 (Qeq_alt _ _)); exact E|]. destruct (Z.even f); auto.
  - left. split; [apply (proj2 (Qlt_alt _ _)); exact E | reflexivity].
  - right; left. split; [apply (proj2 (Qgt_alt _ _)); exact E | reflexivity].
Qed.

Lemma rne_bounds x : x - (1 # 2) <= inject_Z (rne x) /\ inject_Z (rne x) <= x + (1 # 2).
Proof.
  destruct (rne_cases x) as (H1 & H2 & [[H3 H4] | [[H3 H4] | [H3 [H4 | H4]]]]);
    rewrite H4; try rewrite inject_Z_plus; change (inject_Z 1) with 1; lra.
Qed.

Lemma rne_Z n : rne (inject_Z n) = n.
Proof.
  unfold rne. rewrite Qfloor_Z.
  assert (E : (inject_Z n - inject_Z n ?= 1 # 2) = Lt) by (apply (proj1 (Qlt_alt _ _)); lra).
  rewrite E. reflexivity.
Qed.

Lemma rne_mono x y : x <= y -> (rne x <= rne y)%Z.
Proof.
  intros Hxy. pose proof (Qfloor_resp_le x y Hxy) as Hf.
  destruct (rne_cases x) as (X1 & X2 & X3). destruct (rne_cases y) as (Y1 & Y2 & Y3).
  destruct (Z.eq_dec (Qfloor x) (Qfloor y)) as [E | NE].
  - rewrite E in *.
    unfold rne at 1 2. rewrite E.
    destruct (x - inject_Z (Qfloor y) ?= 1 # 2) eqn:Ex;
      destruct (y - inject_Z (Qfloor y) ?= 1 # 2) eqn:Ey;
      try (destruct (Z.even (Qfloor y))); try lia;
      try apply (proj2 (Qeq_alt _ _)) in Ex; try apply (proj2 (Qlt_alt _ _)) in Ex;
      try apply (proj2 (Qgt_alt _ _)) in Ex;
      try apply (proj2 (Qeq_alt _ _)) in Ey; try apply (proj2 (Qlt_alt _ _)) in Ey;
      try apply (proj2 (Qgt_alt _ _)) in Ey;
      exfalso; lra.
  - assert (Hlt : (Qfloor x + 1 <= Qfloor y)%Z) by lia.
    assert (A : (rne x <= Qfloor x + 1)%Z)
      by (destruct X3 as [[_ R] | [[_ R] | [_ [R | R]]]]; rewrite R; lia).
    assert (B : (Qfloor y <= rne y)%Z)
      by (destruct Y3 as [[_ R] | [[_ R] | [_ [R | R]]]]; rewrite R; lia).
    lia.
Qed.

(** ** Rounding to 53 bits *)

Lemma scaled_bounds x : 0 < x ->
  pow2 52 <= x / pow2 (ilog2 x - 52) /\ x / pow2 (ilog2 x - 52) < pow2 53.
Proof.
  intros Hx. destruct (ilog2_spec x Hx) as [H1 H2].
  pose proof (pow2_pos (ilog2 x - 52)) as Hp.
  split.
  - apply Qle_shift_div_l; [exact Hp|]. rewrite <- pow2_add.
    replace (52 + (ilog2 x - 52))%Z with (ilog2 x) by lia. exact H1.
  - apply Qlt_shift_div_r; [exact Hp|]. rewrite <- pow2_add.
    replace (53 + (ilog2 x - 52))%Z with (ilog2 x + 1)%Z by lia. exact H2.
Qed.

Lemma round_pos_mono x y : 0 < x -> x <= y -> round_pos x <= round_pos y.
Proof.
  intros Hx Hxy. assert (Hy : 0 < y) by lra.
  pose proof (ilog2_mono x y Hx Hxy) as He.
  destruct (scaled_bounds x Hx) as [X1 X2]. destruct (scaled_bounds y Hy) as [Y1 Y2].
  unfold round_pos.
  set (ex := (ilog2 x - 52)%Z) in *. set (ey := (ilog2 y - 52)%Z) in *.
  pose proof (pow2_pos ex) as Px. pose proof (pow2_pos ey) as Py.
  destruct (Z.eq_dec ex ey) as [E | NE].
  - rewrite <- E. apply Qmult_le_compat_r; [|lra].
    rewrite <- Zle_Qle. apply rne_mono.
    apply Qmult_le_compat_r; [exact Hxy|]. apply Qlt_le_weak, Qinv_lt_0_compat, Px.
  - assert (L : (ex + 1 <= ey)%Z) by lia.
    assert (A : inject_Z (rne (x / pow2 ex)) <= pow2 53).
    { change (pow2 53) with (inject_Z (2 ^ 53)). rewrite <- (rne_Z (2 ^ 53)) at 1.
      rewrite <- Zle_Qle. apply rne_mono. change (inject_Z (2 ^ 53)) with (pow2 53). lra. }
    assert (B : pow2 52 <= inject_Z (rne (y / pow2 ey))).
    { change (pow2 52) with (inject_Z (2 ^ 52)). rewrite <- (rne_Z (2 ^ 52)) at 1.
      rewrite <- Zle_Qle. apply rne_mono. change (inject_Z (2 ^ 52)) with (pow2 52). lra. }
    apply Qle_trans with (pow2 53 * pow2 ex).
    + apply Qmult_le_compat_r; [exact A | lra].
    + apply Qle_trans with (pow2 52 * pow2 ey).
      * rewrite <- !pow2_add. apply pow2_le. lia.
      * apply Qmult_le_compat_r; [exact B | lra].
Qed.

Lemma round_pos_pos x : 0 < x -> 0 < round_pos x.
Proof.
  intros Hx. destruct (scaled_bounds x Hx) as [X1 _].
  unfold round_pos. apply Qmult_lt_0_compat; [|apply pow2_pos].
  apply Qlt_le_trans with (pow2 52); [apply pow2_pos|].
  change (pow2 52) with (inject_Z (2 ^ 52)). rewrite <- (rne_Z (2 ^ 52)) at 1.
  rewrite <- Zle_Qle. apply rne_mono. change (inject_Z (2 ^ 52)) with (pow2 52). exact X1.
Qed.

(** The three cases of [round], by the sign of the argument. *)
Lemma round_cases x :
  (x == 0 /\ round x = 0) \/
  (0 < x /\ round x == round_pos x) \/
  (x < 0 /\ round x == - round_pos (- x)).
Proof.
  unfold round. destruct x as [[|p|p] d]; cbn [Qnum].
  - left. split; reflexivity.
  - right; left. split; [reflexivity | apply Qred_correct].
  - right; right. split; [reflexivity | apply Qred_correct].
Qed.

Lemma round_nonneg x : 0 <= x -> 0 <= round x.
Proof.
  intros H. destruct (round_cases x) as [[_ R] | [[P R] | [P R]]].
  - rewrite R. lra.
  - rewrite R. apply Qlt_le_weak, round_pos_pos, P.
  - lra.
Qed.

Lemma round_nonpos x : x <= 0 -> round x <= 0.
Proof.
  intros H. destruct (round_cases x) as [[_ R] | [[P R] | [P R]]].
  - rewrite R. lra.
  - lra.
  - rewrite R. assert (0 < round_pos (- x)) by (apply round_pos_pos; lra). lra.
Qed.

(** Rounding is monotone. *)
Lemma round_mono x y : x <= y -> round x <= round y.
Proof.
  intros Hxy.
  destruct (round_cases x) as [[Zx Rx] | [[Px Rx] | [Nx Rx]]];
  destruct (round_cases y) as [[Zy Ry] | [[Py Ry] | [Ny Ry]]].
  - rewrite Rx, Ry. lra.
  - rewrite Rx. apply round_nonneg. lra.
  - lra.
  - lra.
  - rewrite Rx, Ry. apply round_pos_mono; assumption.
  - lra.
  - rewrite Ry. apply round_nonpos. lra.
  - apply Qle_trans with 0; [apply round_nonpos | apply round_nonneg]; lra.
  - rewrite Rx, Ry.
    assert (round_pos (- y) <= round_pos (- x)) by (apply round_pos_mono; lra). lra.
Qed.

(** Rounding is odd. *)
Lemma round_opp x : round (- x) = (- round x)%Q.
Proof.
  unfold round. destruct x as [[|p|p] d]; cbn [Qnum Qopp Z.opp]; try reflexivity.
  - rewrite Qred_opp. reflexivity.
  - rewrite Qred_opp. generalize (Qred (round_pos (- (Z.neg p # d)))).
    intros [a b]. unfold Qopp. cbn [Qnum Qden]. rewrite Z.opp_involutive. reflexivity.
Qed.

Lemma rne_comp x y : x == y -> rne x = rne y.
Proof.
  intros H. unfold rne. rewrite (Qfloor_comp x y H).
  assert (E : (x - inject_Z (Qfloor y) ?= 1 # 2) = (y - inject_Z (Qfloor y) ?= 1 # 2)).
  { apply Qcompare_comp; [|reflexivity]. apply Qplus_comp; [exact H | reflexivity]. }
  rewrite E. reflexivity.
Qed.

Lemma ilog2_comp x y : 0 < x -> x == y -> ilog2 x = ilog2 y.
Proof.
  intros Hx H. destruct (ilog2_spec x Hx) as [H1 H2].
  symmetry. apply ilog2_unique.
  - apply Qle_trans with x; [exact H1 | apply Qle_lteq; right; exact H].
  - apply Qle_lt_trans with x; [apply Qle_lteq; right; symmetry; exact H | exact H2].
Qed.

Lemma round_pos_comp x y : 0 < x -> x == y -> round_pos x == round_pos y.
Proof.
  intros Hx H. unfold round_pos. rewrite <- (ilog2_comp x y Hx H).
  rewrite (rne_comp (x / pow2 (ilog2 x - 52)) (y / pow2 (ilog2 x - 52))); [reflexivity|].
  apply Qmult_comp; [exact H | reflexivity].
Qed.

(** [round] respects equality of rationals, and its results are in lowest
    terms. *)
Lemma round_comp x y : x == y -> round x = round y.
Proof.
  intros H.
  destruct (round_cases x) as [[Zx Rx] | [[Px Rx] | [Nx Rx]]];
  destruct (round_cases y) as [[Zy Ry] | [[Py Ry] | [Ny Ry]]]; try (exfalso; lra).
  - congruence.
  - unfold round in *. destruct x as [[|p|p] d]; try discriminate Px.
    destruct y as [[|p'|p'] d']; try discriminate Py. cbn [Qnum].
    apply Qred_complete, round_pos_comp; assumption.
  - unfold round in *. destruct x as [[|p|p] d]; try discriminate Nx.
    destruct y as [[|p'|p'] d']; try discriminate Ny. cbn [Qnum].
    apply Qred_complete. apply Qopp_comp. apply round_pos_comp; [|rewrite H; reflexivity].
    reflexivity.
Qed.

Lemma ilog2_Z z : (0 < z)%Z -> ilog2 (inject_Z z) = Z.log2 z.
Proof.
  intros Hz. destruct (Z.log2_spec z Hz) as [H1 H2]. pose proof (Z.log2_nonneg z).
  apply ilog2_unique.
  - rewrite pow2_Z by lia. rewrite <- Zle_Qle. exact H1.
  - rewrite pow2_Z by lia. rewrite <- Zlt_Qlt. replace (Z.log2 z + 1)%Z with (Z.succ (Z.log2 z)) by lia.
    exact H2.
Qed.

Lemma pow2_neg e : pow2 e * pow2 (- e) == 1.
Proof. rewrite <- pow2_add. replace (e + - e)%Z with 0%Z by lia. reflexivity. Qed.

Lemma div_pow2 x e : x / pow2 e == x * pow2 (- e).
Proof.
  unfold Qdiv. apply Qmult_comp; [reflexivity|]. symmetry. apply Qpower_opp.
Qed.

Lemma round_pos_Z z : (0 < z < 2 ^ 53)%Z -> round_pos (inject_Z z) == inject_Z z.
Proof.
  intros [Hz Hb]. unfold round_pos. rewrite ilog2_Z by exact Hz.
  assert (Hk : (Z.log2 z < 53)%Z) by (apply Z.log2_lt_pow2; lia).
  pose proof (Z.log2_nonneg z) as Hk0.
  set (e := (Z.log2 z - 52)%Z).
  assert (E : inject_Z z / pow2 e == inject_Z (z * 2 ^ (- e))).
  { rewrite div_pow2, inject_Z_mult. rewrite (pow2_Z (- e)) by (unfold e; lia). reflexivity. }
  rewrite (rne_comp _ _ E), rne_Z, inject_Z_mult.
  rewrite <- (pow2_Z (- e)) by (unfold e; lia).
  rewrite <- Qmult_assoc, (Qmult_comm (pow2 (- e))), pow2_neg. ring.
Qed.

(** Integers below [2^53] in magnitude are floats. *)
Lemma round_Z z : (- 2 ^ 53 < z < 2 ^ 53)%Z -> round (inject_Z z) = inject_Z z.
Proof.
  intros Hz.
  assert (P : forall p, (0 < p < 2 ^ 53)%Z -> round (inject_Z p) = inject_Z p).
  { intros p Hp. unfold round, inject_Z at 1. cbn [Qnum].
    destruct p as [|p|p]; try lia.
    rewrite (Qred_complete _ _ (round_pos_Z (Zpos p) Hp)).
    apply Qcanon.Qred_identity. apply Z.gcd_1_r. }
  destruct (Z.lt_trichotomy z 0) as [N | [E | G]].
  - replace z with (- - z)%Z by lia. rewrite inject_Z_opp, round_opp, P by lia. reflexivity.
  - subst z. reflexivity.
  - apply P. lia.
Qed.

(** The rounding error is at most half a unit in the last place. *)
Lemma round_upper x : 0 < x -> round x <= x + pow2 (ilog2 x - 53).
Proof.
  intros Hx. destruct (round_cases x) as [[Zx Rx] | [[Px Rx] | [Nx Rx]]]; try (exfalso; lra).
  rewrite Rx. unfold round_pos.
  set (e := (ilog2 x - 52)%Z). pose proof (pow2_pos e) as Pe.
  destruct (rne_bounds (x / pow2 e)) as [_ B].
  apply Qle_trans with ((x / pow2 e + (1 # 2)) * pow2 e).
  - apply Qmult_le_compat_r; [exact B | lra].
  - replace (ilog2 x - 53)%Z with (e + -1)%Z by (unfold e; lia).
    assert (E : x / pow2 e * pow2 e == x) by (field; lra).
    assert (E2 : pow2 (e + -1) == pow2 e * (1 # 2)) by (rewrite pow2_add; reflexivity).
    rewrite E2. lra.
Qed.

Lemma to_int64_floor (x : Q) h :
  (0 <= h)%Z -> inject_Z h <= x -> x < inject_Z (h + 1) -> to_int64 x = h.
Proof.
  intros Hh H1 H2. unfold to_int64.
  assert (F : Qfloor x = h).
  { pose proof (Qfloor_le x). pose proof (Qlt_floor x).
    assert (A : inject_Z (Qfloor x) < inject_Z (h + 1)) by lra.
    assert (B : inject_Z h < inject_Z (Qfloor x + 1)) by lra.
    rewrite <- Zlt_Qlt in A, B. lia. }
  unfold Qfloor in F. destruct x as [n d]. cbn [Qnum Qden].
  assert (0 <= n)%Z.
  { assert (0 <= n # d) by (apply Qle_trans with (inject_Z h); [rewrite <- (Zle_Qle 0); exact Hh | exact H1]).
    unfold Qle in H. cbn in H. lia. }
  rewrite Z.quot_div_nonneg by lia. exact F.
Qed.

Lemma to_int64_opp x : to_int64 (- x) = (- to_int64 x)%Z.
Proof. unfold to_int64. destruct x as [n d]. cbn [Qopp Qnum Qden]. apply Z.quot_opp_l. lia. Qed.

Lemma of_int_opp z : of_int (- z) = (- of_int z)%Q.
Proof. unfold of_int. rewrite inject_Z_opp. apply round_opp. Qed.

Lemma div_opp x y : div (- x) y = (- div x y)%Q.
Proof.
  unfold div. rewrite <- round_opp. apply round_comp. unfold Qdiv. ring.
Qed.

Lemma add_opp x y : add (- x) (- y) = (- add x y)%Q.
Proof. unfold add. rewrite <- round_opp. apply round_comp. ring. Qed.

Lemma in_units_opp d u : u <> 0%Z -> in_units (- d) u = (- in_units d u)%Q.
Proof.
  intros Hu. unfold in_units, Int64.div, Int64.rem.
  rewrite Z.quot_opp_l, Z.rem_opp_l by exact Hu.
  rewrite !of_int_opp, div_opp, add_opp. reflexivity.
Qed.

Section Units.

Variables (d u : Z).
Hypothesis Hu : (1 < u < 2 ^ 53)%Z.
Hypothesis Hd : (0 <= d)%Z.
Hypothesis Hq : (d / u + 1 < 2 ^ 53)%Z.

Let h := (d / u)%Z.
Let n := (d mod u)%Z.

Lemma units_split : Int64.div d u = h /\ Int64.rem d u = n /\ (0 <= h)%Z /\ (0 <= n < u)%Z.
Proof.
  unfold Int64.div, Int64.rem, h, n.
  rewrite Z.quot_div_nonneg, Z.rem_mod_nonneg by lia.
  pose proof (Z.mod_pos_bound d u). pose proof (Z.div_pos d u). lia.
Qed.

Lemma fraction_bounds :
  0 <= div (of_int n) (inject_Z u) /\
  div (of_int n) (inject_Z u) <= div (inject_Z (u - 1)) (inject_Z u) /\
  div (of_int n) (inject_Z u) <= 1.
Proof.
  destruct units_split as (_ & _ & _ & Hn).
  assert (U0 : 0 < inject_Z u) by (rewrite <- (Zlt_Qlt 0); lia).
  unfold of_int. rewrite round_Z by lia. unfold div.
  assert (N0 : 0 <= inject_Z n) by (rewrite <- (Zle_Qle 0); lia).
  assert (N1 : inject_Z n <= inject_Z (u - 1)) by (rewrite <- Zle_Qle; lia).
  assert (N2 : inject_Z (u - 1) <= inject_Z u) by (rewrite <- Zle_Qle; lia).
  split; [|split].
  - apply round_nonneg. apply Qle_shift_div_l; [exact U0 | lra].
  - apply round_mono. apply Qmult_le_compat_r; [exact N1|].
    apply Qlt_le_weak, Qinv_lt_0_compat, U0.
  - change 1 with (inject_Z 1). rewrite <- (round_Z 1) by lia.
    apply round_mono. apply Qle_shift_div_r; [exact U0|]. change (inject_Z 1) with 1. lra.
Qed.

(** The whole part that [int64] extracts is the number of whole units, or
    one more. *)
Lemma in_units_bounds :
  (h <= to_int64 (in_units d u) <= h + 1)%Z.
Proof.
  destruct units_split as (E1 & E2 & Hh & Hn).
  destruct fraction_bounds as (Q0 & _ & Q1).
  unfold in_units. rewrite E1, E2.
  set (q := div (of_int n) (inject_Z u)) in *.
  assert (Eh : of_int h = inject_Z h) by (apply round_Z; unfold h in *; lia).
  rewrite Eh.
  assert (L : inject_Z h <= add (inject_Z h) q).
  { rewrite <- (round_Z h) at 1 by (unfold h in *; lia). apply round_mono. lra. }
  assert (R : add (inject_Z h) q <= inject_Z (h + 1)).
  { rewrite <- (round_Z (h + 1)) by (unfold h in *; lia). apply round_mono.
    rewrite inject_Z_plus. change (inject_Z 1) with 1. lra. }
  destruct (Qlt_le_dec (add (inject_Z h) q) (inject_Z (h + 1))) as [Lt | Ge].
  - rewrite (to_int64_floor _ h Hh L Lt). lia.
  - assert (E : add (inject_Z h) q == inject_Z (h + 1)) by lra.
    rewrite (to_int64_floor (add (inject_Z h) q) (h + 1)); [lia | lia | lra |].
    rewrite E. rewrite <- Zlt_Qlt. lia.
Qed.

(** Below [2^(K+1)] units the whole part is exact, provided the largest
    fraction stays more than half a unit in the last place below one. *)
Lemma in_units_exact K :
  (K <= 51)%Z -> (h < 2 ^ (K + 1))%Z ->
  div (inject_Z (u - 1)) (inject_Z u) + pow2 (K - 53) < 1 ->
  to_int64 (in_units d u) = h.
Proof.
  intros HK HhK Hmax.
  destruct units_split as (E1 & E2 & Hh & Hn).
  destruct fraction_bounds as (Q0 & Qm & _).
  unfold in_units. rewrite E1, E2.
  set (q := div (of_int n) (inject_Z u)) in *.
  assert (Eh : of_int h = inject_Z h) by (apply round_Z; unfold h in *; lia).
  rewrite Eh.
  assert (L : inject_Z h <= add (inject_Z h) q).
  { rewrite <- (round_Z h) at 1 by (unfold h in *; lia). apply round_mono. lra. }
  apply to_int64_floor; [exact Hh | exact L |].
  assert (H0 : 0 <= inject_Z h) by (rewrite <- (Zle_Qle 0); exact Hh).
  unfold add.
  destruct (Qlt_le_dec 0 (inject_Z h + q)) as [Pos | Npos].
  - apply Qle_lt_trans with (inject_Z h + q + pow2 (ilog2 (inject_Z h + q) - 53));
      [apply round_upper; exact Pos|].
    assert (B : inject_Z h + q < pow2 (K + 1)).
    { pose proof (pow2_pos (K - 53)).
      apply Qlt_le_trans with (inject_Z (h + 1)).
      - rewrite inject_Z_plus. change (inject_Z 1) with 1. lra.
      - assert (0 <= K + 1)%Z by (destruct (Z.le_gt_cases 0 (K + 1)); [assumption|];
          rewrite Z.pow_neg_r in HhK by lia; lia).
        rewrite pow2_Z by lia. rewrite <- Zle_Qle. lia. }
    assert (I : (ilog2 (inject_Z h + q) <= K)%Z).
    { destruct (ilog2_spec _ Pos) as [S1 _].
      destruct (Z.le_gt_cases (ilog2 (inject_Z h + q)) K) as [Le | Gt]; [exact Le | exfalso].
      assert (pow2 (K + 1) <= pow2 (ilog2 (inject_Z h + q))) by (apply pow2_le; lia). lra. }
    assert (P : pow2 (ilog2 (inject_Z h + q) - 53) <= pow2 (K - 53)) by (apply pow2_le; lia).
    rewrite inject_Z_plus. change (inject_Z 1) with 1. lra.
  - assert (E : inject_Z h + q == 0) by lra.
    rewrite (round_comp _ 0 E). change (round 0) with 0.
    rewrite inject_Z_plus. change (inject_Z 1) with 1. lra.
Qed.

End Units.

End Float64Facts.

(** On the sample durations, hours, minutes and seconds as [Float64] computes
    them are the floats that the Standard Library's binary64 gives. *)
Lemma Float64_agrees_with_binary64 : forallb Binary64.agree Binary64.samples = true.
Proof. vm_compute. reflexivity. Qed.

Import Float64 Float64Facts.

(** ** Durations as floats *)

Lemma Hours_in_units d : Hours d = in_units d Hour.
Proof. reflexivity. Qed.

Lemma Minutes_in_units d : Minutes d = in_units d Minute.
Proof. reflexivity. Qed.

Lemma Seconds_in_units d : Seconds d = in_units d Second.
Proof. reflexivity. Qed.

(** Below 4096 hours the three conversions yield the whole hours, minutes
    and seconds. *)
Lemma whole_parts_exact d :
  0 <= d < 4096 * Hour ->
  to_int64 (Hours d) = d / Hour /\
  to_int64 (Minutes d) = d / Minute /\
  to_int64 (Seconds d) = d / Second.
Proof.
  intros Hd. unfold Hour, Minute, Second in *.
  assert (H1 : d / 3600000000000 < 2 ^ 12) by (apply Z.div_lt_upper_bound; lia).
  assert (H2 : d / 60000000000 < 2 ^ 18) by (apply Z.div_lt_upper_bound; lia).
  assert (H3 : d / 1000000000 < 2 ^ 24) by (apply Z.div_lt_upper_bound; lia).
  split; [|split].
  - rewrite Hours_in_units. apply (in_units_exact d Hour) with (K := 11);
      unfold Hour; try lia; try exact H1. vm_compute. reflexivity.
  - rewrite Minutes_in_units. apply (in_units_exact d Minute) with (K := 17);
      unfold Minute; try lia; try exact H2. vm_compute. reflexivity.
  - rewrite Seconds_in_units. apply (in_units_exact d Second) with (K := 23);
      unfold Second; try lia; try exact H3. vm_compute. reflexivity.
Qed.

(** For every nonnegative duration each conversion yields the whole units or
    one more. *)
Lemma whole_parts_bounds d :
  0 <= d <= 2 ^ 63 ->
  d / Hour <= to_int64 (Hours d) <= d / Hour + 1 /\
  d / Minute <= to_int64 (Minutes d) <= d / Minute + 1 /\
  d / Second <= to_int64 (Seconds d) <= d / Second + 1.
Proof.
  intros Hd. unfold Hour, Minute, Second in *.
  assert (H1 : d / 3600000000000 < 2 ^ 52) by (apply Z.div_lt_upper_bound; lia).
  assert (H2 : d / 60000000000 < 2 ^ 52) by (apply Z.div_lt_upper_bound; lia).
  assert (H3 : d / 1000000000 < 2 ^ 52) by (apply Z.div_lt_upper_bound; lia).
  split; [|split].
  - rewrite Hours_in_units. apply in_units_bounds; unfold Hour; lia.
  - rewrite Minutes_in_units. apply in_units_bounds; unfold Minute; lia.
  - rewrite Seconds_in_units. apply in_units_bounds; unfold Second; lia.
Qed.

(** The conversions are odd functions of the duration. *)
Lemma whole_parts_opp d :
  to_int64 (Hours (- d)) = - to_int64 (Hours d) /\
  to_int64 (Minutes (- d)) = - to_int64 (Minutes d) /\
  to_int64 (Seconds (- d)) = - to_int64 (Seconds d).
Proof.
  rewrite !Hours_in_units, !Minutes_in_units, !Seconds_in_units.
  rewrite !in_units_opp by discriminate. rewrite !to_int64_opp. auto.
Qed.

(** ** Decimal strings *)

Local Open Scope string_scope.

Lemma string_of_uint_digits d : all_digits (NilEmpty.string_of_uint d) = true.
Proof. induction d; simpl; auto. Qed.

Lemma itoa_nonneg z :
  (0 <= z)%Z ->
  exists c rest, Fmt.itoa z = String c rest /\ is_digit c = true /\ all_digits rest = true.
Proof.
  intros Hz. unfold Fmt.itoa. destruct z as [|p|p]; [| |lia].
  - exists "0"%char, EmptyString. repeat split.
  - cbn [Z.to_int NilZero.string_of_int].
    pose proof (Unsigned.to_uint_nonnil p) as Hn.
    pose proof (string_of_uint_digits (Pos.to_uint p)) as Hd.
    unfold NilZero.string_of_uint.
    destruct (Pos.to_uint p) eqn:E; try congruence;
      cbn [NilEmpty.string_of_uint] in *; eexists _, _; (split; [reflexivity|]);
      cbn [all_digits] in Hd; apply andb_prop in Hd; exact Hd.
Qed.

Lemma itoa_neg z : (z < 0)%Z -> exists rest, Fmt.itoa z = String "-" rest.
Proof.
  intros Hz. destruct z as [|p|p]; try lia.
  eexists. reflexivity.
Qed.

Lemma has_minus_app a b : has_minus (a ++ b) = has_minus a || has_minus b.
Proof. induction a; simpl; [reflexivity | rewrite IHa, orb_assoc; reflexivity]. Qed.

Lemma digit_not_minus c : is_digit c = true -> Ascii.eqb c "-" = false.
Proof.
  destruct c as [[|] [|] [|] [|] [|] [|] [|] [|]]; vm_compute; congruence.
Qed.

Lemma digit_not_colon c : is_digit c = true -> Ascii.eqb c ":" = false.
Proof.
  destruct c as [[|] [|] [|] [|] [|] [|] [|] [|]]; vm_compute; congruence.
Qed.

Lemma skip_digits_app s c t :
  all_digits s = true -> is_digit c = false ->
  skip_digits (s ++ String c t) = String c t.
Proof.
  intros Hs Hc. induction s as [|a s IH]; simpl in *.
  - rewrite Hc. reflexivity.
  - apply andb_prop in Hs. destruct Hs as [Ha Hs]. rewrite Ha. auto.
Qed.

(** A string of the shape H:MM:SS holds no minus sign. *)
Lemma HMMSS_no_minus s : is_HMMSS s = true -> has_minus s = false.
Proof.
  intros H.
  assert (T : is_MMSS (skip_digits s) = true).
  { destruct s; [discriminate|]. unfold is_HMMSS in H. apply andb_prop in H. apply H. }
  clear H. induction s as [|c s IH].
  - reflexivity.
  - cbn [skip_digits] in T. destruct (is_digit c) eqn:D.
    + cbn [has_minus]. rewrite (digit_not_minus c D). apply IH, T.
    + destruct s as [|m1 [|m2 [|k [|s1 [|s2 [|]]]]]]; try discriminate T.
      unfold is_MMSS in T.
      repeat (apply andb_prop in T; destruct T as [T ?]).
      apply Ascii.eqb_eq in T. subst c.
      match goal with H : Ascii.eqb k ":" = true |- _ => apply Ascii.eqb_eq in H; subst k end.
      cbn [has_minus].
      rewrite (digit_not_minus m1), (digit_not_minus m2), (digit_not_minus s1),
        (digit_not_minus s2) by assumption.
      reflexivity.
Qed.

Lemma forall_below (P : Z -> bool) (n : nat) :
  forallb (fun i => P (Z.of_nat i)) (seq 0 n) = true ->
  forall z, (0 <= z < Z.of_nat n)%Z -> P z = true.
Proof.
  intros H z Hz. rewrite forallb_forall in H.
  rewrite <- (Z2Nat.id z) by lia. apply H. apply in_seq. lia.
Qed.

Lemma fmt_02d_two_digits z : (0 <= z < 100)%Z -> Fmt.fmt_02d z = two_digits z.
Proof.
  intros Hz. apply String.eqb_eq.
  apply (forall_below (fun z => String.eqb (Fmt.fmt_02d z) (two_digits z)) 100); [|exact Hz].
  vm_compute. reflexivity.
Qed.

Lemma two_digits_digits z :
  (0 <= z < 100)%Z ->
  exists a b, two_digits z = String a (String b EmptyString) /\
              is_digit a = true /\ is_digit b = true.
Proof.
  intros Hz. exists (digit_char (z / 10)), (digit_char (z mod 10)).
  split; [reflexivity|].
  pose proof (forall_below (fun z => is_digit (digit_char (z / 10)) && is_digit (digit_char (z mod 10))) 100
                eq_refl z Hz) as H.
  apply andb_prop in H. exact H.
Qed.

Lemma fmt_02d_neg z : (z < 0)%Z -> exists rest, Fmt.fmt_02d z = String "-" rest.
Proof.
  intros Hz. unfold Fmt.fmt_02d. destruct (Z.ltb_spec z 0); [|lia].
  eexists. reflexivity.
Qed.

(** Nonnegative hours and two-digit minutes and seconds give the shape. *)
Lemma is_HMMSS_intro h m s :
  (0 <= h)%Z -> (0 <= m < 100)%Z -> (0 <= s < 100)%Z ->
  is_HMMSS (Fmt.itoa h ++ ":" ++ two_digits m ++ ":" ++ two_digits s) = true.
Proof.
  intros Hh Hm Hs.
  destruct (itoa_nonneg h Hh) as (c & rest & E & Dc & Dr).
  destruct (two_digits_digits m Hm) as (m1 & m2 & Em & Dm1 & Dm2).
  destruct (two_digits_digits s Hs) as (s1 & s2 & Es & Ds1 & Ds2).
  rewrite E, Em, Es. cbn [append is_HMMSS]. rewrite Dc. cbn [andb skip_digits]. rewrite Dc.
  rewrite (skip_digits_app rest ":" _ Dr eq_refl).
  cbn [is_MMSS]. rewrite Dm1, Dm2, Ds1, Ds2. reflexivity.
Qed.

(** ** [durationToString] *)

Lemma rem_60_nonneg z : (0 <= z)%Z -> Int64.rem z 60 = (z mod 60)%Z /\ (0 <= z mod 60 < 60)%Z.
Proof.
  intros Hz. unfold Int64.rem. rewrite Z.rem_mod_nonneg by lia.
  split; [reflexivity | apply Z.mod_pos_bound; lia].
Qed.

Lemma rem_60_opp z : (0 <= z)%Z -> Int64.rem (- z) 60 = (- (z mod 60))%Z.
Proof.
  intros Hz. unfold Int64.rem. rewrite Z.rem_opp_l by lia.
  rewrite Z.rem_mod_nonneg by lia. reflexivity.
Qed.

Lemma fmt_negative_has_minus h m s :
  (h < 0 \/ m < 0 \/ s < 0)%Z ->
  has_minus (Fmt.fmt_d h ++ ":" ++ Fmt.fmt_02d m ++ ":" ++ Fmt.fmt_02d s) = true.
Proof.
  intros H. rewrite !has_minus_app.
  destruct H as [H | [H | H]].
  - destruct (itoa_neg h H) as [r E]. unfold Fmt.fmt_d. rewrite E. reflexivity.
  - destruct (fmt_02d_neg m H) as [r E]. rewrite E. cbn [has_minus Ascii.eqb].
    rewrite !orb_true_r. reflexivity.
  - destruct (fmt_02d_neg s H) as [r E]. rewrite E. cbn [has_minus].
    rewrite !orb_true_r. reflexivity.
Qed.

Lemma durationToString_nonneg d :
  (0 <= d <= maxDuration)%Z ->
  exists h m s,
    durationToString d = Fmt.itoa h ++ ":" ++ two_digits m ++ ":" ++ two_digits s /\
    (0 <= h)%Z /\ (0 <= m <= 59)%Z /\ (0 <= s <= 59)%Z.
Proof.
  intros Hd.
  assert (Hd' : (0 <= d <= 2 ^ 63)%Z) by (unfold maxDuration, Int64.max_int in Hd; lia).
  destruct (whole_parts_bounds d Hd') as (Bh & Bm & Bs).
  assert (0 <= d / Hour)%Z by (apply Z.div_pos; unfold Hour; lia).
  assert (0 <= d / Minute)%Z by (apply Z.div_pos; unfold Minute; lia).
  assert (0 <= d / Second)%Z by (apply Z.div_pos; unfold Second; lia).
  destruct (rem_60_nonneg (to_int64 (Minutes d))) as [Em Rm]; [lia|].
  destruct (rem_60_nonneg (to_int64 (Seconds d))) as [Es Rs]; [lia|].
  exists (to_int64 (Hours d)), (to_int64 (Minutes d) mod 60)%Z, (to_int64 (Seconds d) mod 60)%Z.
  split; [|lia].
  unfold durationToString. rewrite Em, Es.
  rewrite !fmt_02d_two_digits by lia. reflexivity.
Qed.

Lemma durationToString_exact d :
  (0 <= d < 4096 * Hour)%Z -> durationToString d = HMMSS (d / Second).
Proof.
  intros Hd. destruct (whole_parts_exact d Hd) as (Eh & Em & Es).
  assert (0 <= d / Minute)%Z by (apply Z.div_pos; unfold Minute; lia).
  assert (0 <= d / Second)%Z by (apply Z.div_pos; unfold Second; lia).
  destruct (rem_60_nonneg (d / Minute)%Z) as [Rm Bm]; [lia|].
  destruct (rem_60_nonneg (d / Second)%Z) as [Rs Bs]; [lia|].
  unfold durationToString, HMMSS. rewrite Eh, Em, Es, Rm, Rs.
  rewrite !fmt_02d_two_digits by lia.
  unfold Hour, Minute, Second.
  rewrite !Z.div_div by lia.
  reflexivity.
Qed.

Lemma durationToString_negative d :
  (minDuration <= d <= - Second)%Z ->
  (to_int64 (Hours d) < 0 \/ Int64.rem (to_int64 (Minutes d)) 60 < 0 \/
   Int64.rem (to_int64 (Seconds d)) 60 < 0)%Z.
Proof.
  intros Hd. unfold minDuration, Int64.min_int in Hd.
  set (e := (- d)%Z).
  assert (He : (Second <= e <= 2 ^ 63)%Z) by (unfold e, Second in *; lia).
  assert (Ed : d = (- e)%Z) by (unfold e; lia).
  destruct (whole_parts_opp e) as (Oh & Om & Os).
  rewrite Ed, Oh, Om, Os.
  assert (He' : (0 <= e <= 2 ^ 63)%Z) by (unfold Second in He; lia).
  destruct (whole_parts_bounds e He') as (Bh & Bm & Bs).
  assert (0 <= e / Hour)%Z by (apply Z.div_pos; unfold Hour; lia).
  assert (0 <= e / Minute)%Z by (apply Z.div_pos; unfold Minute; lia).
  assert (0 <= e / Second)%Z by (apply Z.div_pos; unfold Second; lia).
  rewrite !rem_60_opp by lia.
  destruct (Z.le_gt_cases Hour e) as [Big | Small].
  - left. assert (1 <= e / Hour)%Z by (apply Z.div_le_lower_bound; unfold Hour in *; lia). lia.
  - right.
    assert (Hx : (0 <= e < 4096 * Hour)%Z) by (unfold Hour in *; lia).
    destruct (whole_parts_exact e Hx) as (_ & Em & Es). rewrite Em, Es.
    unfold Hour, Minute, Second in *.
    Z.div_mod_to_equations. lia.
Qed.

(** C10, as amended.  A duration from zero up to the largest one is rendered
    in the shape H:MM:SS, the minutes and the seconds between 00 and 59 on
    two digits; below 4096 hours the three fields are the whole hours (not
    wrapped at 24), the minutes and the seconds of the duration.  A negative
    duration shorter than a second is rendered as 0:00:00; one of a second
    or more has a negative field, holds a minus sign and does not have the
    shape. *)
Theorem durationToString_shape (d : Duration) :
  (minDuration <= d <= maxDuration)%Z ->
  ((0 <= d)%Z ->
     is_HMMSS (durationToString d) = true /\
     exists h m s,
       durationToString d = Fmt.itoa h ++ ":" ++ two_digits m ++ ":" ++ two_digits s /\
       (0 <= h)%Z /\ (0 <= m <= 59)%Z /\ (0 <= s <= 59)%Z) /\
  ((0 <= d < 4096 * Hour)%Z -> durationToString d = HMMSS (d / Second)) /\
  ((- Second < d < 0)%Z -> durationToString d = "0:00:00") /\
  ((d <= - Second)%Z ->
     (to_int64 (Hours d) < 0 \/ Int64.rem (to_int64 (Minutes d)) 60 < 0 \/
      Int64.rem (to_int64 (Seconds d)) 60 < 0)%Z /\
     has_minus (durationToString d) = true /\
     is_HMMSS (durationToString d) = false).
Proof.
  intros [Hmin Hmax]. split; [|split; [|split]].
  - intros H0.
    destruct (durationToString_nonneg d (conj H0 Hmax)) as (h & m & s & E & Hh & Hm & Hs).
    split.
    + rewrite E. apply is_HMMSS_intro; lia.
    + exists h, m, s. auto.
  - intros Hd. apply durationToString_exact, Hd.
  - intros Hd.
    assert (He : (0 <= - d < 4096 * Hour)%Z) by (unfold Second, Hour in *; lia).
    destruct (whole_parts_exact (- d) He) as (Eh & Em & Es).
    destruct (whole_parts_opp (- d)) as (Oh & Om & Os).
    rewrite Z.opp_involutive in Oh, Om, Os.
    unfold durationToString. rewrite Oh, Om, Os, Eh, Em, Es.
    assert (Z1 : (- d / Hour = 0)%Z) by (apply Z.div_small; unfold Second, Hour in *; lia).
    assert (Z2 : (- d / Minute = 0)%Z) by (apply Z.div_small; unfold Second, Minute in *; lia).
    assert (Z3 : (- d / Second = 0)%Z) by (apply Z.div_small; unfold Second in *; lia).
    rewrite Z1, Z2, Z3. reflexivity.
  - intros Hd.
    pose proof (durationToString_negative d (conj Hmin Hd)) as N.
    pose proof (fmt_negative_has_minus _ _ _ N) as M.
    fold (durationToString d) in M.
    split; [exact N | split; [exact M|]].
    destruct (is_HMMSS (durationToString d)) eqn:E; [|reflexivity].
    apply HMMSS_no_minus in E. congruence.
Qed.

(** The theorem at 45 minutes and at minus 61 seconds. *)
Lemma durationToString_shape_witness :
  durationToString (45 * Minute) = "0:45:00" /\
  is_HMMSS (durationToString (- (61 * Second))) = false.
Proof.
  split.
  - apply (durationToString_shape (45 * Minute)); vm_compute; split; congruence.
  - apply (durationToString_shape (- (61 * Second))); vm_compute; try split; congruence.
Defined.

(** C10 as stated fails: a negative duration of one nanosecond is
    rendered without any negative field, in the shape H:MM:SS. *)
Lemma durationToString_negative_nanosecond :
  durationToString (-1) = "0:00:00" /\
  has_minus (durationToString (-1)) = false /\
  is_HMMSS (durationToString (-1)) = true.
Proof. vm_compute. repeat split. Qed.

(** At 4096 hours and more the conversion to [float64] may round the
    hours up: one nanosecond before 4097 hours the hours field reads 4097. *)
Lemma durationToString_rounds_up :
  durationToString (4096 * Hour + 59 * Minute + 59 * Second + 999999999) = "4097:59:59".
Proof. vm_compute. reflexivity. Qed.

(** ** The clock *)

Lemma timed_map_const {A B : Type} (f : Time -> A -> B) l c now :
  (forall n, c n = now) -> timed_map f l c = map (f now) l.
Proof.
  revert c. induction l as [|a l IH]; intros c H; simpl; [reflexivity|].
  rewrite H. f_equal. apply IH. intros n. apply H.
Qed.

(** The element at index [i] is given the reading number [i]. *)
Lemma timed_map_nth {A B : Type} (f : Time -> A -> B) l c i a :
  nth_error l i = Some a -> nth_error (timed_map f l c) i = Some (f (c i) a).
Proof.
  revert c i. induction l as [|x l IH]; intros c [|i] H; cbn in H; try discriminate.
  - injection H as ->. reflexivity.
  - cbn [timed_map nth_error]. apply (IH (later 1 c) i H).
Qed.

Lemma Forall_timed_map {A B : Type} (P : B -> Prop) (f : Time -> A -> B) l c :
  (forall now a, P (f now a)) -> Forall P (timed_map f l c).
Proof.
  intros H. revert c. induction l as [|a l IH]; intros c; cbn [timed_map]; constructor; auto.
Qed.

Lemma timed_map_length {A B : Type} (f : Time -> A -> B) l c :
  length (timed_map f l c) = length l.
Proof. revert c. induction l as [|a l IH]; intros c; cbn; [|rewrite IH]; reflexivity. Qed.


Lemma sum_loop_spec l s c :
  sum_loop l s c = (fold_left Int64.add (timed_map elapsed l c) s, later (length l) c).
Proof.
  revert s c. induction l as [|t l IH]; intros s c.
  - reflexivity.
  - cbn [sum_loop timed_map fold_left length]. unfold bind, time_Now, Now.
    rewrite IH. reflexivity.
Qed.

Lemma sumTimeEntriesDuration_spec entries c :
  sumTimeEntriesDuration entries c =
  (int64_sum (timed_map elapsed (elements entries) c), later (length (elements entries)) c).
Proof. apply sum_loop_spec. Qed.

Section Table.

Variable time_Format : Time -> string -> string.
Variable stdout_is_char_device : bool.
Variable ui_HEX : string -> option (list Z).
Variable term_GetSize : option Z.

Let line_of options := fun now t =>
  table_line time_Format stdout_is_char_device ui_HEX options t now.

Lemma table_loop_spec options l tw c :
  table_loop time_Format stdout_is_char_device ui_HEX options l tw c =
  ({| Tablewriter.header := Tablewriter.header tw;
      Tablewriter.rowLine := Tablewriter.rowLine tw;
      Tablewriter.colWidth := Tablewriter.colWidth tw;
      Tablewriter.lines := (Tablewriter.lines tw ++ timed_map (line_of options) l c)%list |},
   later (length l) c).
Proof.
  revert tw c. induction l as [|t l IH]; intros tw c.
  - cbn. rewrite app_nil_r. destruct tw; reflexivity.
  - cbn [table_loop timed_map length]. unfold bind, time_Now, Now.
    change (table_line time_Format stdout_is_char_device ui_HEX options t (c O))
      with (line_of options (c O) t).
    destruct (line_of options (c O) t) as [line colors] eqn:E.
    rewrite IH. cbn. rewrite <- app_assoc. reflexivity.
Qed.

(** The lines of the table: one for each entry, with the reading taken for
    it, and the footer, whose sum takes its readings after those. *)
Lemma build_table_lines options entries c :
  let n := length (elements entries) in
  Tablewriter.lines
    (fst (build_table time_Format stdout_is_char_device ui_HEX term_GetSize
            options entries c)) =
  (timed_map (line_of options) (elements entries) c ++
   (if ShowTotalDuration options
    then [(total_line options
             (int64_sum (timed_map elapsed (elements entries) (later n c))), [])]
    else []))%list.
Proof.
  intros n. unfold build_table, bind. rewrite table_loop_spec.
  destruct (ShowTotalDuration options).
  - rewrite sumTimeEntriesDuration_spec. destruct term_GetSize; reflexivity.
  - destruct term_GetSize; cbn; rewrite app_nil_r; reflexivity.
Qed.

Lemma table_line_Dur options t now :
  nth 3 (fst (line_of options now t)) "" = durationToString (elapsed now t).
Proof.
  unfold line_of, table_line, elapsed, finish.
  destruct (Project_of t); destruct (ShowTasks options); [destruct (Task_of t) | | destruct (Task_of t) |];
    reflexivity.
Qed.

Lemma total_line_Dur options total :
  nth 3 (total_line options total) "" = durationToString total /\
  nth 0 (total_line options total) "" = "TOTAL".
Proof. unfold total_line, table_header. destruct (ShowTasks options); split; reflexivity. Qed.

End Table.

(** ** Sums without overflow *)

Lemma timed_map_map {A B C : Type} (f : Time -> A -> B) (g : B -> C) l c :
  timed_map (fun now a => g (f now a)) l c = map g (timed_map f l c).
Proof. revert c. induction l; intros; simpl; f_equal; auto. Qed.

Lemma Sub_exact t u : minDuration <= t - u <= maxDuration -> Sub t u = t - u.
Proof.
  intros H. unfold Sub.
  destruct (Z.ltb_spec (t - u) minDuration); [lia|].
  destruct (Z.ltb_spec maxDuration (t - u)); [lia|]. reflexivity.
Qed.

Lemma Int64_add_exact a b :
  Int64.min_int <= a + b <= Int64.max_int -> Int64.add a b = a + b.
Proof.
  unfold Int64.add, Int64.wrap, Int64.min_int, Int64.max_int. intros H.
  rewrite Z.mod_small by lia. lia.
Qed.

Lemma fold_add_exact ds s :
  Forall (fun d => 0 <= d) ds -> 0 <= s -> s + Z_sum ds <= Int64.max_int ->
  fold_left Int64.add ds s = s + Z_sum ds.
Proof.
  revert s. induction ds as [|d ds IH]; intros s Hf Hs Hm; cbn [fold_left Z_sum fold_right] in *.
  - lia.
  - inversion Hf as [|? ? Hd Hds]; subst.
    assert (0 <= Z_sum ds).
    { clear -Hds. induction Hds; cbn [Z_sum fold_right]; [lia|]. fold (Z_sum l). lia. }
    fold (Z_sum ds) in *.
    rewrite Int64_add_exact by (unfold Int64.min_int, Int64.max_int in *; lia).
    rewrite IH; [lia | assumption | lia | lia].
Qed.

(** When no entry ends before it starts and the sum of the spans fits, the
    accumulated sum is the arithmetic sum. *)
Lemma int64_sum_exact l c :
  Forall (fun d => 0 <= d) (timed_map span l c) ->
  Z_sum (timed_map span l c) <= Int64.max_int ->
  int64_sum (timed_map elapsed l c) = Z_sum (timed_map span l c).
Proof.
  intros Hf Hm.
  assert (E : timed_map elapsed l c = timed_map span l c).
  { assert (B : Forall (fun d => 0 <= d <= Int64.max_int) (timed_map span l c)).
    { clear -Hf Hm. induction Hf as [|d ds Hd Hds IH]; [constructor|].
      cbn [Z_sum fold_right] in Hm. fold (Z_sum ds) in Hm.
      assert (0 <= Z_sum ds).
      { clear -Hds. induction Hds; cbn [Z_sum fold_right]; [lia|]. fold (Z_sum l). lia. }
      constructor; [lia | apply IH; lia]. }
    clear Hf Hm. revert c B. induction l as [|t l IH]; intros c B; [reflexivity|].
    cbn [timed_map] in *. inversion B as [|? ? Hd Hds]; subst.
    f_equal; [|apply IH, Hds].
    unfold elapsed, span in *. apply Sub_exact.
    unfold minDuration, maxDuration, Int64.min_int, Int64.max_int in *. lia. }
  rewrite E. unfold int64_sum. rewrite fold_add_exact; [lia | assumption | lia | lia].
Qed.

(** ** The duration-only renderers *)

Section DurationOnly.

Context {W : Type} {writer : Writer W}.

Lemma timeEntriesTotalDurationOnly_spec f entries (world : World) :
  let total := int64_sum (timed_map elapsed (elements entries) (clock world)) in
  timeEntriesTotalDurationOnly f entries world =
  (snd (Write (out world) (f total ++ LF)),
   {| out := fst (Write (out world) (f total ++ LF));
      clock := later (length (elements entries)) (clock world) |}).
Proof.
  intros total. unfold timeEntriesTotalDurationOnly, bind, on_clock, on_sink.
  rewrite sumTimeEntriesDuration_spec. cbn [out clock].
  unfold Fprintln, w_Write. fold total.
  destruct (Write (out world) (f total ++ LF)). reflexivity.
Qed.

(** C4, as amended.  The duration-only formatted renderer performs exactly
    one write, of one line: [durationToString] of the total, which is the
    [int64] sum of the entries' durations, each [end.Sub(start)] with the
    reading of the clock taken for that entry as the end of an open one.
    When no entry ends before it starts and the arithmetic sum of the
    differences is below 4096 hours, the total is that sum (zero for the
    empty collection) and the line is that sum as H:MM:SS, the hours not
    wrapped at 24, the minutes and seconds on two digits. *)
Theorem TimeEntriesTotalDurationOnlyFormatted_line entries (world : World) :
  let spans := timed_map span (elements entries) (clock world) in
  let total := int64_sum (timed_map elapsed (elements entries) (clock world)) in
  TimeEntriesTotalDurationOnlyFormatted entries world =
    (snd (Write (out world) (durationToString total ++ LF)),
     {| out := fst (Write (out world) (durationToString total ++ LF));
        clock := later (length (elements entries)) (clock world) |}) /\
  (Forall (fun d => 0 <= d) spans -> Z_sum spans < 4096 * Hour ->
   total = Z_sum spans /\
   durationToString total = HMMSS (Z_sum spans / Second)).
Proof.
  intros spans total. split.
  - apply timeEntriesTotalDurationOnly_spec.
  - subst spans total. intros Hf Hs.
    assert (E : int64_sum (timed_map elapsed (elements entries) (clock world)) =
                Z_sum (timed_map span (elements entries) (clock world))).
    { apply int64_sum_exact; [exact Hf|]. unfold Hour, Int64.max_int in *. lia. }
    split; [exact E|]. rewrite E. apply durationToString_exact.
    split; [|exact Hs]. clear -Hf. induction Hf; cbn [Z_sum fold_right]; [lia|].
    fold (Z_sum l). lia.
Qed.

End DurationOnly.

Lemma TimeEntriesTotalDurationOnlyFormatted_line_witness :
  durationToString
    (int64_sum (timed_map elapsed [entry_a; entry_b] quarter_past_eleven)) = "0:45:00".
Proof.
  destruct (TimeEntriesTotalDurationOnlyFormatted_line (W := Buffer)
              (make_slice [entry_a; entry_b])
              {| out := EmptyString; clock := quarter_past_eleven |}) as [_ F].
  destruct F as [_ F];
    [repeat constructor; vm_compute; congruence | vm_compute; reflexivity |].
  cbn [elements clock] in F. rewrite F. vm_compute. reflexivity.
Defined.

(** C4 as stated fails: for an open entry that starts one second after the
    reading of the clock, the line written is not of the shape H:MM:SS. *)
Lemma TimeEntriesTotalDurationOnlyFormatted_negative_total :
  let entry := {| ID := "a"; Description := "";
                  Interval := {| Start := 10 * Second; End := None |};
                  Project_of := None; Task_of := None; User_of := None; Tags := [] |} in
  out (snd (TimeEntriesTotalDurationOnlyFormatted (make_slice [entry])
              {| out := EmptyString : Buffer; clock := fun _ => 9 * Second |}))
  = "0:00:-1" ++ LF /\
  is_HMMSS "0:00:-1" = false.
Proof. vm_compute. split; reflexivity. Qed.

Lemma append_assoc (a b c : string) : (a ++ b) ++ c = a ++ (b ++ c).
Proof. induction a; simpl; [reflexivity | rewrite IHa; reflexivity]. Qed.

Lemma append_nil_r (a : string) : a ++ "" = a.
Proof. induction a; simpl; [reflexivity | rewrite IHa; reflexivity]. Qed.

Lemma concat_cons (a : string) (l : list string) :
  String.concat "" (a :: l) = a ++ String.concat "" l.
Proof. destruct l; cbn [String.concat]; [rewrite append_nil_r|]; reflexivity. Qed.

(** ** The CSV renderer *)

Section CSV.

Context {W : Type} {writer : Writer W}.
Variable time_Format : Time -> string -> string.

Let record_of := fun now te => csv_record time_Format te now.

Lemma csv_loop_spec l b o c :
  let r := csv_loop time_Format l b {| out := o; clock := c |} in
  let r' := csv_WriteAll (timed_map record_of l c) b o in
  fst r = fst r' /\ out (snd r) = snd r'.
Proof.
  revert b o c. induction l as [|te l IH]; intros b o c.
  - cbn. auto.
  - cbn [csv_loop timed_map csv_WriteAll]. unfold bind, on_clock, on_sink, time_Now, Now.
    cbn [out clock]. fold (record_of (c O) te).
    destruct (csv_Write (record_of (c O) te) b o) as [b1 o1].
    destruct (err b1).
    + cbn. auto.
    + apply IH.
Qed.

(** The renderer writes the header and the records of the entries, each
    with the reading taken for it. *)
Lemma TimeEntriesCSVPrint_spec entries (world : World) :
  let r := TimeEntriesCSVPrint time_Format entries world in
  let r' := csv_print (timed_map record_of (elements entries) (clock world)) (out world) in
  fst r = fst r' /\ out (snd r) = snd r'.
Proof.
  unfold TimeEntriesCSVPrint, csv_print, bind, on_sink. cbn zeta.
  destruct (csv_Write csv_header {| buf := ""; err := None |} (out world)) as [b0 o0].
  destruct (err b0); [cbn; auto|].
  pose proof (csv_loop_spec (elements entries) b0 o0 (clock world)) as [E1 E2].
  cbn zeta in E1, E2.
  destruct (csv_loop time_Format (elements entries) b0 {| out := o0; clock := clock world |})
    as [b1 w1].
  destruct (csv_WriteAll (timed_map record_of (elements entries) (clock world)) b0 o0)
    as [b1' o1'].
  cbn [fst snd] in E1, E2. subst b1' o1'.
  destruct (err b1); [cbn; auto|].
  destruct (bufio_Flush b1 (out w1)). cbn. auto.
Qed.

Lemma csv_record_duration te now :
  nth 8 (csv_record time_Format te now) "" = durationToString (elapsed now te).
Proof.
  destruct te as [i d iv p t u tags]. unfold csv_record, elapsed, finish.
  destruct u, t; reflexivity.
Qed.

End CSV.

(** *** On a sink that takes every write *)

Lemma bufio_WriteByte_Buffer ch b (o : Buffer) :
  err b = None ->
  let r := bufio_WriteByte ch b o in
  err (fst r) = None /\ snd r ++ buf (fst r) = o ++ buf b ++ String ch EmptyString.
Proof.
  intros Hb. unfold bufio_WriteByte. rewrite Hb. unfold bind.
  destruct (defaultBufSize <=? String.length (buf b))%nat.
  - unfold bufio_Flush. rewrite Hb.
    destruct (String.length (buf b) =? 0)%nat eqn:L.
    + cbn. rewrite Hb. cbn. split; reflexivity.
    + cbn. split; [reflexivity|]. apply append_assoc.
  - cbn. rewrite Hb. cbn. split; reflexivity.
Qed.

Lemma bufio_WriteString_Buffer s b (o : Buffer) :
  err b = None ->
  let r := bufio_WriteString s b o in
  err (fst r) = None /\ snd r ++ buf (fst r) = o ++ buf b ++ s.
Proof.
  revert b o. induction s as [|ch s IH]; intros b o Hb.
  - cbn. rewrite append_nil_r. auto.
  - cbn [bufio_WriteString]. unfold bind.
    pose proof (bufio_WriteByte_Buffer ch b o Hb) as [E1 E2]. cbn zeta in E1, E2.
    destruct (bufio_WriteByte ch b o) as [b1 o1]. cbn [fst snd] in *.
    pose proof (IH b1 o1 E1) as [E3 E4]. cbn zeta in E3, E4.
    split; [exact E3|]. rewrite E4, <- append_assoc, E2, !append_assoc. reflexivity.
Qed.

Lemma csv_WriteAll_Buffer records b (o : Buffer) :
  err b = None ->
  let r := csv_WriteAll records b o in
  err (fst r) = None /\
  snd r ++ buf (fst r) = o ++ buf b ++ String.concat "" (map Csv.encode_record records).
Proof.
  revert b o. induction records as [|rec records IH]; intros b o Hb.
  - cbn. rewrite append_nil_r. auto.
  - cbn [csv_WriteAll map]. unfold bind, csv_Write.
    pose proof (bufio_WriteString_Buffer (Csv.encode_record rec) b o Hb) as [E1 E2].
    cbn zeta in E1, E2.
    destruct (bufio_WriteString (Csv.encode_record rec) b o) as [b1 o1]. cbn [fst snd] in *.
    rewrite E1.
    pose proof (IH b1 o1 E1) as [E3 E4]. cbn zeta in E3, E4.
    split; [exact E3|]. rewrite E4, <- append_assoc, E2, !append_assoc. f_equal. f_equal.
    destruct records; cbn [String.concat map]; [rewrite append_nil_r|]; reflexivity.
Qed.

(** A buffer takes the header and every record, in order, and no error
    comes back. *)
Lemma csv_print_Buffer records (o : Buffer) :
  csv_print records o =
  (None, o ++ String.concat "" (map Csv.encode_record (csv_header :: records))).
Proof.
  unfold csv_print, bind, csv_Write.
  pose proof (bufio_WriteString_Buffer (Csv.encode_record csv_header)
                {| buf := ""; err := None |} o eq_refl) as [E1 E2].
  cbn zeta in E1, E2.
  destruct (bufio_WriteString (Csv.encode_record csv_header) {| buf := ""; err := None |} o)
    as [b0 o0]. cbn [fst snd] in *. rewrite E1.
  pose proof (csv_WriteAll_Buffer records b0 o0 E1) as [E3 E4]. cbn zeta in E3, E4.
  destruct (csv_WriteAll records b0 o0) as [b1 o1]. cbn [fst snd] in *. rewrite E3.
  assert (Out : o1 ++ buf b1 =
                o ++ String.concat "" (map Csv.encode_record (csv_header :: records))).
  { rewrite E4, <- append_assoc, E2. cbn [buf]. rewrite !append_assoc. f_equal.
    cbn [map String.concat]. destruct records; cbn [map String.concat];
      [rewrite append_nil_r|]; reflexivity. }
  rewrite <- Out. clear Out E2 E4.
  unfold bufio_Flush. rewrite E3.
  destruct (String.length (buf b1) =? 0)%nat eqn:L.
  - unfold ret. rewrite E3. f_equal.
    apply Nat.eqb_eq in L. destruct (buf b1); [rewrite append_nil_r; reflexivity | discriminate].
  - reflexivity.
Qed.



(** *** On a closed pipe *)

Lemma append_not_empty (a : string) c : a ++ String c "" <> "".
Proof. destruct a; discriminate. Qed.

Lemma bufio_WriteByte_Broken ch b (o : Broken) :
  err b = None \/ err b = Some "broken pipe" ->
  pending (fst (bufio_WriteByte ch b o)).
Proof.
  intros [Hb | Hb]; unfold bufio_WriteByte, pending; rewrite Hb; [|cbn; auto].
  unfold bind.
  destruct (defaultBufSize <=? String.length (buf b))%nat.
  - unfold bufio_Flush. rewrite Hb.
    destruct (String.length (buf b) =? 0)%nat.
    + cbn. rewrite Hb. cbn. left. split; [reflexivity | apply append_not_empty].
    + cbn. auto.
  - cbn. rewrite Hb. cbn. left. split; [reflexivity | apply append_not_empty].
Qed.

Lemma pending_weaken b : pending b -> err b = None \/ err b = Some "broken pipe".
Proof. unfold pending. tauto. Qed.

Lemma bufio_WriteString_Broken s b (o : Broken) :
  pending b -> pending (fst (bufio_WriteString s b o)).
Proof.
  revert b o. induction s as [|ch s IH]; intros b o P; [exact P|].
  cbn [bufio_WriteString]. unfold bind.
  pose proof (bufio_WriteByte_Broken ch b o (pending_weaken b P)) as P1.
  destruct (bufio_WriteByte ch b o) as [b1 o1]. apply IH, P1.
Qed.

Lemma csv_WriteAll_Broken records b (o : Broken) :
  pending b -> pending (fst (csv_WriteAll records b o)).
Proof.
  revert b o. induction records as [|r records IH]; intros b o P; [exact P|].
  cbn [csv_WriteAll]. unfold bind, csv_Write.
  pose proof (bufio_WriteString_Broken (Csv.encode_record r) b o P) as P1.
  destruct (bufio_WriteString (Csv.encode_record r) b o) as [b1 o1]. cbn [fst] in P1.
  destruct (err b1) eqn:E; [exact P1 | apply IH, P1].
Qed.

(** The CSV renderer returns the error of a closed pipe. *)
Lemma csv_print_Broken records (o : Broken) :
  fst (csv_print records o) = Some "broken pipe".
Proof.
  unfold csv_print, bind, csv_Write.
  assert (P0 : pending (fst (bufio_WriteString (Csv.encode_record csv_header)
                               {| buf := ""; err := None |} o))).
  { change (bufio_WriteString (Csv.encode_record csv_header) {| buf := ""; err := None |} o)
      with ({| buf := csv_header_row; err := None |}, o).
    left. split; [reflexivity | discriminate]. }
  destruct (bufio_WriteString (Csv.encode_record csv_header) _ o) as [b0 o0]. cbn [fst] in P0.
  destruct (err b0) as [e|] eqn:E0.
  - destruct P0 as [[P0 _] | P0]; cbn; congruence.
  - pose proof (csv_WriteAll_Broken records b0 o0 P0) as P1.
    destruct (csv_WriteAll records b0 o0) as [b1 o1]. cbn [fst] in P1.
    destruct (err b1) as [e|] eqn:E1.
    + destruct P1 as [[P1 _] | P1]; cbn; congruence.
    + destruct P1 as [[_ P1] | P1]; [|congruence].
      unfold bufio_Flush. rewrite E1.
      destruct (String.length (buf b1) =? 0)%nat eqn:L.
      * apply Nat.eqb_eq in L. destruct (buf b1); [congruence | discriminate].
      * reflexivity.
Qed.

(** ** One reading of the clock, or several *)

Section Readings.

Context {W : Type} {writer : Writer W}.
Variable time_Format : Time -> string -> string.
Variable stdout_is_char_device : bool.
Variable ui_HEX : string -> option (list Z).
Variable term_GetSize : option Z.

Lemma later_const k c now : (forall n, c n = now) -> forall n, later k c n = now.
Proof. intros H n. apply H. Qed.

(** C1, as amended.  The clock is read anew for every entry of a pass: the
    entry at index [i] is given reading number [i], the aggregate, the
    lines of the table and the records of the CSV are computed from these
    readings, an open entry's duration being its own reading minus its
    start, and the total of a table reads the clock again for every entry,
    after the lines.  When all the readings of an invocation are the same
    instant [now], every entry is given the duration
    [(end ?? now).Sub(start)]: the aggregate is the sum of these, each line
    of the table and each record of the CSV shows its own in its duration
    column, and the footer of the table shows the sum of the same ones. *)
Theorem one_reading_consistent options entries (c : Clock) :
  let l := elements entries in
  let n := length l in
  let line := fun now t =>
    table_line time_Format stdout_is_char_device ui_HEX options t now in
  let record := fun now te => csv_record time_Format te now in
  let table := build_table time_Format stdout_is_char_device ui_HEX term_GetSize
                 options entries c in
  (sumTimeEntriesDuration entries c = (int64_sum (timed_map elapsed l c), later n c) /\
   Tablewriter.lines (fst table) =
     (timed_map line l c ++
      (if ShowTotalDuration options
       then [(total_line options (int64_sum (timed_map elapsed l (later n c))), [])]
       else []))%list /\
   snd table = (if ShowTotalDuration options then later n (later n c) else later n c) /\
   (forall world : World, clock world = c ->
      let r := TimeEntriesCSVPrint time_Format entries world in
      let r' := csv_print (timed_map record l c) (out world) in
      fst r = fst r' /\ out (snd r) = snd r') /\
   (forall i t, nth_error l i = Some t ->
      nth_error (timed_map elapsed l c) i = Some (elapsed (c i) t) /\
      nth_error (timed_map line l c) i = Some (line (c i) t) /\
      nth_error (timed_map record l c) i = Some (record (c i) t) /\
      nth_error (timed_map elapsed l (later n c)) i = Some (elapsed (c (n + i)%nat) t) /\
      nth 3 (fst (line (c i) t)) "" = durationToString (elapsed (c i) t) /\
      nth 8 (record (c i) t) "" = durationToString (elapsed (c i) t) /\
      (End (Interval t) = None ->
       elapsed (c i) t = Sub (c i) (Start (Interval t))) /\
      (forall e, End (Interval t) = Some e ->
       elapsed (c i) t = Sub e (Start (Interval t))))) /\
  (forall now : Time, (forall k, c k = now) ->
   let durations := map (elapsed now) l in
   fst (sumTimeEntriesDuration entries c) = int64_sum durations /\
   Tablewriter.lines (fst table) =
     (map (fun t => table_line time_Format stdout_is_char_device ui_HEX options t now) l ++
      (if ShowTotalDuration options
       then [(total_line options (int64_sum durations), [])] else []))%list /\
   (forall t,
      nth 3 (fst (table_line time_Format stdout_is_char_device ui_HEX options t now)) "" =
      durationToString (elapsed now t)) /\
   nth 3 (total_line options (int64_sum durations)) "" =
     durationToString (int64_sum durations) /\
   (forall world : World, clock world = c ->
      let r := TimeEntriesCSVPrint time_Format entries world in
      let r' := csv_print (map (fun te => csv_record time_Format te now) l)
                  (out world) in
      fst r = fst r' /\ out (snd r) = snd r') /\
   (forall te, nth 8 (csv_record time_Format te now) "" = durationToString (elapsed now te))).
Proof.
  intros l n line record table. subst l n line record table. split.
  - split; [apply sumTimeEntriesDuration_spec|]. split; [|split; [|split]].
    + apply (build_table_lines time_Format stdout_is_char_device ui_HEX term_GetSize
               options entries c).
    + unfold build_table, bind. rewrite table_loop_spec.
      destruct (ShowTotalDuration options).
      * rewrite sumTimeEntriesDuration_spec. destruct term_GetSize; reflexivity.
      * destruct term_GetSize; reflexivity.
    + intros world Ec. subst c. apply (TimeEntriesCSVPrint_spec time_Format entries world).
    + intros i t H.
      split; [apply timed_map_nth, H|].
      split; [apply (timed_map_nth
                       (fun now t => table_line time_Format stdout_is_char_device ui_HEX
                                       options t now)), H|].
      split; [apply (timed_map_nth (fun now te => csv_record time_Format te now)), H|].
      split; [apply (timed_map_nth elapsed _ (later _ c)), H|].
      split; [apply (table_line_Dur time_Format stdout_is_char_device ui_HEX)|].
      split; [apply csv_record_duration|].
      unfold elapsed, finish. split.
      * intros E. rewrite E. reflexivity.
      * intros e E. rewrite E. reflexivity.
  - intros now Hc durations. split; [|split; [|split; [|split; [|split]]]].
    + rewrite sumTimeEntriesDuration_spec. cbn [fst].
      rewrite (timed_map_const elapsed _ c now Hc). reflexivity.
    + rewrite (build_table_lines time_Format stdout_is_char_device ui_HEX term_GetSize
                 options entries c). cbn zeta.
      rewrite (timed_map_const
                 (fun now t => table_line time_Format stdout_is_char_device ui_HEX options t now)
                 (elements entries) c now Hc).
      rewrite (timed_map_const elapsed (elements entries) _ now (later_const _ c now Hc)).
      reflexivity.
    + intros t. apply (table_line_Dur time_Format stdout_is_char_device ui_HEX).
    + apply total_line_Dur.
    + intros world Ec. subst c.
      pose proof (TimeEntriesCSVPrint_spec time_Format entries world) as [E1 E2].
      cbn zeta in E1, E2.
      rewrite (timed_map_const _ _ (clock world) now Hc) in E1, E2. auto.
    + intros te. apply csv_record_duration.
Qed.

End Readings.

(** The theorem for the two entries of the scenario: with every reading at
    11:15:00 the aggregate is 45 minutes; with the clock an hour further at
    each reading, the open entry, at index 1, is measured to the second
    reading. *)
Lemma one_reading_consistent_witness :
  fst (sumTimeEntriesDuration (make_slice [entry_a; entry_b]) quarter_past_eleven)
  = 45 * Minute /\
  nth_error (timed_map elapsed [entry_a; entry_b] (fun k => (12 + Z.of_nat k) * Hour)) 1
  = Some (2 * Hour).
Proof.
  split.
  - rewrite (proj1 (proj2 (one_reading_consistent (W := Buffer) (fun _ _ => EmptyString)
                             false (fun _ => None) None default_options
                             (make_slice [entry_a; entry_b]) quarter_past_eleven)
                      (11 * Hour + 15 * Minute) (fun k => eq_refl))).
    vm_compute. reflexivity.
  - destruct (proj1 (one_reading_consistent (W := Buffer) (fun _ _ => EmptyString)
                       false (fun _ => None) None default_options
                       (make_slice [entry_a; entry_b])
                       (fun k => (12 + Z.of_nat k) * Hour)))
      as (_ & _ & _ & _ & R).
    destruct (R 1%nat entry_b eq_refl) as (E & _ & _ & _ & _ & _ & O & _).
    cbn [elements] in E. rewrite E, (O eq_refl). reflexivity.
Defined.

(** C1 as stated fails: the clock is read for the line of an entry and
    again for the total.  For one open entry started at 0:00:00, with the
    clock at 1:00:00 and then at 2:00:00, the line shows one hour and the
    total two: no single instant accounts for both. *)
Lemma readings_differ_counterexample :
  let entry := {| ID := "a"; Description := "";
                  Interval := {| Start := 0; End := None |};
                  Project_of := None; Task_of := None; User_of := None; Tags := [] |} in
  let options := {| ShowTasks := false; ShowTotalDuration := true;
                    TimeFormat := TIME_FORMAT_SIMPLE |} in
  let c : Clock := fun n => (Z.of_nat n + 1) * Hour in
  let tw := fst (build_table (fun _ _ => EmptyString) false (fun _ => None) None
                   options (make_slice [entry]) c) in
  map (fun l => nth 3 (fst l) "") (Tablewriter.lines tw) = ["1:00:00"; "2:00:00"] /\
  ~ exists now,
      Forall (fun l => nth 3 (fst l) "" = durationToString (elapsed now entry))
             (Tablewriter.lines tw).
Proof.
  intros entry options c tw. split; [vm_compute; reflexivity|].
  intros [now F].
  assert (L : Tablewriter.lines tw =
              [(["a"; ""; ""; "1:00:00"; ""; ""; ""], [[]; []; []; []; []; []; []]);
               (["TOTAL"; ""; ""; "2:00:00"; ""; ""; ""], [])])
    by (vm_compute; reflexivity).
  rewrite L in F. inversion F as [|? ? H1 F']; subst. inversion F' as [|? ? H2 _]; subst.
  cbn [nth fst] in H1, H2. rewrite <- H1 in H2. discriminate H2.
Qed.

(** ** What the renderers return and write *)

Section Returns.

Context {W : Type} {writer : Writer W}.
Variable time_Format : Time -> string -> string.
Variable json_Marshal : TimeEntry -> string.
Variable stdout_is_char_device : bool.
Variable ui_HEX : string -> option (list Z).
Variable term_GetSize : option Z.
Variable tw_Render : Tablewriter.Table -> list string.

Lemma on_sink_fst {A : Type} (m : @IO W A) (world : @World W) :
  fst (on_sink m world) = fst (m (out world)).
Proof. unfold on_sink. destruct (m (out world)). reflexivity. Qed.

Lemma on_sink_snd {A : Type} (m : @IO W A) (world : @World W) :
  snd (on_sink m world) = {| out := snd (m (out world)); clock := clock world |}.
Proof. unfold on_sink. destruct (m (out world)). reflexivity. Qed.

(** C2 does not hold of the code.  The quiet renderer and the table
    renderer return no error of the sink: the quiet renderer returns nil
    whatever the sink answers, and the table renderer returns nil or the
    error of one of its options. *)
Theorem write_errors_dropped entries (world : World) (opts : list TimeEntryOutputOpt) :
  fst (TimeEntriesPrintQuietly entries world) = None /\
  fst (TimeEntriesPrint time_Format stdout_is_char_device ui_HEX term_GetSize tw_Render
         opts entries world) =
    match apply_opts opts default_options with
    | inl _ => None
    | inr e => Some e
    end.
Proof.
  split.
  - unfold TimeEntriesPrintQuietly. rewrite on_sink_fst. unfold bind.
    destruct (quiet_loop (elements entries) (out world)). reflexivity.
  - unfold TimeEntriesPrint. destruct (apply_opts opts default_options) as [options | e].
    + unfold bind, on_clock.
      destruct (build_table _ _ _ _ options entries (clock world)) as [tw c].
      rewrite on_sink_fst. unfold bind.
      destruct (write_ignoring (tw_Render tw) _). reflexivity.
    + reflexivity.
Qed.

End Returns.

(** On a closed pipe, with one entry to print, both return nil. *)
Lemma write_errors_dropped_on_closed_pipe :
  let world := {| out := broken; clock := quarter_past_eleven |} in
  fst (Write broken ("a" ++ LF)) = broken /\ snd (Write broken ("a" ++ LF)) <> None /\
  fst (TimeEntriesPrintQuietly (make_slice [entry_a]) world) = None /\
  fst (TimeEntriesPrint (fun _ _ => EmptyString) false (fun _ => None) None
         (fun _ => ["+---+" ++ LF]) [] (make_slice [entry_a]) world) = None.
Proof. cbn. repeat split. discriminate. Qed.

(** The renderers that report the failure of the sink: on a closed pipe the
    JSON, duration-only and CSV renderers return its error. *)
Lemma write_errors_returned (entries : slice TimeEntry) c :
  let world := {| out := broken; clock := c |} in
  fst (TimeEntriesJSONPrint (fun _ => EmptyString) entries world) = Some "broken pipe" /\
  fst (TimeEntriesTotalDurationOnlyFormatted entries world) = Some "broken pipe" /\
  fst (TimeEntriesTotalDurationOnlyAsFloat entries world) = Some "broken pipe" /\
  fst (TimeEntriesCSVPrint (fun _ _ => EmptyString) entries world) = Some "broken pipe".
Proof.
  intros world. split; [reflexivity|].
  split; [|split];
    unfold TimeEntriesTotalDurationOnlyFormatted, TimeEntriesTotalDurationOnlyAsFloat;
    try (rewrite timeEntriesTotalDurationOnly_spec; reflexivity).
  rewrite (proj1 (TimeEntriesCSVPrint_spec _ entries world)).
  apply csv_print_Broken.
Qed.

(** ** Empty collections *)

Section Empty.

Context {W : Type} {writer : Writer W}.
Variable time_Format : Time -> string -> string.
Variable json_Marshal : TimeEntry -> string.
Variable stdout_is_char_device : bool.
Variable ui_HEX : string -> option (list Z).
Variable term_GetSize : option Z.
Variable tw_Render : Tablewriter.Table -> list string.
Variable Template : Type.
Variable template_Parse : string -> Template + error.
Variable template_Execute : Template -> View -> list string * option error.

Lemma world_eta (world : @World W) : {| out := out world; clock := clock world |} = world.
Proof. destruct world. reflexivity. Qed.

(** C5, as amended.  For a collection without entries: the JSON renderer
    writes [null] for the nil slice and the empty array for an allocated
    one; the CSV renderer writes the header row and nothing else; the quiet
    renderer and the template renderer write nothing; the duration-only
    renderers write a total of zero; the table renderer renders a table
    with the header and no line of an entry. *)
Theorem empty_collection (entries : slice TimeEntry) (world : World) :
  elements entries = [] ->
  TimeEntriesJSONPrint json_Marshal entries world =
    one_write (match entries with
               | nil_slice => "null"
               | make_slice _ => "[]"
               end ++ LF) world /\
  TimeEntriesCSVPrint time_Format entries world = one_write csv_header_row world /\
  TimeEntriesPrintQuietly entries world = (None, world) /\
  TimeEntriesTotalDurationOnlyFormatted entries world = one_write ("0:00:00" ++ LF) world /\
  TimeEntriesTotalDurationOnlyAsFloat entries world = one_write ("0.000000" ++ LF) world /\
  (forall options,
     build_table time_Format stdout_is_char_device ui_HEX term_GetSize options entries
       (clock world) = (empty_table term_GetSize options, clock world)) /\
  (forall format t, template_Parse format = inl t ->
     TimeEntriesPrintWithTemplate Template template_Parse template_Execute format
       entries world = (None, world)).
Proof.
  intros E. split; [|split; [|split; [|split; [|split; [|split]]]]].
  - unfold TimeEntriesJSONPrint, one_write, on_sink, w_Write.
    destruct entries as [|l]; cbn in E; [|subst l];
      cbn [json_Encode map Join]; destruct (Write (out world) _); reflexivity.
  - unfold TimeEntriesCSVPrint, one_write. rewrite E.
    unfold bind, on_sink, csv_Write.
    change (bufio_WriteString (Csv.encode_record csv_header) {| buf := ""; err := None |}
              (out world))
      with ({| buf := csv_header_row; err := None |}, out world).
    cbn [err csv_loop ret out clock bufio_Flush buf].
    change (String.length csv_header_row =? 0)%nat with false. cbn iota.
    unfold bind, w_Write. destruct (Write (out world) csv_header_row) as [w' [e|]]; reflexivity.
  - unfold TimeEntriesPrintQuietly, on_sink. rewrite E. cbn. rewrite world_eta. reflexivity.
  - unfold TimeEntriesTotalDurationOnlyFormatted. rewrite timeEntriesTotalDurationOnly_spec.
    rewrite E. reflexivity.
  - unfold TimeEntriesTotalDurationOnlyAsFloat. rewrite timeEntriesTotalDurationOnly_spec.
    rewrite E. reflexivity.
  - intros options. unfold build_table, bind, sumTimeEntriesDuration. rewrite E.
    unfold empty_table. cbn [table_loop sum_loop ret].
    destruct term_GetSize, (ShowTotalDuration options); reflexivity.
  - intros format t P. unfold TimeEntriesPrintWithTemplate. rewrite P, E.
    unfold on_sink. cbn. rewrite world_eta. reflexivity.
Qed.

End Empty.

(** The theorem for an allocated slice of length 0, on a buffer. *)
Lemma empty_collection_witness :
  out (snd (TimeEntriesCSVPrint (fun _ _ => EmptyString) (make_slice [])
              {| out := EmptyString : Buffer; clock := quarter_past_eleven |}))
  = csv_header_row.
Proof.
  rewrite (proj1 (proj2 (empty_collection (W := Buffer) (fun _ _ => EmptyString)
                           (fun _ => EmptyString) false (fun _ => None) None
                           unit (fun _ => inl tt) (fun _ _ => ([], None))
                           (make_slice []) {| out := EmptyString; clock := quarter_past_eleven |}
                           eq_refl))).
  reflexivity.
Defined.

(** C5 as stated fails: for the nil slice the JSON renderer writes [null],
    not an empty array. *)
Lemma json_of_nil_slice :
  out (snd (TimeEntriesJSONPrint (fun _ => EmptyString) nil_slice
              {| out := EmptyString : Buffer; clock := quarter_past_eleven |}))
  = "null" ++ LF /\
  "null" ++ LF <> "[]" ++ LF.
Proof. split; [reflexivity | discriminate]. Qed.

(** ** The columns of a CSV record *)

(** *** What is written, read back *)

Module CsvTextFacts.
Import CsvText.
Local Open Scope string_scope.

Lemma not_special ch :
  Csv.is_special ch = false ->
  Ascii.eqb ch Csv.dquote = false /\ is_comma ch = false /\ is_line_feed ch = false.
Proof.
  unfold Csv.is_special, is_comma, is_line_feed. intros H.
  apply orb_false_iff in H. destruct H as [H C].
  apply orb_false_iff in H. destruct H as [H Q].
  apply orb_false_iff in H. destruct H as [L R]. auto.
Qed.

Lemma read_unquoted f sep rest field fields records :
  Csv.has_special f = false -> separator sep ->
  read_from (f ++ String sep rest) Unquoted field fields records =
  after_field sep rest (field ++ f) fields records.
Proof.
  revert field. induction f as [|ch f IH]; intros field H S.
  - cbn [append]. rewrite append_nil_r. unfold after_field.
    destruct S as [-> | ->]; reflexivity.
  - cbn [Csv.has_special] in H. apply orb_false_iff in H. destruct H as [Hc Hf].
    destruct (not_special ch Hc) as (Q & C & L).
    cbn [append read_from]. rewrite Q, C, L. rewrite IH by assumption.
    rewrite append_assoc. reflexivity.
Qed.

Lemma read_quoted f sep rest field fields records :
  separator sep ->
  read_from (Csv.escape f ++ String Csv.dquote (String sep rest)) Quoted field fields records =
  after_field sep rest (field ++ f) fields records.
Proof.
  intros S. revert field. induction f as [|ch f IH]; intros field.
  - cbn [Csv.escape append]. rewrite append_nil_r. unfold after_field.
    destruct S as [-> | ->]; reflexivity.
  - cbn [Csv.escape]. destruct (Ascii.eqb ch Csv.dquote) eqn:Q.
    + cbn [append read_from]. rewrite Q.
      rewrite IH, append_assoc. reflexivity.
    + cbn [append read_from]. rewrite Q. rewrite IH, append_assoc. reflexivity.
Qed.

Lemma needs_no_quotes f :
  Csv.fieldNeedsQuotes f = false -> f = "" \/ Csv.has_special f = false.
Proof.
  unfold Csv.fieldNeedsQuotes. destruct (String.eqb_spec f "") as [E|E]; [auto|].
  destruct (String.eqb f "\."); [discriminate|].
  destruct (Csv.has_special f); [discriminate|]. auto.
Qed.

Lemma read_field m f sep rest fields records :
  m = RecordStart \/ m = FieldStart -> separator sep ->
  read_from (Csv.encode_field f ++ String sep rest) m "" fields records =
  after_field sep rest f fields records.
Proof.
  intros M S. unfold Csv.encode_field.
  destruct (Csv.fieldNeedsQuotes f) eqn:N.
  - unfold Csv.quote. rewrite !append_assoc.
    change (String Csv.dquote "" ++ Csv.escape f ++ String Csv.dquote "" ++ String sep rest)
      with (String Csv.dquote (Csv.escape f ++ String Csv.dquote (String sep rest))).
    assert (E : read_from
                  (String Csv.dquote (Csv.escape f ++ String Csv.dquote (String sep rest)))
                  m "" fields records =
                read_from (Csv.escape f ++ String Csv.dquote (String sep rest))
                  Quoted "" fields records)
      by (destruct M as [-> | ->]; reflexivity).
    rewrite E, read_quoted by exact S. reflexivity.
  - destruct f as [|ch f].
    + cbn [append]. unfold after_field. destruct M as [-> | ->], S as [-> | ->]; reflexivity.
    + destruct (needs_no_quotes _ N) as [E|H]; [discriminate|].
      cbn [Csv.has_special] in H. apply orb_false_iff in H. destruct H as [Hc Hf].
      destruct (not_special ch Hc) as (Q & C & L).
      assert (E : read_from (String ch f ++ String sep rest) m "" fields records =
                  read_from (f ++ String sep rest) Unquoted (String ch "") fields records)
        by (destruct M as [-> | ->]; cbn [append read_from]; rewrite Q, C, L; reflexivity).
      rewrite E, read_unquoted by assumption. reflexivity.
Qed.

Lemma read_record m f fs rest fields records :
  m = RecordStart \/ m = FieldStart ->
  read_from (Join (map Csv.encode_field (f :: fs)) "," ++ LF ++ rest) m "" fields records =
  read_from rest RecordStart "" [] (records ++ [fields ++ f :: fs])%list.
Proof.
  revert m f fields. induction fs as [|g fs IH]; intros m f fields M.
  - cbn [map Join]. change (LF ++ rest) with (String (ascii_of_nat 10) rest).
    rewrite read_field by (try exact M; right; reflexivity). reflexivity.
  - change (Join (map Csv.encode_field (f :: g :: fs)) "," ++ LF ++ rest)
      with ((Csv.encode_field f ++ "," ++ Join (map Csv.encode_field (g :: fs)) ",")
            ++ LF ++ rest).
    rewrite append_assoc.
    change (("," ++ Join (map Csv.encode_field (g :: fs)) ",") ++ LF ++ rest)
      with (String "," (Join (map Csv.encode_field (g :: fs)) "," ++ LF ++ rest)).
    rewrite read_field by (try exact M; left; reflexivity).
    unfold after_field. cbn [is_comma Ascii.eqb]. 
    change (is_comma ",") with true. cbv iota.
    rewrite IH by (right; reflexivity). rewrite <- app_assoc. reflexivity.
Qed.

(** Records written one after the other are read back as they were. *)
Lemma read_written rs records :
  Forall (fun r => r <> []) rs ->
  read_from (String.concat "" (map Csv.encode_record rs)) RecordStart "" [] records =
  Some (records ++ rs)%list.
Proof.
  intros H. revert records. induction H as [|r rs Hr _ IH]; intros records.
  - cbn. rewrite app_nil_r. reflexivity.
  - cbn [map]. rewrite concat_cons. unfold Csv.encode_record at 1.
    destruct r as [|f fs]; [congruence|].
    rewrite append_assoc, read_record by (left; reflexivity).
    rewrite IH, <- app_assoc. reflexivity.
Qed.

End CsvTextFacts.

Section Columns.

Variable time_Format : Time -> string -> string.

(** C6.  The record of an entry is twelve fixed columns followed by one
    column for each tag, [name (id)].  The columns of the project, the task
    and the user hold their fields when the entry has them and the empty
    string when it has not; an empty field is written as such, without
    quotes.  On a sink that takes every write, the renderer writes the
    header and the records of the entries, in order, and what it writes
    reads back as CSV to these very records: the header, then for each
    entry a row of its twelve fixed columns and one column for each of its
    tags, whatever bytes the fields hold. *)
Theorem csv_record_columns (te : TimeEntry) (now : Time) :
  let fixed := fixed_columns time_Format te now in
  csv_record time_Format te now =
    (fixed ++ map (fun tag => (Tag_Name tag ++ " (" ++ Tag_ID tag ++ ")")%string) (Tags te))%list /\
  length fixed = 12%nat /\
  match Project_of te with
  | Some p => nth 2 fixed "?" = Project_ID p /\ nth 3 fixed "?" = Project_Name p
  | None => nth 2 fixed "?" = "" /\ nth 3 fixed "?" = ""
  end /\
  match Task_of te with
  | Some t => nth 4 fixed "?" = Task_ID t /\ nth 5 fixed "?" = Task_Name t
  | None => nth 4 fixed "?" = "" /\ nth 5 fixed "?" = ""
  end /\
  match User_of te with
  | Some u => nth 9 fixed "?" = User_ID u /\ nth 10 fixed "?" = Email u /\
              nth 11 fixed "?" = User_Name u
  | None => nth 9 fixed "?" = "" /\ nth 10 fixed "?" = "" /\ nth 11 fixed "?" = ""
  end /\
  Csv.encode_field "" = "" /\
  (forall (entries : slice TimeEntry) (c : Clock) (o : Buffer),
    let r := TimeEntriesCSVPrint time_Format entries {| out := o; clock := c |} in
    fst r = None /\
    out (snd r) =
      o ++ String.concat ""
             (map Csv.encode_record
                (csv_header ::
                 timed_map (fun now te => csv_record time_Format te now)
                   (elements entries) c))) /\
  (forall records : list (list string),
     Forall (fun r => r <> []) records ->
     CsvText.read (String.concat "" (map Csv.encode_record records)) = Some records) /\
  (forall (entries : slice TimeEntry) (c : Clock),
     let rows := timed_map (fun now te => csv_record time_Format te now)
                   (elements entries) c in
     CsvText.read
       (out (snd (TimeEntriesCSVPrint time_Format entries
                    {| out := EmptyString : Buffer; clock := c |})))
     = Some (csv_header :: rows) /\
     length csv_header = 13%nat /\
     forall i entry, nth_error (elements entries) i = Some entry ->
       exists row,
         nth_error rows i = Some row /\
         length row = (12 + length (Tags entry))%nat /\
         firstn 12 row = fixed_columns time_Format entry (c i) /\
         skipn 12 row =
           map (fun tag => (Tag_Name tag ++ " (" ++ Tag_ID tag ++ ")")%string)
               (Tags entry)).
Proof.
  assert (A : forall e n,
             csv_record time_Format e n =
             (fixed_columns time_Format e n ++
              map (fun tag => (Tag_Name tag ++ " (" ++ Tag_ID tag ++ ")")%string) (Tags e))%list
             /\ length (fixed_columns time_Format e n) = 12%nat).
  { intros [i d iv p t u tags] n. unfold fixed_columns, csv_record.
    cbn [Project_of Task_of User_of Tags]. destruct u, t; split; reflexivity. }
  assert (B : forall (entries : slice TimeEntry) (c : Clock) (o : Buffer),
             let r := TimeEntriesCSVPrint time_Format entries {| out := o; clock := c |} in
             fst r = None /\
             out (snd r) =
               o ++ String.concat ""
                      (map Csv.encode_record
                         (csv_header ::
                          timed_map (fun now te => csv_record time_Format te now)
                            (elements entries) c))).
  { intros entries c o.
    pose proof (TimeEntriesCSVPrint_spec time_Format entries {| out := o; clock := c |})
      as [E1 E2].
    cbn zeta in E1, E2. cbn [out clock] in E1, E2.
    rewrite csv_print_Buffer in E1, E2. cbn [fst snd] in E1, E2.
    split; assumption. }
  assert (R : forall records : list (list string),
             Forall (fun r => r <> []) records ->
             CsvText.read (String.concat "" (map Csv.encode_record records)) = Some records).
  { intros records H. unfold CsvText.read.
    rewrite CsvTextFacts.read_written by exact H. reflexivity. }
  destruct (A te now) as [A1 A2].
  split; [exact A1|]. split; [exact A2|].
  split; [|split; [|split; [|split; [|split; [|split]]]]].
  - destruct te as [i d iv p t u tags]. unfold fixed_columns, csv_record.
    cbn [Project_of Task_of User_of Tags]. destruct p, u, t; split; reflexivity.
  - destruct te as [i d iv p t u tags]. unfold fixed_columns, csv_record.
    cbn [Project_of Task_of User_of Tags]. destruct u, t; split; reflexivity.
  - destruct te as [i d iv p t u tags]. unfold fixed_columns, csv_record.
    cbn [Project_of Task_of User_of Tags]. destruct u, t; repeat split; reflexivity.
  - reflexivity.
  - exact B.
  - exact R.
  - intros entries c rows. subst rows. split; [|split].
    + destruct (B entries c EmptyString) as [_ E]. cbv zeta in E. rewrite E.
      change (String.append EmptyString ?x) with x. cbn [append].
      apply R. constructor; [discriminate|].
      apply Forall_timed_map. intros n e.
      destruct (A e n) as [E1 E2]. rewrite E1.
      destruct (fixed_columns time_Format e n); [discriminate|discriminate].
    + reflexivity.
    + intros k entry H.
      exists (csv_record time_Format entry (c k)).
      split; [apply (timed_map_nth (fun now te => csv_record time_Format te now)), H|].
      destruct (A entry (c k)) as [E1 E2]. rewrite E1.
      split; [rewrite length_app, length_map, E2; reflexivity|]. split.
      * rewrite firstn_app, E2, Nat.sub_diag, firstn_O, app_nil_r.
        apply firstn_all2. rewrite E2. apply le_n.
      * rewrite skipn_app, E2, Nat.sub_diag, skipn_O.
        rewrite skipn_all2 by (rewrite E2; apply le_n). reflexivity.
Qed.

End Columns.

(** An entry whose description holds a comma and a line feed, with one tag:
    the description is written in quotes, and the output reads back as the
    header and a row of twelve columns and the tag. *)
Lemma csv_record_columns_witness :
  let entry := {| ID := "a"; Description := "review, then" ++ LF ++ "merge";
                  Interval := {| Start := 10 * Hour; End := None |};
                  Project_of := None; Task_of := None; User_of := None;
                  Tags := [{| Tag_ID := "t1"; Tag_Name := "urgent" |}] |} in
  CsvText.read
    (out (snd (TimeEntriesCSVPrint (fun _ _ => "2006-01-02 15:04:05") (make_slice [entry])
                 {| out := EmptyString : Buffer; clock := quarter_past_eleven |})))
  = Some [csv_header;
          ["a"; "review, then" ++ LF ++ "merge"; ""; ""; ""; ""; "2006-01-02 15:04:05"; "";
           "1:15:00"; ""; ""; ""; "urgent (t1)"]].
Proof.
  cbv zeta.
  rewrite (proj1 (proj2 (proj2 (proj2 (proj2 (proj2 (proj2 (proj2 (proj2
             (csv_record_columns (fun _ _ => "2006-01-02 15:04:05") entry_a 0))))))))
             (make_slice [{| ID := "a"; Description := "review, then" ++ LF ++ "merge";
                             Interval := {| Start := 10 * Hour; End := None |};
                             Project_of := None; Task_of := None; User_of := None;
                             Tags := [{| Tag_ID := "t1"; Tag_Name := "urgent" |}] |}])
             quarter_past_eleven)).
  reflexivity.
Defined.

(** ** The template renderer *)

Lemma views_from_length n i l : length (views_from n i l) = length l.
Proof. revert i. induction l; intros; simpl; auto. Qed.

Lemma views_from_nth n i l k v :
  nth_error (views_from n i l) k = Some v ->
  nth_error l k = Some (Entry v) /\
  First v = (i + Z.of_nat k =? 0)%Z /\
  Last v = (i + Z.of_nat k =? n - 1)%Z.
Proof.
  revert i k. induction l as [|te l IH]; intros i k H.
  - destruct k; discriminate.
  - destruct k as [|k]; cbn [views_from nth_error] in *.
    + injection H as <-. cbn [Entry First Last]. rewrite Z.add_0_r. auto.
    + destruct (IH _ _ H) as (E & F & L). split; [exact E|].
      rewrite F, L. replace (i + 1 + Z.of_nat k) with (i + Z.of_nat (S k)) by lia. auto.
Qed.

Lemma write_all_Buffer chunks (o : Buffer) :
  write_all chunks o = (None, o ++ String.concat "" chunks).
Proof.
  revert o. induction chunks as [|p chunks IH]; intros o; cbn [write_all].
  - cbn. rewrite append_nil_r. reflexivity.
  - unfold bind, w_Write. cbn [Write Buffer_Writer]. rewrite IH. f_equal.
    rewrite append_assoc. f_equal.
    destruct chunks; cbn [String.concat]; [rewrite append_nil_r|]; reflexivity.
Qed.

(** On a sink that takes every write, views whose evaluation does not fail
    leave, each in its turn, what the evaluation writes and a line feed. *)
Lemma render_views_written (Template : Type)
    (template_Execute : Template -> View -> list string * option error)
    (t : Template) (vs : list View) (o : Buffer) :
  (forall v, In v vs -> snd (template_Execute t v) = None) ->
  render_views Template template_Execute t vs o =
  (None,
   o ++ String.concat ""
          (map (fun v => String.concat "" (fst (template_Execute t v)) ++ LF) vs)).
Proof.
  revert o. induction vs as [|v vs IH]; intros o H.
  - cbn. rewrite append_nil_r. reflexivity.
  - cbn [render_views map]. rewrite concat_cons. unfold bind, Execute.
    pose proof (H v (or_introl eq_refl)) as Hv.
    destruct (template_Execute t v) as [chunks failure]. cbn [fst snd] in *. subst failure.
    unfold bind. rewrite write_all_Buffer. unfold ret. cbv beta iota.
    change (Fprintln "" (o ++ String.concat "" chunks))
      with (@None error, (o ++ String.concat "" chunks) ++ LF).
    cbv beta iota.
    rewrite IH by (intros v' Hin; apply H; right; exact Hin).
    rewrite !append_assoc. reflexivity.
Qed.

(** The loop of the template renderer is the rendering of the views. *)
Lemma template_loop_as_views {W : Type} {writer : Writer W} (Template : Type)
    (template_Execute : Template -> View -> list string * option error)
    (t : Template) (n i : Z) (l : list TimeEntry) (w : W) :
  template_loop Template template_Execute t n i l w =
  render_views Template template_Execute t (views_from n i l) w.
Proof.
  revert i w. induction l as [|te l IH]; intros i w; [reflexivity|].
  cbn [template_loop views_from render_views]. unfold bind.
  destruct (Execute Template template_Execute t _ w) as [[x|] w1]; [reflexivity|].
  destruct (Fprintln "" w1) as [e w2]. apply IH.
Qed.

Section Templates.

Context {W : Type} {writer : Writer W}.
Variable Template : Type.
Variable template_Parse : string -> Template + error.
Variable template_Execute : Template -> View -> list string * option error.

Lemma template_loop_views t n i l (w : W) :
  template_loop Template template_Execute t n i l w = render_views Template template_Execute t (views_from n i l) w.
Proof.
  revert i w. induction l as [|te l IH]; intros i w; [reflexivity|].
  cbn [template_loop views_from render_views]. unfold bind.
  destruct (Execute Template template_Execute t _ w) as [[x|] w1]; [reflexivity|].
  destruct (Fprintln "" w1) as [e w2]. apply IH.
Qed.

Lemma render_views_app t a b (w : W) :
  render_views Template template_Execute t (a ++ b) w =
  match render_views Template template_Execute t a w with
  | (Some x, w1) => (Some x, w1)
  | (None, w1) => render_views Template template_Execute t b w1
  end.
Proof.
  revert w. induction a as [|v a IH]; intros w; [reflexivity|].
  cbn [app render_views]. unfold bind.
  destruct (Execute Template template_Execute t v w) as [[x|] w1]; [reflexivity|].
  destruct (Fprintln "" w1) as [e w2]. apply IH.
Qed.

(** C8.  When the template parses, the renderer evaluates it once for each
    entry, in order, against the view of the entry: the entry itself,
    [First] true at index 0 and nowhere else, [Last] true at the last index
    and nowhere else.  What reaches a sink that takes every write is, for
    each view in turn, what the evaluation of the template against that
    view writes, and a line feed.  A collection of one entry has one view,
    with both set; a collection of three has [First] at index 0 only and
    [Last] at index 2 only. *)
Theorem template_views format t (entries : slice TimeEntry) (world : World) :
  template_Parse format = inl t ->
  TimeEntriesPrintWithTemplate Template template_Parse template_Execute format entries world
    = on_sink (render_views Template template_Execute t (views entries)) world /\
  length (views entries) = length (elements entries) /\
  (forall i v, nth_error (views entries) i = Some v ->
     nth_error (elements entries) i = Some (Entry v) /\
     (First v = true <-> i = O) /\
     (Last v = true <-> S i = length (elements entries))) /\
  (forall te, elements entries = [te] ->
     views entries = [{| Entry := te; First := true; Last := true |}]) /\
  (forall a b c, elements entries = [a; b; c] ->
     views entries = [{| Entry := a; First := true; Last := false |};
                      {| Entry := b; First := false; Last := false |};
                      {| Entry := c; First := false; Last := true |}]) /\
  (forall (o : Buffer) (c : Clock),
     (forall v, In v (views entries) -> snd (template_Execute t v) = None) ->
     TimeEntriesPrintWithTemplate Template template_Parse template_Execute format entries
       {| out := o; clock := c |} =
     (None,
      {| out := o ++ String.concat ""
                       (map (fun v => String.concat "" (fst (template_Execute t v)) ++ LF)
                            (views entries));
         clock := c |})).
Proof.
  intros P. split; [|split; [|split; [|split; [|split]]]].
  - unfold TimeEntriesPrintWithTemplate, on_sink. rewrite P.
    rewrite template_loop_views. reflexivity.
  - apply views_from_length.
  - intros i v H. destruct (views_from_nth _ _ _ _ _ H) as (E & F & L).
    split; [exact E|]. rewrite F, L. unfold len.
    split; rewrite Z.eqb_eq; lia.
  - intros te E. unfold views, len. rewrite E. reflexivity.
  - intros a b c E. unfold views, len. rewrite E. reflexivity.
  - intros o c H. unfold TimeEntriesPrintWithTemplate. rewrite P.
    unfold on_sink. cbn [out clock].
    rewrite template_loop_as_views. fold (views entries).
    rewrite render_views_written by exact H. reflexivity.
Qed.

(** C7.  A template that does not parse ends the call with its error and
    nothing is written.  When the evaluation fails at one entry, after the
    entries before it were rendered, the call returns an error; the sink is
    as the rows before and the chunks of the failing evaluation left it, and
    no later entry is evaluated. *)
Theorem template_failures format (entries : slice TimeEntry) (world : World) :
  (forall e, template_Parse format = inr e ->
     TimeEntriesPrintWithTemplate Template template_Parse template_Execute format
       entries world = (Some e, world)) /\
  (forall t before v after chunks e,
     template_Parse format = inl t ->
     views entries = (before ++ v :: after)%list ->
     fst (render_views Template template_Execute t before (out world)) = None ->
     template_Execute t v = (chunks, Some e) ->
     let rows := snd (render_views Template template_Execute t before (out world)) in
     let r := TimeEntriesPrintWithTemplate Template template_Parse template_Execute format
                entries world in
     fst r <> None /\
     out (snd r) = snd (write_all chunks rows) /\
     (fst (write_all chunks rows) = None -> fst r = Some e)).
Proof.
  split.
  - intros e P. unfold TimeEntriesPrintWithTemplate. rewrite P. reflexivity.
  - intros t before v after chunks e P V B X rows r. subst r.
    unfold TimeEntriesPrintWithTemplate. rewrite P.
    rewrite on_sink_fst, on_sink_snd. cbn [out].
    rewrite template_loop_views. fold (views entries). rewrite V, render_views_app.
    subst rows. destruct (render_views Template template_Execute t before (out world)) as [[x|] w1];
      [discriminate B|]. cbn [fst snd].
    cbn [render_views]. unfold bind, Execute. rewrite X. unfold bind.
    destruct (write_all chunks w1) as [[x|] w2]; cbn; repeat split; congruence.
Qed.

End Templates.

(** The rows a buffer holds after the views are rendered without error. *)
(** On a buffer nothing written is taken back: what the buffer held before
    the views were rendered is the beginning of what it holds after. *)
Lemma render_views_Buffer (Template : Type)
    (template_Execute : Template -> View -> list string * option error)
    (t : Template) (vs : list View) (o : Buffer) :
  exists rows, snd (render_views Template template_Execute t vs o) = o ++ rows.
Proof.
  assert (Fp : forall x : Buffer, Fprintln "" x = (None, x ++ LF)) by reflexivity.
  assert (Ex : forall v (x : Buffer),
             Execute Template template_Execute t v x =
             (snd (template_Execute t v),
              x ++ String.concat "" (fst (template_Execute t v)))).
  { intros v x. unfold Execute. destruct (template_Execute t v) as [chunks failure].
    unfold bind. rewrite write_all_Buffer. destruct failure; reflexivity. }
  revert o. induction vs as [|v vs IH]; intros o.
  - exists "". cbn. rewrite append_nil_r. reflexivity.
  - cbn [render_views]. unfold bind. rewrite Ex.
    destruct (snd (template_Execute t v)).
    + eexists. reflexivity.
    + rewrite Fp.
      destruct (IH ((o ++ String.concat "" (fst (template_Execute t v))) ++ LF)) as [rows E].
      rewrite E. eexists. rewrite !append_assoc. reflexivity.
Qed.

Lemma template_failures_witness :
  let r := TimeEntriesPrintWithTemplate unit (fun _ => inl tt) example_Execute "{{.ID}}"
             (make_slice [entry_a; entry_b; entry_a])
             {| out := EmptyString : Buffer; clock := quarter_past_eleven |} in
  fst r = Some "no such field" /\ out (snd r) = "a" ++ LF ++ "b, unfinished".
Proof.
  intros r.
  destruct (proj2 (template_failures (W := Buffer) unit (fun _ => inl tt) example_Execute
                     "{{.ID}}" (make_slice [entry_a; entry_b; entry_a])
                     {| out := EmptyString; clock := quarter_past_eleven |})
              tt [{| Entry := entry_a; First := true; Last := false |}]
              {| Entry := entry_b; First := false; Last := false |}
              [{| Entry := entry_a; First := false; Last := true |}]
              ["b, unfinished"] "no such field") as (_ & O & E);
    try reflexivity.
  split; [apply E; reflexivity | exact O].
Defined.

(** The theorem for one entry, and for three with a template that writes
    the identifier, [<] at the first entry and [>] at the last one. *)
Lemma template_views_witness :
  views (make_slice [entry_a]) = [{| Entry := entry_a; First := true; Last := true |}] /\
  out (snd (TimeEntriesPrintWithTemplate unit (fun _ => inl tt)
              (fun _ v => ([if First v then "<" else ""; ID (Entry v);
                            if Last v then ">" else ""], None))
              "{{.ID}}" (make_slice [entry_a; entry_b; entry_a])
              {| out := EmptyString : Buffer; clock := quarter_past_eleven |}))
  = "<a" ++ LF ++ "b" ++ LF ++ "a>" ++ LF.
Proof.
  split.
  - apply (proj1 (proj2 (proj2 (proj2
             (template_views (W := Buffer) unit (fun _ => inl tt) example_Execute
                "{{.ID}}" tt (make_slice [entry_a])
                {| out := EmptyString; clock := quarter_past_eleven |} eq_refl))))).
    reflexivity.
  - rewrite (proj2 (proj2 (proj2 (proj2 (proj2
               (template_views (W := Buffer) unit (fun _ => inl tt)
                  (fun _ v => ([if First v then "<" else ""; ID (Entry v);
                                if Last v then ">" else ""], None))
                  "{{.ID}}" tt (make_slice [entry_a; entry_b; entry_a])
                  {| out := EmptyString; clock := quarter_past_eleven |} eq_refl)))))
               "" quarter_past_eleven (fun _ _ => eq_refl)).
    reflexivity.
Defined.

(** ** The caller's memory *)

Import Memory.

Lemma preserved_refl m : preserved m m.
Proof. unfold preserved. auto. Qed.

Lemma preserved_trans m1 m2 m3 : preserved m1 m2 -> preserved m2 m3 -> preserved m1 m3.
Proof.
  unfold preserved. intros (B1 & P1 & T1 & U1) (B2 & P2 & T2 & U2).
  split; [congruence|]. auto.
Qed.

Lemma nth_error_app_Some {A : Type} (l l' : list A) a x :
  nth_error l a = Some x -> nth_error (l ++ l') a = Some x.
Proof.
  intros H. rewrite nth_error_app1; [exact H|]. apply nth_error_Some. congruence.
Qed.

Lemma new_User_preserved m u : preserved m (snd (new_User m u)).
Proof.
  unfold preserved, new_User. cbn. repeat split; auto.
  intros a x H. apply nth_error_app_Some, H.
Qed.

Lemma new_Task_preserved m t : preserved m (snd (new_Task m t)).
Proof.
  unfold preserved, new_Task. cbn. repeat split; auto.
  intros a x H. apply nth_error_app_Some, H.
Qed.

Section MemoryFacts.

Context {W : Type} {writer : Writer W}.
Variable time_Format : Time -> string -> string.
Variable json_Marshal : TimeEntry -> string.
Variable stdout_is_char_device : bool.
Variable ui_HEX : string -> option (list Z).
Variable term_GetSize : option Z.
Variable tw_Render : Tablewriter.Table -> list string.
Variable Template : Type.
Variable template_Parse : string -> Template + error.
Variable template_Execute : Template -> View -> list string * option error.
Variable res_ReadFile : string -> string + error.

Lemma csv_record_at_preserved te now m :
  preserved m (snd (csv_record_at time_Format te now m)).
Proof.
  destruct te as [i d iv p t u tags]. unfold csv_record_at.
  destruct u as [u|], t as [t|]; cbn [c_User c_Task cell_with_User cell_with_Task snd].
  - apply preserved_refl.
  - exact (new_Task_preserved m zero_Task).
  - exact (new_User_preserved m zero_User).
  - eapply preserved_trans; [exact (new_User_preserved m zero_User)|].
    exact (new_Task_preserved (snd (new_User m zero_User)) zero_Task).
Qed.

Lemma csv_loop_at_preserved n i m b (world : World) :
  preserved m (fst (fst (csv_loop_at time_Format n i m b world))).
Proof.
  revert i m b world. induction n as [|n IH]; intros i m b world; cbn [csv_loop_at].
  - apply preserved_refl.
  - destruct (nth_error (elements (backing m)) i) as [te|]; [|apply preserved_refl].
    unfold bind, on_clock, on_sink, time_Now, Now. cbn [out clock].
    pose proof (csv_record_at_preserved te (clock world O) m) as P.
    destruct (csv_record_at time_Format te (clock world O) m) as [record m1]. cbn [snd] in P.
    cbn [out clock].
    destruct (csv_Write record b (out world)) as [b1 w1].
    destruct (err b1).
    + exact P.
    + eapply preserved_trans; [exact P | apply IH].
Qed.

Lemma reading_preserved (r : @Renderer W) m (world : @World W) :
  fst (fst (reading r m world)) = m.
Proof. unfold reading, bind. destruct (r (collection m) world). reflexivity. Qed.

(** C9.  Whatever the renderer, the memory the caller handed over is as it
    was when the call returns: the backing array of the collection holds
    the same entries with the same pointers, and every project, task and
    user is at its address with its fields.  The empty [User] and [Task]
    that the CSV renderer substitutes are new objects, referred to by the
    loop's copy of the entry only. *)
Theorem renderers_preserve_memory (f : Format) (m : Memory) (world : World) :
  preserved m
    (fst (fst (render time_Format json_Marshal stdout_is_char_device ui_HEX term_GetSize
                 tw_Render Template template_Parse template_Execute res_ReadFile
                 f m world))).
Proof.
  destruct f; cbn [render]; try (rewrite reading_preserved; apply preserved_refl).
  unfold TimeEntriesCSVPrint_at, bind, on_sink.
  destruct (csv_Write csv_header _ (out world)) as [b0 w0].
  destruct (err b0); [apply preserved_refl|].
  pose proof (csv_loop_at_preserved (length (elements (backing m))) 0 m b0
                {| out := w0; clock := clock world |}) as P.
  destruct (csv_loop_at time_Format _ 0 m b0 _) as [[m1 b1] world1]. cbn [fst] in P.
  destruct (err b1); [exact P|].
  destruct (bufio_Flush b1 (out world1)). exact P.
Qed.

End MemoryFacts.

(** *** The two embeddings of the CSV renderer agree *)

Lemma extends_refl m : extends m m.
Proof.
  unfold extends. repeat split; try (exists []; rewrite app_nil_r); reflexivity.
Qed.

Lemma load_valid {A : Type} (l ext : list A) p :
  valid l p -> load (l ++ ext) p = load l p /\ (p <> None -> load l p <> None).
Proof.
  destruct p as [a|]; cbn; intros H; [|split; congruence].
  rewrite nth_error_app1 by exact H. split; [reflexivity|].
  intros _. apply nth_error_Some, H.
Qed.

Lemma load_fresh {A : Type} (l : list A) x : load (l ++ [x]) (Some (length l)) = Some x.
Proof. cbn. rewrite nth_error_app2, Nat.sub_diag by lia. reflexivity. Qed.

Section Refinement.

Context {W : Type} {writer : Writer W}.
Variable time_Format : Time -> string -> string.

Lemma csv_record_at_resolve m0 m c now :
  extends m0 m ->
  valid (projects m0) (c_Project c) -> valid (tasks m0) (c_Task c) ->
  valid (users m0) (c_User c) ->
  fst (csv_record_at time_Format c now m) = csv_record time_Format (resolve m0 c) now /\
  extends m0 (snd (csv_record_at time_Format c now m)).
Proof.
  intros (Eb & Ep & [ts Et] & [us Eu]) Vp Vt Vu.
  destruct c as [i d iv p t u tags]. cbn [c_Project c_Task c_User] in Vp, Vt, Vu.
  destruct (load_valid (projects m0) [] p Vp) as [_ Lp].
  destruct (load_valid (tasks m0) ts t Vt) as [Lt1 Lt2].
  destruct (load_valid (users m0) us u Vu) as [Lu1 Lu2].
  rewrite <- Et in Lt1. rewrite <- Eu in Lu1.
  unfold csv_record_at, csv_record, resolve.
  cbn [c_ID c_Description c_Interval c_Project c_Task c_User c_Tags
       ID Description Interval Project_of Task_of User_of Tags].
  rewrite Ep.
  assert (Xp : match p with
               | Some _ => deref zero_Project (load (projects m0) p)
               | None => zero_Project
               end =
               match load (projects m0) p with
               | Some q => q
               | None => zero_Project
               end).
  { destruct p as [a|]; [|reflexivity].
    destruct (load (projects m0) (Some a)) eqn:L; [reflexivity|].
    exfalso. apply Lp; [discriminate | reflexivity]. }
  rewrite Xp. clear Xp.
  destruct u as [a|], t as [a'|];
    cbn [new_User new_Task cell_with_User cell_with_Task c_ID c_Description c_Interval
         c_Project c_Task c_User c_Tags fst snd tasks users backing projects].
  - rewrite Lt1, Lu1.
    destruct (load (users m0) (Some a)) as [x|] eqn:Lx; [|exfalso; apply Lu2; congruence].
    destruct (load (tasks m0) (Some a')) as [y|] eqn:Ly; [|exfalso; apply Lt2; congruence].
    split; [reflexivity|].
    unfold extends. repeat split; eauto.
  - rewrite Lu1, load_fresh.
    destruct (load (users m0) (Some a)) as [x|] eqn:Lx; [|exfalso; apply Lu2; congruence].
    split; [reflexivity|].
    unfold extends. cbn. repeat split; eauto.
    exists (ts ++ [zero_Task])%list. rewrite Et, app_assoc. reflexivity.
  - rewrite Lt1, load_fresh.
    destruct (load (tasks m0) (Some a')) as [y|] eqn:Ly; [|exfalso; apply Lt2; congruence].
    split; [reflexivity|].
    unfold extends. cbn. repeat split; eauto.
    exists (us ++ [zero_User])%list. rewrite Eu, app_assoc. reflexivity.
  - rewrite !load_fresh.
    split; [reflexivity|].
    unfold extends. cbn. repeat split; eauto.
    + exists (ts ++ [zero_Task])%list. rewrite Et, app_assoc. reflexivity.
    + exists (us ++ [zero_User])%list. rewrite Eu, app_assoc. reflexivity.
Qed.

Lemma csv_loop_at_refines m0 n i m b (world : World) :
  well_formed m0 -> extends m0 m ->
  (n + i = length (elements (backing m0)))%nat ->
  let r := csv_loop_at time_Format n i m b world in
  (snd (fst r), snd r) =
  csv_loop time_Format (map (resolve m0) (skipn i (elements (backing m0)))) b world.
Proof.
  intros WF. revert i m b world. induction n as [|n IH]; intros i m b world Ex Len.
  - cbn. rewrite skipn_all2 by lia. reflexivity.
  - cbn [csv_loop_at]. destruct Ex as (Eb & Ex').
    rewrite Eb.
    destruct (nth_error (elements (backing m0)) i) as [te|] eqn:N;
      [|apply nth_error_None in N; lia].
    assert (Sk : skipn i (elements (backing m0)) = te :: skipn (S i) (elements (backing m0))).
    { clear -N. revert i N. induction (elements (backing m0)) as [|x l IHl]; intros i N.
      - destruct i; discriminate.
      - destruct i as [|i]; cbn in *; [congruence | apply IHl, N]. }
    rewrite Sk. cbn [map csv_loop]. unfold bind, on_clock, on_sink, time_Now, Now.
    cbn [out clock].
    destruct (WF te (nth_error_In _ _ N)) as (Vp & Vt & Vu).
    destruct (csv_record_at_resolve m0 m te (clock world O) (conj Eb Ex') Vp Vt Vu)
      as [R1 R2].
    destruct (csv_record_at time_Format te (clock world O) m) as [record m1].
    cbn [fst snd] in R1, R2. subst record. cbn [out clock].
    destruct (csv_Write _ b (out world)) as [b1 w1].
    destruct (err b1); [reflexivity|].
    apply IH; [exact R2 | lia].
Qed.

(** On a memory without dangling pointers, the CSV renderer run on the
    memory returns and writes what the renderer run on the collection
    does. *)
Lemma TimeEntriesCSVPrint_at_refines m (world : World) :
  well_formed m ->
  let r := TimeEntriesCSVPrint_at time_Format m world in
  (snd (fst r), snd r) = TimeEntriesCSVPrint time_Format (collection m) world.
Proof.
  intros WF. unfold TimeEntriesCSVPrint_at, TimeEntriesCSVPrint, bind, on_sink. cbn zeta.
  destruct (csv_Write csv_header _ (out world)) as [b0 w0].
  destruct (err b0); [reflexivity|].
  pose proof (csv_loop_at_refines m (length (elements (backing m))) 0 m b0
                {| out := w0; clock := clock world |} WF (extends_refl m)
                (Nat.add_0_r _)) as R.
  cbn zeta in R. cbn [skipn] in R.
  assert (C : elements (collection m) = map (resolve m) (elements (backing m)))
    by (unfold collection; destruct (backing m); reflexivity).
  rewrite C, <- R.
  destruct (csv_loop_at time_Format _ 0 m b0 _) as [[m1 b1] world1]. cbn [fst snd].
  destruct (err b1); [reflexivity|].
  destruct (bufio_Flush b1 (out world1)). reflexivity.
Qed.

End Refinement.

(** ** Report flags *)

Module ReportFlagsFacts.
Import ReportFlags.




(** The values of [TestReportBillableFlagsChecks]. *)
Lemma Check_billable_flags :
  (exists e, Check (flags true true "" "") = Some e /\
             in_order ["can't be used together"; "billable"; "not-billable"] (message e) = true) /\
  Check (flags false true "" "") = None /\
  Check (flags true false "" "") = None.
Proof. split; [eexists; split; reflexivity | split; reflexivity]. Qed.

End ReportFlagsFacts.

(** * Further properties *)

(** ** The total of a collection *)

Lemma wrap_add_l a b : Int64.wrap (Int64.wrap a + b) = Int64.wrap (a + b).
Proof.
  unfold Int64.wrap. f_equal.
  replace ((a + 9223372036854775808) mod 18446744073709551616 - 9223372036854775808 + b +
           9223372036854775808)
    with ((a + 9223372036854775808) mod 18446744073709551616 + b) by lia.
  rewrite Zplus_mod_idemp_l. f_equal. lia.
Qed.

Lemma wrap_range z : Int64.min_int <= Int64.wrap z <= Int64.max_int.
Proof.
  unfold Int64.wrap, Int64.min_int, Int64.max_int.
  pose proof (Z.mod_pos_bound (z + 9223372036854775808) 18446744073709551616). lia.
Qed.

Lemma wrap_exact z : Int64.min_int <= z <= Int64.max_int -> Int64.wrap z = z.
Proof.
  unfold Int64.wrap, Int64.min_int, Int64.max_int. intros H.
  rewrite Z.mod_small; lia.
Qed.

Lemma fold_add_wrap ds s :
  fold_left Int64.add ds (Int64.wrap s) = Int64.wrap (s + Z_sum ds).
Proof.
  revert s. induction ds as [|d ds IH]; intros s; cbn [fold_left Z_sum fold_right].
  - f_equal. lia.
  - unfold Int64.add at 2. rewrite wrap_add_l, IH. f_equal. unfold Z_sum. lia.
Qed.

Lemma int64_sum_wrap ds : int64_sum ds = Int64.wrap (Z_sum ds).
Proof.
  unfold int64_sum. change 0 with (Int64.wrap 0) at 1. rewrite fold_add_wrap. reflexivity.
Qed.

Lemma Z_sum_app a b : Z_sum (a ++ b)%list = Z_sum a + Z_sum b.
Proof. unfold Z_sum. induction a as [|x a IH]; cbn [app fold_right]; lia. Qed.

Lemma Z_sum_Permutation a b : Permutation a b -> Z_sum a = Z_sum b.
Proof. unfold Z_sum. induction 1; cbn [fold_right]; lia. Qed.

Lemma timed_map_app {A B : Type} (f : Time -> A -> B) a b c :
  timed_map f (a ++ b)%list c = (timed_map f a c ++ timed_map f b (later (length a) c))%list.
Proof.
  revert c. induction a as [|x a IH]; intros c; cbn [app timed_map length].
  - reflexivity.
  - rewrite IH. reflexivity.
Qed.

Lemma timed_map_closed l c c' :
  Forall (fun t => End (Interval t) <> None) l ->
  timed_map elapsed l c = timed_map elapsed l c'.
Proof.
  intros H. revert c c'. induction H as [|t l Ht _ IH]; intros c c'; cbn [timed_map].
  - reflexivity.
  - f_equal; [|apply IH]. unfold elapsed, finish. destruct (End (Interval t)); congruence.
Qed.

(** X1.  The total is the arithmetic sum of the durations of the entries
    brought into [int64] by wrap-around: it never leaves the range of
    [int64], it differs from the arithmetic sum by a multiple of [2^64], and
    it is the arithmetic sum whenever that sum is in the range. *)
Theorem sumTimeEntriesDuration_wraps (entries : slice TimeEntry) (c : Clock) :
  let ds := timed_map elapsed (elements entries) c in
  let total := fst (sumTimeEntriesDuration entries c) in
  total = Int64.wrap (Z_sum ds) /\
  Int64.min_int <= total <= Int64.max_int /\
  (Z_sum ds - total) mod 2 ^ 64 = 0 /\
  (Int64.min_int <= Z_sum ds <= Int64.max_int -> total = Z_sum ds).
Proof.
  cbv zeta. rewrite sumTimeEntriesDuration_spec. cbn [fst]. rewrite int64_sum_wrap.
  split; [reflexivity|]. split; [apply wrap_range|]. split; [|apply wrap_exact].
  unfold Int64.wrap.
  set (s := Z_sum _).
  change (2 ^ 64) with 18446744073709551616.
  pose proof (Z.div_mod (s + 9223372036854775808) 18446744073709551616 ltac:(lia)) as E.
  replace (s - ((s + 9223372036854775808) mod 18446744073709551616 - 9223372036854775808))
    with (((s + 9223372036854775808) / 18446744073709551616) * 18446744073709551616) by lia.
  apply Z.mod_mul. lia.
Qed.

(** X2.  When every entry of the collection has an end, the total does not
    depend on the clock. *)
Theorem sumTimeEntriesDuration_closed (entries : slice TimeEntry) (c c' : Clock) :
  Forall (fun t => End (Interval t) <> None) (elements entries) ->
  fst (sumTimeEntriesDuration entries c) = fst (sumTimeEntriesDuration entries c').
Proof.
  intros H. rewrite !sumTimeEntriesDuration_spec. cbn [fst].
  rewrite (timed_map_closed _ c c' H). reflexivity.
Qed.

(** Two closed entries, at two clocks. *)
Lemma sumTimeEntriesDuration_closed_witness :
  fst (sumTimeEntriesDuration (make_slice [entry_a; entry_a]) (fun _ => 0)) =
  fst (sumTimeEntriesDuration (make_slice [entry_a; entry_a]) quarter_past_eleven).
Proof.
  apply (sumTimeEntriesDuration_closed (make_slice [entry_a; entry_a])).
  repeat constructor; discriminate.
Defined.

(** X3.  With one reading of the clock for all entries, the total does not
    depend on the order of the entries, wrap-around included. *)
Theorem sumTimeEntriesDuration_Permutation (l l' : list TimeEntry) (now : Time) (c : Clock) :
  (forall n, c n = now) -> Permutation l l' ->
  fst (sumTimeEntriesDuration (make_slice l) c) =
  fst (sumTimeEntriesDuration (make_slice l') c).
Proof.
  intros Hc P. rewrite !sumTimeEntriesDuration_spec. cbn [fst elements].
  rewrite !int64_sum_wrap, !(timed_map_const _ _ _ now Hc).
  f_equal. apply Z_sum_Permutation, Permutation_map, P.
Qed.

(** The entries of the scenario, in both orders. *)
Lemma sumTimeEntriesDuration_Permutation_witness :
  fst (sumTimeEntriesDuration (make_slice [entry_a; entry_b]) quarter_past_eleven) =
  fst (sumTimeEntriesDuration (make_slice [entry_b; entry_a]) quarter_past_eleven).
Proof.
  apply (sumTimeEntriesDuration_Permutation _ _ (11 * Hour + 15 * Minute)).
  - reflexivity.
  - apply perm_swap.
Defined.

(** X4.  The total of a collection in two parts is the [int64] sum of the
    totals of the parts, the second taken where the clock stands after the
    first. *)
Theorem sumTimeEntriesDuration_app (l1 l2 : list TimeEntry) (c : Clock) :
  fst (sumTimeEntriesDuration (make_slice (l1 ++ l2)%list) c) =
  Int64.add (fst (sumTimeEntriesDuration (make_slice l1) c))
            (fst (sumTimeEntriesDuration (make_slice l2)
                    (snd (sumTimeEntriesDuration (make_slice l1) c)))).
Proof.
  rewrite !sumTimeEntriesDuration_spec. cbn [fst snd elements].
  rewrite timed_map_app, !int64_sum_wrap, Z_sum_app.
  unfold Int64.add. rewrite wrap_add_l.
  rewrite (Z.add_comm (Z_sum _) (Int64.wrap _)), wrap_add_l. f_equal. lia.
Qed.

(** ** What [durationToString] keeps of a duration *)


Lemma length_append (a b : string) :
  String.length (a ++ b) = (String.length a + String.length b)%nat.
Proof. induction a as [|c a IH]; cbn; [|rewrite IH]; reflexivity. Qed.

Lemma append_inj (a a' b b' : string) :
  String.length a = String.length a' -> a ++ b = a' ++ b' -> a = a' /\ b = b'.
Proof.
  revert a'. induction a as [|c a IH]; intros [|c' a'] L E; try discriminate.
  - split; [reflexivity|exact E].
  - cbn in L, E. injection L as L. injection E as -> E.
    destruct (IH a' L E) as [-> ->]. split; reflexivity.
Qed.

Lemma itoa_inj z1 z2 : Fmt.itoa z1 = Fmt.itoa z2 -> z1 = z2.
Proof.
  unfold Fmt.itoa. intros E.
  assert (N : forall z, NilZero.int_of_string (NilZero.string_of_int (Z.to_int z))
                        = Some (Z.to_int z)).
  { intros z. apply NilZero.isi; destruct z; cbn; try discriminate;
      intros H; injection H as H; exact (Unsigned.to_uint_nonnil _ H). }
  pose proof (N z1) as N1. rewrite E, N in N1. injection N1 as N1.
  rewrite <- (DecimalZ.of_to z1), <- (DecimalZ.of_to z2). f_equal. symmetry. exact N1.
Qed.

Lemma digit_char_inj x y :
  (0 <= x < 10)%Z -> (0 <= y < 10)%Z -> digit_char x = digit_char y -> x = y.
Proof.
  intros Hx Hy E. unfold digit_char in E. apply (f_equal nat_of_ascii) in E.
  rewrite !nat_ascii_embedding in E by lia. lia.
Qed.

Lemma two_digits_inj m1 m2 :
  (0 <= m1 < 100)%Z -> (0 <= m2 < 100)%Z -> two_digits m1 = two_digits m2 -> m1 = m2.
Proof.
  intros H1 H2 E. unfold two_digits in E. injection E as Ea Eb.
  apply digit_char_inj in Ea;
    [|split; [apply Z.div_pos|apply Z.div_lt_upper_bound]; lia
     |split; [apply Z.div_pos|apply Z.div_lt_upper_bound]; lia].
  apply digit_char_inj in Eb; [|apply Z.mod_pos_bound; lia|apply Z.mod_pos_bound; lia].
  rewrite (Z.div_mod m1 10), (Z.div_mod m2 10) by lia. lia.
Qed.

Lemma HMMSS_inj s1 s2 : (0 <= s1)%Z -> (0 <= s2)%Z -> HMMSS s1 = HMMSS s2 -> s1 = s2.
Proof.
  intros H1 H2 E. unfold HMMSS in E.
  assert (L : String.length (Fmt.itoa (s1 / 3600)) = String.length (Fmt.itoa (s2 / 3600))).
  { apply (f_equal String.length) in E. rewrite !length_append in E. cbn in E. lia. }
  destruct (append_inj _ _ _ _ L E) as [Eh E1].
  apply itoa_inj in Eh.
  assert (Em : two_digits ((s1 / 60) mod 60) = two_digits ((s2 / 60) mod 60)).
  { unfold two_digits in *. injection E1 as -> -> _ _. reflexivity. }
  assert (Es : two_digits (s1 mod 60) = two_digits (s2 mod 60)).
  { unfold two_digits in *. injection E1 as _ _ -> ->. reflexivity. }
  apply two_digits_inj in Em; [|pose proof (Z.mod_pos_bound (s1 / 60) 60); lia
                               |pose proof (Z.mod_pos_bound (s2 / 60) 60); lia].
  apply two_digits_inj in Es; [|pose proof (Z.mod_pos_bound s1 60); lia
                               |pose proof (Z.mod_pos_bound s2 60); lia].
  assert (F : forall s, (s = 3600 * (s / 3600) + 60 * ((s / 60) mod 60) + s mod 60)%Z).
  { intros s. pose proof (Z.div_mod s 60 ltac:(lia)) as A.
    pose proof (Z.div_mod (s / 60) 60 ltac:(lia)) as B.
    rewrite Z.div_div in B by lia. change (60 * 60)%Z with 3600%Z in B. lia. }
  rewrite (F s1), (F s2). lia.
Qed.

(** X5.  Below 4096 hours the string tells the duration to the second, and
    nothing finer: two durations are rendered alike exactly when they hold the
    same number of whole seconds. *)
Theorem durationToString_whole_seconds (d1 d2 : Duration) :
  (0 <= d1 < 4096 * Hour)%Z -> (0 <= d2 < 4096 * Hour)%Z ->
  (durationToString d1 = durationToString d2 <-> (d1 / Second = d2 / Second)%Z).
Proof.
  intros H1 H2. rewrite !durationToString_exact by assumption. split.
  - apply HMMSS_inj; apply Z.div_pos; unfold Second; lia.
  - intros ->. reflexivity.
Qed.

(** A minute and a half, with and without all but a second more. *)
Lemma durationToString_whole_seconds_witness :
  durationToString (90 * Second + 999999999) = durationToString (90 * Second).
Proof.
  apply (proj2 (durationToString_whole_seconds (90 * Second + 999999999) (90 * Second)
                  ltac:(unfold Second, Hour; lia) ltac:(unfold Second, Hour; lia))).
  reflexivity.
Defined.

(** X6.  A negative duration above -4096 hours is rendered with the sign on
    each field that is not zero: the hours, the minutes and the seconds of its
    magnitude, each negated. *)
Theorem durationToString_negated (d : Duration) :
  (0 <= d < 4096 * Hour)%Z ->
  durationToString (- d) =
    Fmt.fmt_d (- (d / Hour)) ++ ":" ++
    Fmt.fmt_02d (- ((d / Minute) mod 60)) ++ ":" ++
    Fmt.fmt_02d (- ((d / Second) mod 60)).
Proof.
  intros H. unfold durationToString.
  destruct (whole_parts_opp d) as (Eh & Em & Es).
  destruct (whole_parts_exact d H) as (Xh & Xm & Xs).
  rewrite Eh, Em, Es, Xh, Xm, Xs.
  rewrite !rem_60_opp by (apply Z.div_pos; unfold Minute, Second; lia).
  reflexivity.
Qed.

(** An hour, thirty minutes and five seconds below zero. *)
Lemma durationToString_negated_witness :
  durationToString (- (90 * Minute + 5 * Second)) = "-1:-30:-5".
Proof.
  rewrite (durationToString_negated (90 * Minute + 5 * Second)
             ltac:(unfold Minute, Second, Hour; lia)).
  reflexivity.
Defined.

(** X7.  Up to the largest duration the hours written are the whole hours of
    the duration or one more, never less and never further off; the conversion
    to [float64] decides which. *)
Theorem durationToString_hours (d : Duration) :
  (0 <= d <= maxDuration)%Z ->
  exists h rest,
    durationToString d = Fmt.itoa h ++ ":" ++ rest /\
    (d / Hour <= h <= d / Hour + 1)%Z.
Proof.
  intros H. exists (Float64.to_int64 (Hours d)). eexists. split; [reflexivity|].
  apply whole_parts_bounds. unfold maxDuration, Int64.max_int in H. lia.
Qed.

(** The last nanosecond of the hour after 4096 hours. *)
Lemma durationToString_hours_witness :
  exists h rest,
    durationToString (4096 * Hour + 59 * Minute + 59 * Second + 999999999)
      = Fmt.itoa h ++ ":" ++ rest /\
    ((4096 * Hour + 59 * Minute + 59 * Second + 999999999) / Hour <= h
     <= (4096 * Hour + 59 * Minute + 59 * Second + 999999999) / Hour + 1)%Z.
Proof.
  apply (durationToString_hours (4096 * Hour + 59 * Minute + 59 * Second + 999999999)).
  unfold maxDuration, Int64.max_int, Hour, Minute, Second. lia.
Defined.

(** ** The options of the table *)


Lemma apply_opts_app a b options :
  apply_opts (a ++ b) options =
  match apply_opts a options with
  | inl options' => apply_opts b options'
  | inr e => inr e
  end.
Proof.
  revert options. induction a as [|o a IH]; intros options; cbn [app apply_opts].
  - reflexivity.
  - destruct (o options) as [options' [e|]]; [reflexivity|apply IH].
Qed.

(** X8.  The options of the package never fail, and a list of them amounts
    to this: tasks are shown when [WithShowTasks] is in the list, the total
    when [WithTotalDuration] is, however often and wherever; the time format
    is that of the last [WithTimeFormat], or the time-only format. *)
Theorem options_compose (os : list Opt) :
  apply_opts (map opt os) default_options =
  inl {| ShowTasks := existsb is_OptShowTasks os;
         ShowTotalDuration := existsb is_OptTotalDuration os;
         TimeFormat := last_format os TIME_FORMAT_SIMPLE |}.
Proof.
  assert (G : forall options,
             apply_opts (map opt os) options =
             inl {| ShowTasks := ShowTasks options || existsb is_OptShowTasks os;
                    ShowTotalDuration :=
                      ShowTotalDuration options || existsb is_OptTotalDuration os;
                    TimeFormat := last_format os (TimeFormat options) |}).
  { induction os as [|o os IH]; intros options.
    - cbn. rewrite !orb_false_r. destruct options; reflexivity.
    - cbn [map apply_opts].
      destruct o; cbn [opt WithTimeFormat WithShowTasks WithTotalDuration];
        rewrite IH; cbn [ShowTasks ShowTotalDuration TimeFormat existsb is_OptShowTasks
                           is_OptTotalDuration last_format fold_left orb];
        rewrite ?orb_true_r, ?orb_false_l; reflexivity. }
  rewrite G. reflexivity.
Qed.

Section TableFacts.

Context {W : Type} {writer : Writer W}.
Variable time_Format : Time -> string -> string.
Variable stdout_is_char_device : bool.
Variable ui_HEX : string -> option (list Z).
Variable term_GetSize : option Z.
Variable tw_Render : Tablewriter.Table -> list string.

(** X9.  The first option that fails ends the call: the options after it are
    not applied, and the renderer returns its error without reading the clock
    or writing. *)
Theorem TimeEntriesPrint_failing_option
    (applied : list TimeEntryOutputOpt) (failing : TimeEntryOutputOpt)
    (rest : list TimeEntryOutputOpt) (options : TimeEntryOutputOptions) (e : error)
    (entries : slice TimeEntry) (world : World) :
  apply_opts applied default_options = inl options ->
  snd (failing options) = Some e ->
  TimeEntriesPrint time_Format stdout_is_char_device ui_HEX term_GetSize tw_Render
    (applied ++ failing :: rest) entries world = (Some e, world).
Proof.
  intros Ha Hf. unfold TimeEntriesPrint.
  rewrite apply_opts_app, Ha. cbn [apply_opts].
  destruct (failing options) as [options' r]. cbn [snd] in Hf. subst r. reflexivity.
Qed.

Lemma set_nth_length {A : Type} i (v : A) l : length (set_nth i v l) = length l.
Proof.
  revert i. induction l as [|a l IH]; intros [|i]; cbn; try reflexivity.
  rewrite IH. reflexivity.
Qed.

Lemma table_header_length options : length (table_header options) = 7%nat.
Proof. unfold table_header. destruct (ShowTasks options); reflexivity. Qed.

Lemma table_line_length options t now :
  length (fst (table_line time_Format stdout_is_char_device ui_HEX options t now)) = 7%nat.
Proof.
  unfold table_line.
  destruct (Project_of t); destruct (ShowTasks options); [destruct (Task_of t) | | destruct (Task_of t) |];
    reflexivity.
Qed.

Lemma build_table_settings options entries c :
  let tw := fst (build_table time_Format stdout_is_char_device ui_HEX term_GetSize
                   options entries c) in
  Tablewriter.header tw = table_header options /\
  Tablewriter.rowLine tw = true /\
  Tablewriter.colWidth tw = option_map (fun width => Z.quot width 3) term_GetSize.
Proof.
  unfold build_table, bind. rewrite table_loop_spec.
  destruct (ShowTotalDuration options).
  - rewrite sumTimeEntriesDuration_spec. destruct term_GetSize; cbn; auto.
  - destruct term_GetSize; cbn; auto.
Qed.

(** X10.  The table has seven columns, with the task or without: the header
    has seven cells and so has every line, the footer included; there is one
    line for each entry, and the footer when the total is asked for. Lines are
    ruled off, and a column is at most a third of the terminal wide when the
    width of the terminal is known. *)
Theorem table_shape (options : TimeEntryOutputOptions) (entries : slice TimeEntry)
    (c : Clock) :
  let tw := fst (build_table time_Format stdout_is_char_device ui_HEX term_GetSize
                   options entries c) in
  length (Tablewriter.header tw) = 7%nat /\
  length (Tablewriter.lines tw) =
    (length (elements entries) + if ShowTotalDuration options then 1 else 0)%nat /\
  Forall (fun l => length (fst l) = 7%nat) (Tablewriter.lines tw) /\
  Tablewriter.rowLine tw = true /\
  Tablewriter.colWidth tw = option_map (fun width => Z.quot width 3) term_GetSize.
Proof.
  cbv zeta.
  destruct (build_table_settings options entries c) as (Eh & Er & Ew).
  rewrite Eh.
  pose proof (build_table_lines time_Format stdout_is_char_device ui_HEX term_GetSize
                options entries c) as L.
  cbv zeta in L. rewrite L. clear L.
  split; [apply table_header_length|]. split; [|split; [|split; [exact Er|exact Ew]]].
  - rewrite length_app, timed_map_length. destruct (ShowTotalDuration options); reflexivity.
  - apply Forall_app. split.
    + apply Forall_timed_map. intros now t. apply table_line_length.
    + destruct (ShowTotalDuration options); constructor; [|constructor].
      cbn [fst]. unfold total_line. rewrite !set_nth_length, repeat_length.
      apply table_header_length.
Qed.

(** X11.  When tasks are shown the task takes the place of the description:
    the sixth column is headed [Task] and holds the name of the task and,
    in parentheses, its identifier, or nothing when the entry has no task,
    and the line of an entry does not depend on its description.  When
    tasks are not shown that column is headed [Description] and holds the
    description, and the line does not depend on the task. *)
Theorem table_line_without_description
    (options : TimeEntryOutputOptions) (t : TimeEntry) (now : Time)
    (d : string) (other : option Task) :
  (ShowTasks options = true ->
   nth 5 (table_header options) "?" = "Task" /\
   nth 5 (fst (table_line time_Format stdout_is_char_device ui_HEX options t now)) "?" =
     match Task_of t with
     | Some task => Task_Name task ++ " (" ++ Task_ID task ++ ")"
     | None => ""
     end /\
   table_line time_Format stdout_is_char_device ui_HEX options (with_Description t d) now =
   table_line time_Format stdout_is_char_device ui_HEX options t now) /\
  (ShowTasks options = false ->
   nth 5 (table_header options) "?" = "Description" /\
   nth 5 (fst (table_line time_Format stdout_is_char_device ui_HEX options t now)) "?" =
     Description t /\
   table_line time_Format stdout_is_char_device ui_HEX options (with_Task t other) now =
   table_line time_Format stdout_is_char_device ui_HEX options t now).
Proof.
  split; intros H; unfold table_header, table_line; rewrite H;
    cbn [with_Description with_Task ID Description Interval Project_of Task_of User_of Tags].
  - split; [reflexivity|].
    split; destruct (Project_of t); destruct (Task_of t); reflexivity.
  - split; [reflexivity|].
    split; destruct (Project_of t); reflexivity.
Qed.

Lemma table_line_colors options t now :
  snd (table_line time_Format stdout_is_char_device ui_HEX options t now) =
  set_nth 4 (match Project_of t with
                      | Some p => colorToTermColor stdout_is_char_device ui_HEX (Color p)
                      | None => []
                      end) (repeat [] 7).
Proof.
  unfold table_line. rewrite table_header_length.
  destruct (Project_of t); destruct (ShowTasks options); [destruct (Task_of t) | | destruct (Task_of t) |];
    reflexivity.
Qed.

End TableFacts.

Lemma nth_set_nth_other {A : Type} (j k : nat) (v d : A) (l : list A) :
  j <> k -> nth j (set_nth k v l) d = nth j l d.
Proof.
  revert j k. induction l as [|a l IH]; intros [|j] [|k] H; cbn; try reflexivity;
    try congruence.
  apply IH. congruence.
Qed.

(** X12.  The line of an entry carries seven lists of colors, all empty but
    the project's, the fifth.  That one holds 38, 2 and the values that
    [ui.HEX] gives for the color of the project without its first byte,
    when the entry has a project, the color is not empty, the standard
    output is a character device and the color parses; it is empty
    otherwise.  The footer carries no colors, and when the standard output
    is not a character device no cell of any line is colored. *)
Theorem table_colors (time_Format : Time -> string -> string)
    (stdout_is_char_device : bool) (ui_HEX : string -> option (list Z))
    (term_GetSize : option Z) (options : TimeEntryOutputOptions)
    (entries : slice TimeEntry) (c : Clock) :
  let lines :=
    Tablewriter.lines
      (fst (build_table time_Format stdout_is_char_device ui_HEX term_GetSize
              options entries c)) in
  (forall i t, nth_error (elements entries) i = Some t ->
     exists (cells : list string) (colors : list Tablewriter.Colors),
       nth_error lines i = Some (cells, colors) /\
       length colors = 7%nat /\
       (forall j, j <> 4%nat -> nth j colors [] = []) /\
       nth 4 colors [] =
         match Project_of t with
         | None => []
         | Some p =>
             if (String.length (Color p) =? 0)%nat then []
             else if stdout_is_char_device then
               match ui_HEX (substring 1 (String.length (Color p) - 1) (Color p)) with
               | Some values => 38 :: 2 :: values
               | None => []
               end
             else []
         end) /\
  (forall line, nth_error lines (length (elements entries)) = Some line ->
     snd line = []) /\
  Forall (fun l : list string * list Tablewriter.Colors =>
            forall i, nth i (snd l) [] <> [] ->
                   i = 4%nat /\ exists values, nth i (snd l) [] = 38 :: 2 :: values)
    lines /\
  Forall (fun l : list string * list Tablewriter.Colors =>
            forall i, nth i (snd l) [] = [])
    (Tablewriter.lines
       (fst (build_table time_Format false ui_HEX term_GetSize options entries c))).
Proof.
  intros lines. subst lines.
  pose proof (build_table_lines time_Format stdout_is_char_device ui_HEX term_GetSize
                options entries c) as L.
  pose proof (build_table_lines time_Format false ui_HEX term_GetSize
                options entries c) as L'.
  cbv zeta in L, L'. rewrite L, L'. clear L L'.
  split; [|split; [|split]].
  - intros i t H.
    assert (Hi : (i < length (elements entries))%nat)
      by (apply nth_error_Some; congruence).
    rewrite nth_error_app1 by (rewrite timed_map_length; exact Hi).
    rewrite (timed_map_nth _ _ c i t H).
    pose proof (table_line_colors time_Format stdout_is_char_device ui_HEX options t (c i))
      as E.
    destruct (table_line time_Format stdout_is_char_device ui_HEX options t (c i))
      as [cells colors].
    cbn [snd] in E. exists cells, colors. split; [reflexivity|]. subst colors.
    split; [rewrite set_nth_length; reflexivity|]. split.
    + intros j Hj. rewrite nth_set_nth_other by exact Hj.
      destruct j as [|[|[|[|[|[|[|j]]]]]]]; cbn; try reflexivity. destruct j; reflexivity.
    + cbn [repeat set_nth nth]. destruct (Project_of t) as [p|]; [|reflexivity].
      unfold colorToTermColor.
      destruct (String.length (Color p) =? 0)%nat; [reflexivity|].
      destruct stdout_is_char_device; reflexivity.
  - intros line H.
    rewrite nth_error_app2 in H by (rewrite timed_map_length; apply Nat.le_refl).
    rewrite timed_map_length, Nat.sub_diag in H.
    destruct (ShowTotalDuration options); cbn in H; [|discriminate].
    injection H as <-. reflexivity.
  - apply Forall_app; split.
    + apply Forall_timed_map. intros now t i. cbv beta.
      rewrite (table_line_colors time_Format stdout_is_char_device ui_HEX options t now).
      destruct i as [|[|[|[|[|[|[|i]]]]]]]; cbn; try congruence; [|destruct i; cbn; congruence].
      intros H. split; [reflexivity|].
      destruct (Project_of t) as [p|]; [|congruence].
      unfold colorToTermColor in *.
      destruct (String.length (Color p) =? 0)%nat; [congruence|].
      destruct (negb stdout_is_char_device); [congruence|].
      destruct (ui_HEX _) as [values|]; [|congruence].
      exists values. reflexivity.
    + destruct (ShowTotalDuration options); constructor; [|constructor].
      intros [|i]; cbn; congruence.
  - apply Forall_app; split.
    + apply Forall_timed_map. intros now t i. cbv beta.
      rewrite (table_line_colors time_Format false ui_HEX options t now).
      assert (E : forall hex, colorToTermColor false ui_HEX hex = []).
      { intros hex. unfold colorToTermColor. destruct (String.length hex =? 0)%nat; reflexivity. }
      destruct (Project_of t) as [p|]; [rewrite E|];
        destruct i as [|[|[|[|[|[|[|i]]]]]]]; cbn; try reflexivity; destruct i; reflexivity.
    + destruct (ShowTotalDuration options); constructor; [|constructor].
      intros [|i]; reflexivity.
Qed.

(** An option that fails between two that do not. *)
Lemma TimeEntriesPrint_failing_option_witness :
  TimeEntriesPrint (fun _ _ => EmptyString) false (fun _ => None) None (fun _ => [])
    ([WithShowTasks] ++ (fun o => (o, Some "no such option")) :: [WithTotalDuration])
    (make_slice [entry_a]) {| out := EmptyString : Buffer; clock := quarter_past_eleven |}
  = (Some "no such option",
     {| out := EmptyString : Buffer; clock := quarter_past_eleven |}).
Proof.
  apply (TimeEntriesPrint_failing_option (fun _ _ => EmptyString) false (fun _ => None) None
           (fun _ => []) [WithShowTasks] (fun o => (o, Some "no such option"))
           [WithTotalDuration]
           {| ShowTasks := true; ShowTotalDuration := false;
              TimeFormat := TIME_FORMAT_SIMPLE |}); reflexivity.
Defined.

(** An entry with a description and a task, tasks shown. *)
Lemma table_line_without_description_witness :
  let options := {| ShowTasks := true; ShowTotalDuration := false;
                    TimeFormat := TIME_FORMAT_SIMPLE |} in
  let entry := {| ID := "a"; Description := "writing the report";
                  Interval := {| Start := 10 * Hour; End := Some (10 * Hour + 30 * Minute) |};
                  Project_of := None;
                  Task_of := Some {| Task_ID := "t1"; Task_Name := "review" |};
                  User_of := None; Tags := [] |} in
  fst (table_line (fun _ _ => EmptyString) false (fun _ => None) options entry 0) =
  ["a"; ""; ""; "0:30:00"; ""; "review (t1)"; ""] /\
  nth 5 (fst (table_line (fun _ _ => EmptyString) false (fun _ => None) options entry 0)) "?"
  = "review (t1)".
Proof.
  cbv zeta. split; [reflexivity|].
  rewrite (proj1 (proj2 (proj1 (table_line_without_description
                                  (fun _ _ => EmptyString) false (fun _ => None)
                                  {| ShowTasks := true; ShowTotalDuration := false;
                                     TimeFormat := TIME_FORMAT_SIMPLE |}
                                  {| ID := "a"; Description := "writing the report";
                                     Interval := {| Start := 10 * Hour;
                                                    End := Some (10 * Hour + 30 * Minute) |};
                                     Project_of := None;
                                     Task_of := Some {| Task_ID := "t1";
                                                        Task_Name := "review" |};
                                     User_of := None; Tags := [] |}
                                  0 "" None) eq_refl))).
  reflexivity.
Defined.


(** ** The buffer of the CSV renderer *)

Section Buffered.

Context {W : Type} {writer : Writer W}.
Variable time_Format : Time -> string -> string.

Lemma bufio_WriteByte_room ch b (o : W) :
  err b = None -> (String.length (buf b) < defaultBufSize)%nat ->
  bufio_WriteByte ch b o = ({| buf := buf b ++ String ch ""; err := None |}, o).
Proof.
  intros E L. unfold bufio_WriteByte, bind. rewrite E.
  destruct (Nat.leb_spec defaultBufSize (String.length (buf b))) as [H|H]; [lia|].
  unfold ret. rewrite E. reflexivity.
Qed.

Lemma bufio_WriteString_room s b (o : W) :
  err b = None -> (String.length (buf b) + String.length s <= defaultBufSize)%nat ->
  bufio_WriteString s b o = ({| buf := buf b ++ s; err := None |}, o).
Proof.
  revert b. induction s as [|ch s IH]; intros b E L.
  - cbn. rewrite append_nil_r. destruct b. cbn in E. subst. reflexivity.
  - cbn [bufio_WriteString]. unfold bind.
    cbn [String.length] in L.
    rewrite bufio_WriteByte_room by (try assumption; lia).
    rewrite IH.
    + cbn [buf]. rewrite append_assoc. reflexivity.
    + reflexivity.
    + cbn [buf]. rewrite length_append. cbn. lia.
Qed.

Lemma csv_loop_room l b o c :
  let records := timed_map (fun now te => csv_record time_Format te now) l c in
  err b = None ->
  (String.length (buf b) + String.length (String.concat "" (map Csv.encode_record records))
   <= defaultBufSize)%nat ->
  csv_loop time_Format l b {| out := o; clock := c |} =
  ({| buf := buf b ++ String.concat "" (map Csv.encode_record records); err := None |},
   {| out := o; clock := later (length l) c |}).
Proof.
  revert b c. induction l as [|te l IH]; intros b c records E L; subst records.
  - cbn. rewrite append_nil_r. destruct b. cbn in E. subst. reflexivity.
  - cbn [timed_map map] in L. rewrite concat_cons, length_append in L.
    cbn [csv_loop timed_map map length]. rewrite concat_cons.
    unfold bind, on_clock, on_sink, time_Now, Now, csv_Write. cbn [out clock].
    rewrite bufio_WriteString_room by (try assumption; lia). cbn [err].
    rewrite IH.
    + cbn [buf]. rewrite append_assoc. reflexivity.
    + reflexivity.
    + cbn [buf]. rewrite length_append. cbn zeta.
      change (fun n : nat => c (S n)) with (later 1 c). lia.
Qed.

(** X13.  A report of up to 4096 bytes reaches the sink in one write, made
    when all entries have been read: the whole output, header first; the
    renderer returns what that write returns, and has read the clock once for
    every entry. *)
Theorem TimeEntriesCSVPrint_one_write (entries : slice TimeEntry) (world : World) :
  let output :=
    String.concat ""
      (map Csv.encode_record
         (csv_header :: timed_map (fun now te => csv_record time_Format te now)
                          (elements entries) (clock world))) in
  (String.length output <= defaultBufSize)%nat ->
  TimeEntriesCSVPrint time_Format entries world =
  (snd (Write (out world) output),
   {| out := fst (Write (out world) output);
      clock := later (length (elements entries)) (clock world) |}).
Proof.
  intros output L. subst output. cbn [map] in *. rewrite concat_cons in *.
  rewrite length_append in L.
  unfold TimeEntriesCSVPrint, bind, on_sink at 1, csv_Write at 1.
  rewrite bufio_WriteString_room
    by (try reflexivity; cbn [buf]; change (String.length "") with 0%nat; lia).
  cbn [err buf append].
  destruct world as [o c]. cbn [out clock] in *.
  rewrite csv_loop_room by (cbn [buf err]; try reflexivity; lia).
  cbn [err buf].
  unfold on_sink, bufio_Flush, bind, w_Write, ret. cbn [err buf out clock].
  assert (Eh : Csv.encode_record csv_header = csv_header_row) by reflexivity.
  rewrite Eh.
  assert (N : forall rest, (String.length (csv_header_row ++ rest) =? 0)%nat = false)
    by reflexivity.
  rewrite N.
  destruct (Write o (csv_header_row ++ _)) as [o' [e|]]; reflexivity.
Qed.

End Buffered.

(** The entries of the scenario on a closed pipe: the one write fails. *)
Lemma TimeEntriesCSVPrint_one_write_witness :
  TimeEntriesCSVPrint (fun _ _ => "2006-01-02 15:04:05") (make_slice [entry_a; entry_b])
    {| out := broken; clock := quarter_past_eleven |} =
  (Some "broken pipe", {| out := broken; clock := later 2 quarter_past_eleven |}).
Proof.
  pose proof (TimeEntriesCSVPrint_one_write (fun _ _ => "2006-01-02 15:04:05")
                (make_slice [entry_a; entry_b])
                {| out := broken; clock := quarter_past_eleven |}) as H.
  cbv zeta in H. apply H. apply Nat.leb_le. vm_compute. reflexivity.
Defined.


(** ** A sink that rejects every write *)

Section Rejecting.

Context {W : Type} {writer : Writer W}.
Variable time_Format : Time -> string -> string.
Variable json_Marshal : TimeEntry -> string.

Hypothesis rejects : forall (w : W) (p : string), snd (Write w p) <> None.

(** The buffer holds bytes still to be written, or an error. *)
Let unflushed (b : bufio) : Prop :=
  (err b = None /\ buf b <> "") \/ err b <> None.

Lemma bufio_Flush_rejects b (w : W) :
  err b = None -> buf b <> "" -> err (fst (bufio_Flush b w)) <> None.
Proof.
  intros E N. unfold bufio_Flush. rewrite E.
  destruct (buf b) as [|ch rest] eqn:B; [congruence|]. cbn [String.length Nat.eqb].
  unfold bind, w_Write. pose proof (rejects w (String ch rest)) as R.
  destruct (Write w (String ch rest)) as [w' [e|]]; cbn in *; congruence.
Qed.

Lemma bufio_WriteByte_rejects ch b (w : W) : unflushed (fst (bufio_WriteByte ch b w)).
Proof.
  unfold bufio_WriteByte, unflushed. destruct (err b) as [e|] eqn:E.
  - right. cbn. congruence.
  - unfold bind.
    destruct (defaultBufSize <=? String.length (buf b))%nat eqn:L.
    + assert (N : buf b <> "").
      { intros B. rewrite B in L. discriminate. }
      pose proof (bufio_Flush_rejects b w E N) as F.
      destruct (bufio_Flush b w) as [b1 w1]. cbn [fst] in F.
      destruct (err b1) as [e|] eqn:E1; [|congruence]. right. cbn. congruence.
    + unfold ret. rewrite E. left. cbn. split; [reflexivity|apply append_not_empty].
Qed.

Lemma bufio_WriteString_rejects s b (w : W) :
  unflushed b -> unflushed (fst (bufio_WriteString s b w)).
Proof.
  revert b w. induction s as [|ch s IH]; intros b w U; cbn [bufio_WriteString].
  - exact U.
  - unfold bind. pose proof (bufio_WriteByte_rejects ch b w) as U1.
    destruct (bufio_WriteByte ch b w) as [b1 w1]. apply IH. exact U1.
Qed.

Lemma csv_Write_rejects record b (w : W) : unflushed (fst (csv_Write record b w)).
Proof.
  unfold csv_Write, Csv.encode_record.
  destruct (Join (map Csv.encode_field record) "," ++ LF) as [|ch s] eqn:S.
  - destruct (Join (map Csv.encode_field record) ","); discriminate.
  - cbn [bufio_WriteString]. unfold bind.
    pose proof (bufio_WriteByte_rejects ch b w) as U1.
    destruct (bufio_WriteByte ch b w) as [b1 w1].
    apply bufio_WriteString_rejects. exact U1.
Qed.

Lemma csv_WriteAll_rejects records b (w : W) :
  unflushed b -> unflushed (fst (csv_WriteAll records b w)).
Proof.
  revert b w. induction records as [|r records IH]; intros b w U; cbn [csv_WriteAll].
  - exact U.
  - unfold bind. pose proof (csv_Write_rejects r b w) as U1.
    destruct (csv_Write r b w) as [b1 w1]. cbn [fst] in U1.
    destruct (err b1) eqn:E1; [exact U1|]. apply IH. exact U1.
Qed.

Lemma csv_print_rejects records (w : W) : fst (csv_print records w) <> None.
Proof.
  unfold csv_print, bind.
  pose proof (csv_Write_rejects csv_header {| buf := ""; err := None |} w) as U1.
  destruct (csv_Write csv_header {| buf := ""; err := None |} w) as [b1 w1]. cbn [fst] in U1.
  destruct (err b1) as [e|] eqn:E1; [cbn; congruence|].
  pose proof (csv_WriteAll_rejects records b1 w1 U1) as U2.
  destruct (csv_WriteAll records b1 w1) as [b2 w2]. cbn [fst] in U2.
  destruct (err b2) as [e|] eqn:E2; [cbn; congruence|].
  destruct U2 as [[_ N]|X]; [|congruence].
  pose proof (bufio_Flush_rejects b2 w2 E2 N) as F.
  destruct (bufio_Flush b2 w2) as [b3 w3]. exact F.
Qed.

(** X14.  When the sink rejects every write, the JSON renderer, the two
    duration-only renderers and the CSV renderer return an error, whatever the
    collection; the CSV renderer does so although its writer holds the output
    back in a buffer. *)
Theorem sink_errors_returned (entries : slice TimeEntry) (world : World) :
  fst (TimeEntriesJSONPrint json_Marshal entries world) <> None /\
  fst (TimeEntriesTotalDurationOnlyFormatted entries world) <> None /\
  fst (TimeEntriesTotalDurationOnlyAsFloat entries world) <> None /\
  fst (TimeEntriesCSVPrint time_Format entries world) <> None.
Proof.
  split; [|split; [|split]].
  - unfold TimeEntriesJSONPrint. rewrite on_sink_fst. unfold w_Write.
    pose proof (rejects (out world) (json_Encode json_Marshal entries ++ LF)) as R.
    destruct (Write (out world) _) as [w' r]. exact R.
  - unfold TimeEntriesTotalDurationOnlyFormatted.
    pose proof (timeEntriesTotalDurationOnly_spec durationToString entries world) as S.
    cbv zeta in S. rewrite S. cbn [fst]. apply rejects.
  - unfold TimeEntriesTotalDurationOnlyAsFloat.
    pose proof (timeEntriesTotalDurationOnly_spec (fun d => fmt_f (Hours d)) entries world)
      as S.
    cbv zeta in S. rewrite S. cbn [fst]. apply rejects.
  - pose proof (TimeEntriesCSVPrint_spec time_Format entries world) as [S _].
    rewrite S. apply csv_print_rejects.
Qed.

End Rejecting.

(** The entries of the scenario on a closed pipe. *)
Lemma sink_errors_returned_witness :
  fst (TimeEntriesCSVPrint (fun _ _ => "2006-01-02 15:04:05") (make_slice [entry_a; entry_b])
         {| out := broken; clock := quarter_past_eleven |}) <> None.
Proof.
  assert (R : forall (w : Broken) (p : string), snd (Write w p) <> None)
    by (intros w p H; discriminate H).
  apply (sink_errors_returned (fun _ _ => "2006-01-02 15:04:05") (fun _ => "{}") R
           (make_slice [entry_a; entry_b])
           {| out := broken; clock := quarter_past_eleven |}).
Defined.

(** ** A total of whole hours, in decimal hours *)

Lemma Hours_whole k :
  (minDuration <= k * Hour <= maxDuration)%Z -> Hours (k * Hour) = inject_Z k.
Proof.
  intros H. unfold Hours, Int64.div, Int64.rem.
  rewrite Z.quot_mul, Z.rem_mul by (unfold Hour; lia).
  assert (Hk : (- 2 ^ 53 < k < 2 ^ 53)%Z)
    by (unfold minDuration, maxDuration, Int64.min_int, Int64.max_int, Hour in H; lia).
  unfold Float64.of_int. rewrite (Float64Facts.round_Z k Hk).
  change (Float64.div (Float64.round (inject_Z 0)) (inject_Z 3600000000000)) with 0%Q.
  unfold Float64.add.
  rewrite (Float64Facts.round_comp (inject_Z k + 0) (inject_Z k)) by ring.
  apply Float64Facts.round_Z, Hk.
Qed.

Lemma fmt_f_whole k :
  fmt_f (inject_Z k) =
  (if (k <? 0)%Z then "-" else "") ++ Fmt.itoa (Z.abs k) ++ ".000000".
Proof.
  unfold fmt_f.
  assert (En : Float64.rne (Qabs (inject_Z k) * inject_Z 1000000) = (Z.abs k * 1000000)%Z).
  { rewrite (Float64Facts.rne_comp _ (inject_Z (Z.abs k * 1000000))).
    - apply Float64Facts.rne_Z.
    - rewrite inject_Z_mult. reflexivity. }
  rewrite En. cbv zeta. rewrite Z_mod_mult, Z_div_mult by lia.
  assert (Es : Qle_bool 0 (inject_Z k) = negb (k <? 0)%Z).
  { unfold Qle_bool, inject_Z. cbn [Qnum Qden]. rewrite Z.mul_1_r. 
    change (0 * 1)%Z with 0%Z. destruct (Z.ltb_spec k 0), (Z.leb_spec 0 k); try reflexivity; lia. }
  rewrite Es. destruct (k <? 0)%Z; reflexivity.
Qed.

Section DecimalHours.

Context {W : Type} {writer : Writer W}.

(** X15.  When the total is a whole number [k] of hours, the decimal renderer
    writes, in one write, the digits of [k], [.000000] and a line feed, with a
    minus sign before them when the total is negative. *)
Theorem TimeEntriesTotalDurationOnlyAsFloat_whole_hours
    (entries : slice TimeEntry) (world : World) (k : Z) :
  fst (sumTimeEntriesDuration entries (clock world)) = (k * Hour)%Z ->
  let line := (if (k <? 0)%Z then "-" else "") ++ Fmt.itoa (Z.abs k) ++ ".000000" ++ LF in
  TimeEntriesTotalDurationOnlyAsFloat entries world =
  (snd (Write (out world) line),
   {| out := fst (Write (out world) line);
      clock := later (length (elements entries)) (clock world) |}).
Proof.
  intros E line. subst line.
  rewrite sumTimeEntriesDuration_spec in E. cbn [fst] in E.
  unfold TimeEntriesTotalDurationOnlyAsFloat.
  pose proof (timeEntriesTotalDurationOnly_spec (fun d => fmt_f (Hours d)) entries world) as S.
  cbv zeta in S. rewrite S. clear S. rewrite E.
  rewrite Hours_whole, fmt_f_whole.
  - rewrite !append_assoc. reflexivity.
  - rewrite <- E, int64_sum_wrap. apply wrap_range.
Qed.

End DecimalHours.

(** Two hours closed and one hour running. *)
Lemma TimeEntriesTotalDurationOnlyAsFloat_whole_hours_witness :
  let entry := {| ID := "a"; Description := "";
                  Interval := {| Start := 8 * Hour; End := Some (10 * Hour) |};
                  Project_of := None; Task_of := None; User_of := None; Tags := [] |} in
  out (snd (TimeEntriesTotalDurationOnlyAsFloat (make_slice [entry; entry_b])
              {| out := EmptyString : Buffer; clock := fun _ => 12 * Hour |}))
  = "3.000000" ++ LF.
Proof.
  cbv zeta.
  pose proof (TimeEntriesTotalDurationOnlyAsFloat_whole_hours
                (make_slice [{| ID := "a"; Description := "";
                                Interval := {| Start := 8 * Hour; End := Some (10 * Hour) |};
                                Project_of := None; Task_of := None; User_of := None;
                                Tags := [] |}; entry_b])
                {| out := EmptyString : Buffer; clock := fun _ => 12 * Hour |} 3) as H.
  cbv zeta in H. rewrite H; reflexivity.
Defined.


(** ** The line feeds of the template renderers *)

Section LineFeeds.

Context {W : Type} {writer : Writer W}.
Variable Template : Type.
Variable template_Parse : string -> Template + error.
Variable template_Execute : Template -> View -> list string * option error.

Lemma render_views_succeed t vs (w : W) :
  (forall v, In v vs -> forall w', fst (Execute Template template_Execute t v w') = None) ->
  fst (render_views Template template_Execute t vs w) = None.
Proof.
  revert w. induction vs as [|v vs IH]; intros w H.
  - reflexivity.
  - cbn [render_views]. unfold bind.
    pose proof (H v (or_introl eq_refl) w) as Hv.
    destruct (Execute Template template_Execute t v w) as [[x|] w1]; [discriminate|].
    destruct (Fprintln "" w1) as [r w2].
    apply IH. intros v' Hin. apply H. right. exact Hin.
Qed.

(** X16.  The result of the line feed written after an entry is dropped: when
    the template parses and no evaluation returns an error, the renderer
    returns nil, whatever the sink answered to the line feeds. *)
Theorem template_line_feeds_unchecked (format : string) (t : Template)
    (entries : slice TimeEntry) (world : World) :
  template_Parse format = inl t ->
  (forall v, In v (views entries) ->
     forall w, fst (Execute Template template_Execute t v w) = None) ->
  fst (TimeEntriesPrintWithTemplate Template template_Parse template_Execute format
         entries world) = None.
Proof.
  intros Hp H. unfold TimeEntriesPrintWithTemplate. rewrite Hp, on_sink_fst.
  rewrite template_loop_views. apply render_views_succeed. exact H.
Qed.

Lemma quiet_loop_writes l (w : W) :
  quiet_loop l w = (tt, fold_left (fun w u => fst (Write w (ID u ++ LF))) l w).
Proof.
  revert w. induction l as [|u l IH]; intros w; cbn [quiet_loop fold_left].
  - reflexivity.
  - unfold bind, Fprintln, w_Write. destruct (Write w (ID u ++ LF)) as [w1 r]. cbn [fst].
    apply IH.
Qed.

End LineFeeds.

(** X17.  The quiet renderer hands each identifier, with its line feed, to the
    sink in one write, in the order of the collection; it goes on after a
    write that fails and does not read the clock. A sink that takes every
    write ends up with one line for each entry, holding its identifier. *)
Theorem TimeEntriesPrintQuietly_writes {W : Type} {writer : Writer W}
    (entries : slice TimeEntry) (world : @World W) (o : Buffer) (c : Clock) :
  TimeEntriesPrintQuietly entries world =
    (None,
     {| out := fold_left (fun w u => fst (Write w (ID u ++ LF))) (elements entries)
                 (out world);
        clock := clock world |}) /\
  TimeEntriesPrintQuietly entries {| out := o; clock := c |} =
    (None,
     {| out := o ++ String.concat "" (map (fun u => ID u ++ LF) (elements entries));
        clock := c |}).
Proof.
  split.
  - unfold TimeEntriesPrintQuietly, on_sink, bind. rewrite quiet_loop_writes. reflexivity.
  - unfold TimeEntriesPrintQuietly, on_sink, bind. rewrite quiet_loop_writes.
    cbn [out clock]. unfold ret. f_equal. f_equal.
    generalize (elements entries) as l. intros l. revert o.
    induction l as [|u l IH]; intros o; cbn [fold_left map].
    + cbn. rewrite append_nil_r. reflexivity.
    + rewrite concat_cons, IH. cbn [Write Buffer_Writer fst].
      rewrite !append_assoc. reflexivity.
Qed.

Section Rows.

Variable Template : Type.
Variable template_Parse : string -> Template + error.
Variable template_Execute : Template -> View -> list string * option error.
Variable res_ReadFile : string -> string + error.

(** What a view contributes to the output: what its evaluation writes, and
    a line feed. *)
Let row (t : Template) (v : View) : string :=
  String.concat "" (fst (template_Execute t v)) ++ LF.

Lemma render_views_rows t vs (o : Buffer) :
  (forall v, In v vs -> snd (template_Execute t v) = None) ->
  render_views Template template_Execute t vs o =
  (None, o ++ String.concat "" (map (row t) vs)).
Proof.
  revert o. induction vs as [|v vs IH]; intros o H.
  - cbn. rewrite append_nil_r. reflexivity.
  - cbn [render_views map]. rewrite concat_cons. unfold bind, Execute.
    pose proof (H v (or_introl eq_refl)) as Hv. unfold row at 1.
    destruct (template_Execute t v) as [chunks failure]. cbn [fst snd] in *. subst failure.
    unfold bind. rewrite write_all_Buffer. unfold ret. cbv beta iota.
    change (Fprintln "" (o ++ String.concat "" chunks))
      with (@None error, (o ++ String.concat "" chunks) ++ LF).
    cbv beta iota.
    rewrite IH by (intros v' Hin; apply H; right; exact Hin).
    rewrite !append_assoc. reflexivity.
Qed.

(** X18.  On a sink that takes every write, when the template parses and no
    evaluation fails, the output is, for each entry in order, what the
    evaluation of its view writes followed by one line feed; the Markdown
    renderer does the same with the template of the embedded file. *)
Theorem template_rows (format : string) (t : Template)
    (entries : slice TimeEntry) (o : Buffer) (c : Clock) :
  template_Parse format = inl t ->
  (forall v, In v (views entries) -> snd (template_Execute t v) = None) ->
  let done := (@None error,
               {| out := o ++ String.concat "" (map (row t) (views entries));
                  clock := c |}) in
  TimeEntriesPrintWithTemplate Template template_Parse template_Execute format entries
    {| out := o; clock := c |} = done /\
  (res_ReadFile "resources/timeEntry.gotmpl.md" = inl format ->
   TimeEntriesMarkdownPrint Template template_Parse template_Execute res_ReadFile entries
     {| out := o; clock := c |} = done).
Proof.
  intros Hp H done.
  assert (E : TimeEntriesPrintWithTemplate Template template_Parse template_Execute format
                entries {| out := o; clock := c |} = done).
  { unfold TimeEntriesPrintWithTemplate. rewrite Hp. unfold on_sink. cbn [out clock].
    rewrite template_loop_views. fold (views entries).
    rewrite render_views_rows by exact H. reflexivity. }
  split; [exact E|].
  intros Hr. unfold TimeEntriesMarkdownPrint. rewrite Hr. exact E.
Qed.

End Rows.

(** A template that writes nothing, on a closed pipe: every line feed is rejected. *)
Lemma template_line_feeds_unchecked_witness :
  fst (TimeEntriesPrintWithTemplate unit (fun _ => inl tt) (fun _ _ => ([], None)) ""
         (make_slice [entry_a; entry_b])
         {| out := broken; clock := quarter_past_eleven |}) = None /\
  snd (Fprintln "" broken) = broken /\ fst (Fprintln "" broken) = Some "broken pipe".
Proof.
  split; [|split; reflexivity].
  apply (template_line_feeds_unchecked unit (fun _ => inl tt) (fun _ _ => ([], None)) "" tt).
  - reflexivity.
  - intros v _ w. reflexivity.
Defined.

(** A template that writes the identifier and a separator. *)
Lemma template_rows_witness :
  out (snd (TimeEntriesPrintWithTemplate unit (fun _ => inl tt)
              (fun _ v => ([ID (Entry v); if Last v then "." else ","], None)) "{{.ID}}"
              (make_slice [entry_a; entry_b])
              {| out := EmptyString : Buffer; clock := quarter_past_eleven |}))
  = "a," ++ LF ++ "b." ++ LF.
Proof.
  rewrite (proj1 (template_rows unit (fun _ => inl tt)
                    (fun _ v => ([ID (Entry v); if Last v then "." else ","], None))
                    (fun _ => inr "no such file") "{{.ID}}" tt
                    (make_slice [entry_a; entry_b]) "" quarter_past_eleven
                    eq_refl (fun _ _ => eq_refl))).
  reflexivity.
Defined.

Module ClientListFacts.
Import ClientList.
Local Open Scope string_scope.

Section Facts.

Variable PaginationParam : Type.
Variable api_AllPages : PaginationParam.
Variable OutputFlags : Type.
Variable of_Check : OutputFlags -> option error.
Variable ApiClient : Type.
Variable DtoClient : Type.
Variable workspace : string + error.
Variable client : ApiClient + error.
Variable clients : ApiClient -> GetClientsParam PaginationParam -> list DtoClient + error.
Variable report : list DtoClient -> OutputFlags -> option error.

Let run_of := run PaginationParam api_AllPages OutputFlags of_Check ApiClient DtoClient
                workspace client clients report.

(** X19.  Whatever the calls answer, when the clients are asked for it is
    with these parameters: the workspace the factory named, all pages, the
    name of the flag [name] (empty when the flag is missing), and the filter
    on archived clients: archived ones when [archived] is set, whether or not
    [not-archived] is set too; the others when only [not-archived] is set;
    none when neither is set or defined. *)
Theorem RunE_parameters (outputs : OutputFlags) (flags : FlagSet)
    (c : ApiClient) (p : GetClientsParam PaginationParam) :
  In (GetClients c p) (snd (run_of outputs flags)) ->
  workspace = inl (Workspace p) /\
  client = inl c /\
  Pagination p = api_AllPages /\
  Name p = match Lookup flags "name" with
           | Some (StringValue s) => s
           | _ => ""
           end /\
  Archived p = match Lookup flags "archived", Lookup flags "not-archived" with
               | Some (BoolValue true), _ => Some true
               | _, Some (BoolValue true) => Some false
               | _, _ => None
               end.
Proof.
  unfold run_of, run, RunE, bind, recorded, ret.
  destruct (of_Check outputs) as [e|]; [intros []|].
  destruct workspace as [ws|e]; [|cbn; intros [H|[]]; discriminate].
  destruct client as [cl|e]; [|cbn; intros [H|[H|[]]]; discriminate].
  match goal with |- context [clients cl ?q] => set (param := q) end.
  assert (Hin : In (GetClients c p)
                   ([GetWorkspaceID; NewClient; GetClients cl param]
                    : list (Call PaginationParam OutputFlags ApiClient DtoClient)) ->
                c = cl /\ p = param).
  { cbn. intros [H|[H|[H|[]]]]; try discriminate. injection H as -> ->. auto. }
  intros H.
  assert (Hcp : c = cl /\ p = param).
  { apply Hin. destruct (clients cl param) as [cs|e]; cbn in H |- *.
    - destruct H as [H|[H|[H|[H|[]]]]]; try discriminate; auto.
    - exact H. }
  destruct Hcp as [-> ->]. clear H Hin. subst param.
  unfold GetString, GetBool.
  destruct (Lookup flags "name") as [[s|b]|];
    destruct (Lookup flags "archived") as [[s1|[|]]|];
    destruct (Lookup flags "not-archived") as [[s2|[|]]|];
    cbn; repeat split; reflexivity.
Qed.

(** X20.  The calls of a run, in their order, and where it ends: with the
    error of [Check] before any call; with the error of the first call that
    fails, nothing being called after it; or, after the report, with what the
    report returns. *)
Theorem RunE_calls (outputs : OutputFlags) (flags : FlagSet) :
  let result := fst (run_of outputs flags) in
  match snd (run_of outputs flags) with
  | [] => of_Check outputs = result /\ result <> None
  | [GetWorkspaceID] =>
      of_Check outputs = None /\ exists e, workspace = inr e /\ result = Some e
  | [GetWorkspaceID; NewClient] =>
      of_Check outputs = None /\ exists e, client = inr e /\ result = Some e
  | [GetWorkspaceID; NewClient; GetClients c p] =>
      of_Check outputs = None /\ exists e, clients c p = inr e /\ result = Some e
  | [GetWorkspaceID; NewClient; GetClients c p; Report cs o] =>
      of_Check outputs = None /\ clients c p = inl cs /\ o = outputs /\ result = report cs outputs
  | _ => False
  end.
Proof.
  unfold run_of, run, RunE, bind, recorded, ret.
  destruct (of_Check outputs) as [e|]; [cbn; split; [reflexivity|discriminate]|].
  destruct workspace as [ws|e]; [|cbn; eauto].
  destruct client as [cl|e]; [|cbn; eauto].
  match goal with |- context [clients cl ?q] => set (param := q) end.
  destruct (clients cl param) as [cs|e] eqn:E; cbn; eauto.
Qed.

End Facts.

(** Both [archived] and [not-archived] set. *)
Lemma RunE_parameters_witness :
  let flags := [("name", StringValue "acme"); ("not-archived", BoolValue true);
                ("archived", BoolValue true)] in
  let p := {| Workspace := "w1"; Name := "acme"; Archived := Some true;
              Pagination := tt |} in
  snd (run unit tt unit (fun _ => None) unit string
         (inl "w1") (inl tt) (fun _ _ => inl []) (fun _ _ => None) tt flags)
  = [GetWorkspaceID; NewClient; GetClients tt p; Report [] tt] /\
  Archived p = Some true.
Proof.
  cbv zeta. split; [reflexivity|].
  apply (RunE_parameters unit tt unit (fun _ => None) unit string
           (inl "w1") (inl tt) (fun _ _ => inl []) (fun _ _ => None) tt
           [("name", StringValue "acme"); ("not-archived", BoolValue true);
            ("archived", BoolValue true)] tt).
  cbn. auto.
Defined.

End ClientListFacts.
